(** * CleanSlate: the cleaning and normalisation pipeline of [cleaning.py]

    A shallow embedding of [src/cleaning.py] (steps 1 to 7 and the batch
    driver [process_articles]) together with the properties the
    specification states about it.

    - Python [str] values are lists of Unicode code points.
    - The loosely typed raw records are values of [pyval].
    - Exceptions are explicit: code that can raise returns an [outcome].
    - Each [re.sub] call is a left-to-right scan ([re_sub]) driven by a
      matcher written for the pattern of that call.
    - Library functions whose tables are outside the repository (Unicode
      case mapping and NFKC on non-ASCII text, HTML character references,
      [urlparse], [strptime], the local time zone, [repr]) are fields of
      a [Runtime] record; the ASCII fragment and the ISO-8601 shapes the
      scenarios use are written out. *)

From Stdlib Require Import List ZArith NArith Bool Lia String Ascii Sorted.
From Stdlib Require Import DecimalN FinFun.
From Stdlib Require Import Floats.SpecFloat.
Import ListNotations.

Set Implicit Arguments.

(** ** Text *)

Definition codepoint := N.
Definition pystr := list codepoint.

(** An ASCII literal as a Python string. *)
Definition lit (s : string) : pystr := map N_of_ascii (list_ascii_of_string s).

Definition len (s : pystr) : Z := Z.of_nat (List.length s).

Definition in_range (lo hi c : N) : bool := ((lo <=? c) && (c <=? hi))%N.

Definition str_eqb (a b : pystr) : bool :=
  if list_eq_dec N.eq_dec a b then true else false.

Fixpoint starts_with (p s : pystr) : bool :=
  match p, s with
  | [], _ => true
  | _ :: _, [] => false
  | a :: p', b :: s' => (a =? b)%N && starts_with p' s'
  end.

(** [needle in s] for [str] operands. *)
Fixpoint contains (needle s : pystr) : bool :=
  starts_with needle s ||
  match s with
  | [] => false
  | _ :: s' => contains needle s'
  end.

(** [str.isspace] of one character; the regular expression class [\s]
    and the characters [str.strip()] and [str.split()] treat as blank
    are the same set. *)
Definition isspace (c : codepoint) : bool :=
  (in_range 9 13 c || in_range 28 32 c || (c =? 133) || (c =? 160)
   || (c =? 5760) || in_range 8192 8202 c || (c =? 8232) || (c =? 8233)
   || (c =? 8239) || (c =? 8287) || (c =? 12288))%N.

Fixpoint lstrip (s : pystr) : pystr :=
  match s with
  | c :: s' => if isspace c then lstrip s' else s
  | [] => []
  end.

Definition rstrip (s : pystr) : pystr := rev (lstrip (rev s)).

(** [s.strip()] *)
Definition strip (s : pystr) : pystr := rstrip (lstrip s).

(** [sep.join(parts)] *)
Fixpoint join (sep : pystr) (parts : list pystr) : pystr :=
  match parts with
  | [] => []
  | [p] => p
  | p :: rest => p ++ sep ++ join sep rest
  end.

(** [s.replace(old, new)] for a one-character [old]. *)
Definition replace_char (old : codepoint) (new : pystr) (s : pystr) : pystr :=
  flat_map (fun c => if (c =? old)%N then new else [c]) s.

(** Length of the longest prefix whose characters satisfy [p]: what a
    greedy [p*] consumes. *)
Fixpoint span (p : codepoint -> bool) (s : pystr) : nat :=
  match s with
  | c :: s' => if p c then S (span p s') else 0
  | [] => 0
  end.

(** [s.split()]: the maximal runs of non-blank characters. [cur] is the
    token being read, kept reversed. *)
Fixpoint split_ws_from (cur : pystr) (s : pystr) : list pystr :=
  match s with
  | [] => match cur with [] => [] | _ => [rev cur] end
  | c :: s' =>
      if isspace c
      then match cur with
           | [] => split_ws_from [] s'
           | _ => rev cur :: split_ws_from [] s'
           end
      else split_ws_from (c :: cur) s'
  end.

Definition split_ws (s : pystr) : list pystr := split_ws_from [] s.

(** ** Regular-expression substitution

    [re.sub(pattern, repl, text)] scans [text] from the left.  At each
    position the pattern is tried; on a match the replacement is emitted
    and the scan resumes after the match, otherwise the character is
    copied.  Every pattern of [cleaning.py] consumes at least one
    character, so empty matches do not arise.

    A matcher receives the character before the position ([None] at the
    start of the text, for [^] and [\b]) and the rest of the text, and
    returns the length of the match. *)

Section ReSub.
Variable match_at : option codepoint -> pystr -> option nat.
Variable repl : pystr -> pystr.

(** [skip] counts the characters of the current match still to drop. *)
Fixpoint re_sub_from (prev : option codepoint) (skip : nat) (s : pystr) : pystr :=
  match s with
  | [] => []
  | c :: s' =>
      match skip with
      | S k => re_sub_from (Some c) k s'
      | O =>
          match match_at prev s with
          | Some (S n) => repl (firstn (S n) s) ++ re_sub_from (Some c) n s'
          | _ => c :: re_sub_from (Some c) 0 s'
          end
      end
  end.

Definition re_sub (s : pystr) : pystr := re_sub_from None 0 s.
End ReSub.

Definition chr (a : ascii) : codepoint := N_of_ascii a.

(** Pattern [<[^>]+>].  [[^>]+] is greedy and cannot give back a
    character to the closing [>], so the match is the longest run of
    non-[>] characters, which must be non-empty and followed by [>]. *)
Definition m_tag (_ : option codepoint) (s : pystr) : option nat :=
  match s with
  | c :: r =>
      if (c =? chr "<")%N then
        let k := span (fun x => negb (x =? chr ">")%N) r in
        match k, skipn k r with
        | S _, d :: _ => if (d =? chr ">")%N then Some (k + 2) else None
        | _, _ => None
        end
      else None
  | [] => None
  end.

(** Case-insensitive literals.  Under [re.IGNORECASE] on [str] patterns
    the letters h, t, p and w match their two ASCII cases; s also
    matches U+017F (long s). *)
Definition ci (lower : ascii) (c : codepoint) : bool :=
  ((c =? chr lower) || (c + 32 =? chr lower))%N.
Definition ci_s (c : codepoint) : bool := ci "s" c || (c =? 383)%N.

(** [\S+]: the longest run of non-blank characters, at least one. *)
Definition nonspace_run (s : pystr) : option nat :=
  match span (fun x => negb (isspace x)) s with
  | O => None
  | k => Some k
  end.

(** [://\S+] *)
Definition m_scheme_rest (s : pystr) : option nat :=
  if starts_with (lit "://") s
  then option_map (fun k => 3 + k) (nonspace_run (skipn 3 s))
  else None.

(** [https?://\S+]: the optional s is tried first, then skipped. *)
Definition m_http (s : pystr) : option nat :=
  match s with
  | h :: t1 :: t2 :: p :: r =>
      if ci "h" h && ci "t" t1 && ci "t" t2 && ci "p" p then
        let with_s :=
          match r with
          | c :: r' => if ci_s c then option_map (fun k => 5 + k) (m_scheme_rest r')
                       else None
          | [] => None
          end in
        match with_s with
        | Some n => Some n
        | None => option_map (fun k => 4 + k) (m_scheme_rest r)
        end
      else None
  | _ => None
  end.

(** [www\.\S+] *)
Definition m_www (s : pystr) : option nat :=
  match s with
  | w1 :: w2 :: w3 :: d :: r =>
      if ci "w" w1 && ci "w" w2 && ci "w" w3 && (d =? chr ".")%N
      then option_map (fun k => 4 + k) (nonspace_run r)
      else None
  | _ => None
  end.

(** Pattern [https?://\S+|www\.\S+] with [re.IGNORECASE]. *)
Definition m_url (_ : option codepoint) (s : pystr) : option nat :=
  match m_http s with
  | Some n => Some n
  | None => m_www s
  end.

(** Pattern [\s+]. *)
Definition m_spaces (_ : option codepoint) (s : pystr) : option nat :=
  match span isspace s with
  | O => None
  | k => Some k
  end.

Definition is_bang (c : codepoint) : bool :=
  ((c =? chr "!") || (c =? chr "?") || (c =? chr "."))%N.

(** Pattern [([!?.]){2,}]. *)
Definition m_bangs (_ : option codepoint) (s : pystr) : option nat :=
  let k := span is_bang s in
  if (2 <=? k)%nat then Some k else None.

(** Replacement [\1] for [([!?.]){2,}]: a group under a repetition keeps
    its last iteration, that is the last character of the match. *)
Definition last_char (m : pystr) : pystr :=
  match rev m with
  | c :: _ => [c]
  | [] => []
  end.

(** [string.printable]: digits, ASCII letters, punctuation, and the six
    blanks space, \t, \n, \r, \x0b, \x0c. *)
Definition printable (c : codepoint) : bool := in_range 32 126 c || in_range 9 13 c.


(** ** Exceptions *)

(** The exception classes the modelled operations raise, and two that
    derive from [BaseException] only. *)
Inductive exn :=
| AttributeError | TypeError | ValueError | OverflowError | OSError
| KeyboardInterrupt | SystemExit.

(** [isinstance(e, Exception)] *)
Definition is_Exception (e : exn) : bool :=
  match e with
  | KeyboardInterrupt | SystemExit => false
  | _ => true
  end.

Inductive outcome (A : Type) : Type :=
| Ret (a : A)
| Raise (e : exn).
Arguments Raise {A} e.

Definition bind {A B} (m : outcome A) (k : A -> outcome B) : outcome B :=
  match m with
  | Ret a => k a
  | Raise e => Raise e
  end.

Notation "x <- m ;; k" := (bind m (fun x => k))
  (at level 61, m at next level, right associativity).

(** [try: body / except: handler] *)
Definition try_except {A} (body handler : outcome A) : outcome A :=
  match body with
  | Ret a => Ret a
  | Raise _ => handler
  end.

(** [try: body / except Exception: handler] *)
Definition try_except_Exception {A} (body handler : outcome A) : outcome A :=
  match body with
  | Ret a => Ret a
  | Raise e => if is_Exception e then handler else Raise e
  end.

(** ** Raw values *)

#[local] Set Warnings "-register-all".
(** What [json] hands to the pipeline: a raw record is any such value,
    normally a [VDict], a dict with string keys kept as an association
    list that [lookup] reads by first match. *)
Inductive pyval :=
| VNone
| VBool (b : bool)
| VInt (z : Z)
| VFloat (f : spec_float)
| VStr (s : pystr)
| VList (l : list pyval)
| VDict (d : list (pystr * pyval)).
#[local] Set Warnings "register-all".

(** [bool(v)] *)
Definition truthy (v : pyval) : bool :=
  match v with
  | VNone => false
  | VBool b => b
  | VInt z => negb (z =? 0)%Z
  | VFloat (S754_zero _) => false
  | VFloat _ => true
  | VStr s => match s with [] => false | _ => true end
  | VList l => match l with [] => false | _ => true end
  | VDict d => match d with [] => false | _ => true end
  end.

Fixpoint lookup (k : pystr) (d : list (pystr * pyval)) : option pyval :=
  match d with
  | [] => None
  | (k', v) :: d' => if str_eqb k k' then Some v else lookup k d'
  end.

(** [v.get(key, default)]: only a dict has the method. *)
Definition get (v : pyval) (key : string) (default : pyval) : outcome pyval :=
  match v with
  | VDict d => Ret (match lookup (lit key) d with Some x => x | None => default end)
  | _ => Raise AttributeError
  end.

(** [a or b], the right operand evaluated only when needed. *)
Definition or_else (a : pyval) (b : outcome pyval) : outcome pyval :=
  if truthy a then Ret a else b.

(** [v.strip()]: only a [str] has the method. *)
Definition method_strip (v : pyval) : outcome pystr :=
  match v with
  | VStr s => Ret (strip s)
  | _ => Raise AttributeError
  end.

(** ** Dates *)

Record datetime := {
  dt_year : Z; dt_month : Z; dt_day : Z;
  dt_hour : Z; dt_minute : Z; dt_second : Z;
  dt_microsecond : Z;
  dt_utcoffset : option Z  (* seconds east of UTC; [None] for a naive value *)
}.

Definition is_leap (y : Z) : bool :=
  ((y mod 4 =? 0) && (negb (y mod 100 =? 0) || (y mod 400 =? 0)))%Z.

Definition days_in_month (y m : Z) : Z :=
  if (m =? 2)%Z then (if is_leap y then 29 else 28)
  else if ((m =? 4) || (m =? 6) || (m =? 9) || (m =? 11))%Z then 30 else 31.

Definition days_before_year (y : Z) : Z :=
  let p := (y - 1)%Z in (p * 365 + p / 4 - p / 100 + p / 400)%Z.

Fixpoint days_before_month_nat (y : Z) (m : nat) : Z :=
  match m with
  | O => 0
  | S k => (days_before_month_nat y k + days_in_month y (Z.of_nat (S k)))%Z
  end.

(** Days of the year that precede the first of month [m]. *)
Definition days_before_month (y m : Z) : Z :=
  days_before_month_nat y (Z.to_nat (m - 1)).

(** Proleptic Gregorian ordinal, day 1 being 0001-01-01. *)
Definition ymd2ord (y m d : Z) : Z :=
  (days_before_year y + days_before_month y m + d)%Z.

(** The ordinal of 1970-01-01. *)
Definition epoch_ord : Z := 719163.

(** Seconds since the epoch of an aware value. *)
Definition aware_seconds (d : datetime) (off : Z) : Z :=
  ((ymd2ord (dt_year d) (dt_month d) (dt_day d) - epoch_ord) * 86400
   + dt_hour d * 3600 + dt_minute d * 60 + dt_second d - off)%Z.

(** The three fallback patterns of the validator. *)
Inductive date_format :=
| Fmt_date_space_time   (* %Y-%m-%d %H:%M:%S *)
| Fmt_date_T_time       (* %Y-%m-%dT%H:%M:%S *)
| Fmt_date.             (* %Y-%m-%d *)

(** ** The runtime outside the modelled fragment *)

Record Runtime := {
  (** [repr(v)], which [str(v)] returns for a float, a list or a dict *)
  rt_repr : pyval -> pystr;
  (** [s.upper()] and [s.lower()] for [s] with a non-ASCII character *)
  rt_upper : pystr -> pystr;
  rt_lower : pystr -> pystr;
  (** [unicodedata.normalize('NFKC', s)] for [s] with a non-ASCII character *)
  rt_nfkc : pystr -> pystr;
  (** [html.unescape(s)] for [s] that contains an ampersand *)
  rt_charref : pystr -> pystr;
  (** [urlparse(url).netloc] *)
  rt_netloc : pystr -> outcome pystr;
  (** [datetime.fromisoformat(s)] for [s] outside [iso_fragment] *)
  rt_fromisoformat : pystr -> outcome datetime;
  (** [datetime.strptime(s, fmt)] *)
  rt_strptime : pystr -> date_format -> outcome datetime;
  (** [int(dt.timestamp())] for a naive value (local time zone) or one
      with a fractional second *)
  rt_timestamp : datetime -> outcome Z;
  (** [\d] and [\w] on a non-ASCII character *)
  rt_isdecimal : codepoint -> bool;
  rt_isalnum : codepoint -> bool
}.

Definition is_ascii (c : codepoint) : bool := (c <? 128)%N.

Definition ascii_upper (c : codepoint) : codepoint :=
  if in_range 97 122 c then (c - 32)%N else c.
Definition ascii_lower (c : codepoint) : codepoint :=
  if in_range 65 90 c then (c + 32)%N else c.

Fixpoint uint_digits (u : Decimal.uint) : pystr :=
  match u with
  | Decimal.Nil => []
  | Decimal.D0 u' => 48%N :: uint_digits u'
  | Decimal.D1 u' => 49%N :: uint_digits u'
  | Decimal.D2 u' => 50%N :: uint_digits u'
  | Decimal.D3 u' => 51%N :: uint_digits u'
  | Decimal.D4 u' => 52%N :: uint_digits u'
  | Decimal.D5 u' => 53%N :: uint_digits u'
  | Decimal.D6 u' => 54%N :: uint_digits u'
  | Decimal.D7 u' => 55%N :: uint_digits u'
  | Decimal.D8 u' => 56%N :: uint_digits u'
  | Decimal.D9 u' => 57%N :: uint_digits u'
  end.

(** Decimal digits of a natural number. *)
Definition decimal (n : N) : pystr := uint_digits (N.to_uint n).

(** [str(z)] for an [int].  CPython refuses to convert an [int] of more
    than 4300 digits (a [ValueError]); that limit is not modelled. *)
Definition int_str (z : Z) : pystr :=
  if (z <? 0)%Z then chr "-" :: decimal (Z.to_N (- z)) else decimal (Z.to_N z).

(** [f"{n:04d}"]: zero-padded to a width of four, the sign included. *)
Definition format_04d (n : Z) : pystr :=
  let d := decimal (Z.to_N (Z.abs n)) in
  if (n <? 0)%Z then chr "-" :: repeat 48%N (3 - List.length d) ++ d
  else repeat 48%N (4 - List.length d) ++ d.

Section WithRuntime.
Variable rt : Runtime.

(** [str(v)] *)
Definition py_str (v : pyval) : pystr :=
  match v with
  | VStr s => s
  | VNone => lit "None"
  | VBool true => lit "True"
  | VBool false => lit "False"
  | VInt z => int_str z
  | _ => rt_repr rt v
  end.

(** [s.upper()] *)
Definition str_upper (s : pystr) : pystr :=
  if forallb is_ascii s then map ascii_upper s else rt_upper rt s.

(** [s.lower()] *)
Definition str_lower (s : pystr) : pystr :=
  if forallb is_ascii s then map ascii_lower s else rt_lower rt s.

(** [unicodedata.normalize('NFKC', s)]: ASCII text is already normal. *)
Definition nfkc (s : pystr) : pystr :=
  if forallb is_ascii s then s else rt_nfkc rt s.

(** [html.unescape(s)], which returns [s] itself when it holds no
    ampersand. *)
Definition html_unescape (s : pystr) : pystr :=
  if existsb (N.eqb (chr "&")) s then rt_charref rt s else s.

(** [v.upper()]: only a [str] has the method. *)
Definition method_upper (v : pyval) : outcome pystr :=
  match v with
  | VStr s => Ret (str_upper s)
  | _ => Raise AttributeError
  end.

End WithRuntime.

(** ** ISO-8601 fragment

    [datetime.fromisoformat] on the shapes [YYYY-MM-DD],
    [YYYY-MM-DD?HH:MM:SS] and [YYYY-MM-DD?HH:MM:SS±HH:MM] with ASCII
    digits, the separator [?] being [T] or a space, and every field in
    range.  Any other text is left to [rt_fromisoformat]. *)

Definition digit (c : codepoint) : option Z :=
  if in_range 48 57 c then Some (Z.of_N c - 48)%Z else None.

Definition num2 (a b : codepoint) : option Z :=
  match digit a, digit b with
  | Some x, Some y => Some (10 * x + y)%Z
  | _, _ => None
  end.

Definition num4 (a b c d : codepoint) : option Z :=
  match num2 a b, num2 c d with
  | Some x, Some y => Some (100 * x + y)%Z
  | _, _ => None
  end.

Definition iso_date (s : pystr) : option (Z * Z * Z * pystr) :=
  match s with
  | y1 :: y2 :: y3 :: y4 :: h1 :: m1 :: m2 :: h2 :: d1 :: d2 :: rest =>
      match num4 y1 y2 y3 y4, num2 m1 m2, num2 d1 d2 with
      | Some y, Some m, Some d =>
          if ((h1 =? chr "-")%N && (h2 =? chr "-")%N
              && (1 <=? y) && (1 <=? m) && (m <=? 12)
              && (1 <=? d) && (d <=? days_in_month y m))%Z
          then Some (y, m, d, rest) else None
      | _, _, _ => None
      end
  | _ => None
  end.

Definition iso_time (s : pystr) : option (Z * Z * Z * pystr) :=
  match s with
  | h1 :: h2 :: c1 :: m1 :: m2 :: c2 :: s1 :: s2 :: rest =>
      match num2 h1 h2, num2 m1 m2, num2 s1 s2 with
      | Some h, Some m, Some sec =>
          if ((c1 =? chr ":")%N && (c2 =? chr ":")%N
              && (h <=? 23) && (m <=? 59) && (sec <=? 59))%Z
          then Some (h, m, sec, rest) else None
      | _, _, _ => None
      end
  | _ => None
  end.

(** The UTC offset [±HH:MM] in seconds. *)
Definition iso_offset (s : pystr) : option Z :=
  match s with
  | [sg; h1; h2; c; m1; m2] =>
      match num2 h1 h2, num2 m1 m2 with
      | Some h, Some m =>
          if ((c =? chr ":")%N && (h <=? 23) && (m <=? 59))%Z then
            if (sg =? chr "+")%N then Some (h * 3600 + m * 60)%Z
            else if (sg =? chr "-")%N then Some (- (h * 3600 + m * 60))%Z
            else None
          else None
      | _, _ => None
      end
  | _ => None
  end.

Definition iso_fragment (s : pystr) : option datetime :=
  match iso_date s with
  | Some (y, m, d, rest) =>
      match rest with
      | [] => Some (Build_datetime y m d 0 0 0 0 None)
      | sep :: rest' =>
          if ((sep =? chr "T") || (sep =? chr " "))%N then
            match iso_time rest' with
            | Some (h, mi, sec, []) => Some (Build_datetime y m d h mi sec 0 None)
            | Some (h, mi, sec, tz) =>
                match iso_offset tz with
                | Some off => Some (Build_datetime y m d h mi sec 0 (Some off))
                | None => None
                end
            | None => None
            end
          else None
      end
  | None => None
  end.

(** [int(f)] for a float: truncation towards zero. *)
Definition int_of_float (f : spec_float) : outcome Z :=
  match f with
  | S754_zero _ => Ret 0%Z
  | S754_infinity _ => Raise OverflowError
  | S754_nan => Raise ValueError
  | S754_finite neg m e =>
      let a := Z.shiftl (Zpos m) e in
      Ret (if neg then (- a)%Z else a)
  end.

(** ** The validated record

    The dict built by step 1 and updated by steps 2 to 7.  The keys
    [_flags] and the three counts are absent ([None]) until a step
    stores them. *)
Record article := {
  article_id : pystr;
  title : option pystr;
  body_text : pystr;
  source : pystr;
  domain : pystr;
  category : list pystr;
  pub_datetime : option Z;
  url : pystr;
  flags : option (list pystr);
  character_count : option nat;
  token_count : option nat;
  sentence_count : option nat
}.

Definition set_body_text (a : article) (t : pystr) : article :=
  {| article_id := article_id a; title := title a; body_text := t;
     source := source a; domain := domain a; category := category a;
     pub_datetime := pub_datetime a; url := url a; flags := flags a;
     character_count := character_count a; token_count := token_count a;
     sentence_count := sentence_count a |}.

Definition set_title (a : article) (t : pystr) : article :=
  {| article_id := article_id a; title := Some t; body_text := body_text a;
     source := source a; domain := domain a; category := category a;
     pub_datetime := pub_datetime a; url := url a; flags := flags a;
     character_count := character_count a; token_count := token_count a;
     sentence_count := sentence_count a |}.

Definition set_flags (a : article) (f : list pystr) : article :=
  {| article_id := article_id a; title := title a; body_text := body_text a;
     source := source a; domain := domain a; category := category a;
     pub_datetime := pub_datetime a; url := url a; flags := Some f;
     character_count := character_count a; token_count := token_count a;
     sentence_count := sentence_count a |}.

Definition set_counts (a : article) (c t s : nat) : article :=
  {| article_id := article_id a; title := title a; body_text := body_text a;
     source := source a; domain := domain a; category := category a;
     pub_datetime := pub_datetime a; url := url a; flags := flags a;
     character_count := Some c; token_count := Some t;
     sentence_count := Some s |}.

Definition nonempty (s : pystr) : bool :=
  match s with [] => false | _ => true end.

(** ** Step 1: [validate_and_enforce_schema] *)

Section Validator.
Variable rt : Runtime.

(** [datetime.fromisoformat(s)] *)
Definition fromisoformat (s : pystr) : outcome datetime :=
  match iso_fragment s with
  | Some d => Ret d
  | None => rt_fromisoformat rt s
  end.

(** [int(dt.timestamp())].  An aware value with whole seconds is
    [(dt - epoch).total_seconds()], an integer a float holds exactly. *)
Definition int_timestamp (d : datetime) : outcome Z :=
  match dt_utcoffset d with
  | Some off =>
      if (dt_microsecond d =? 0)%Z then Ret (aware_seconds d off)
      else rt_timestamp rt d
  | None => rt_timestamp rt d
  end.

(** The [for fmt in [...]: try ... break / except: continue / else:
    dt = None] loop. *)
Fixpoint try_formats (s : pystr) (fmts : list date_format) : option datetime :=
  match fmts with
  | [] => None
  | fmt :: rest =>
      match rt_strptime rt s fmt with
      | Ret d => Some d
      | Raise _ => try_formats s rest
      end
  end.

(** Lines 63 to 83: the publish date. *)
Definition parse_pub_date (pub_date : pyval) : outcome (option Z) :=
  if truthy pub_date then
    try_except
      (match pub_date with
       | VStr s =>
           dt <- try_except
                   (d <- fromisoformat (replace_char (chr "Z") (lit "+00:00") s) ;;
                    Ret (Some d))
                   (Ret (try_formats s [Fmt_date_space_time; Fmt_date_T_time; Fmt_date])) ;;
           match dt with
           | Some d => ts <- int_timestamp d ;; Ret (Some ts)
           | None => Ret None
           end
       | VInt z => Ret (Some z)
       | VBool b => Ret (Some (if b then 1 else 0)%Z)
       | VFloat f => z <- int_of_float f ;; Ret (Some z)
       | _ => Ret None
       end)
      (Ret None)
  else Ret None.

(** [[part for part in parts if part and part.strip()]] *)
Fixpoint kept_parts (parts : list pyval) : outcome (list pyval) :=
  match parts with
  | [] => Ret []
  | part :: rest =>
      keep <- (if truthy part
               then s <- method_strip part ;; Ret (nonempty s)
               else Ret false) ;;
      tl <- kept_parts rest ;;
      Ret (if keep then part :: tl else tl)
  end.

(** [' '.join(parts)]: every item must be a [str]. *)
Fixpoint strs_of (parts : list pyval) : outcome (list pystr) :=
  match parts with
  | [] => Ret []
  | VStr s :: rest => tl <- strs_of rest ;; Ret (s :: tl)
  | _ :: _ => Raise TypeError
  end.

Definition or_empty (v : pyval) : pyval := if truthy v then v else VStr [].

(** [article.get('pubDate') or article.get('pub_date', '')] *)
Definition pub_date_of (raw : pyval) : outcome pyval :=
  p0 <- get raw "pubDate" VNone ;;
  or_else p0 (get raw "pub_date" (VStr [])).

(** Lines 33 and 34: the title, [None] when the source value is falsy. *)
Definition title_of (raw : pyval) : outcome (option pystr) :=
  t0 <- get raw "title" VNone ;;
  t1 <- or_else t0 (get raw "headline" (VStr [])) ;;
  Ret (if truthy t1 then Some (strip (py_str rt t1)) else None).

(** Lines 36 to 42: the body assembled from the title, the description
    and the content, the content dropped when it holds the paywall
    marker. *)
Definition body_text_of (raw : pyval) (title : option pystr) : outcome pystr :=
  d0 <- get raw "description" (VStr []) ;;
  let description := or_empty d0 in
  c0 <- get raw "content" (VStr []) ;;
  let content0 := or_empty c0 in
  content <- (if truthy content0 then
                up <- method_upper rt content0 ;;
                Ret (if contains (lit "ONLY AVAILABLE") up then VStr [] else content0)
              else Ret content0) ;;
  let body_text_parts :=
    [VStr (match title with Some t => t | None => [] end); description; content] in
  kept <- kept_parts body_text_parts ;;
  strs <- strs_of kept ;;
  Ret (join (lit " ") strs).

(** The body text step 1 assembles for a raw record. *)
Definition assembled_body (raw : pyval) : outcome pystr :=
  title <- title_of raw ;;
  body_text_of raw title.

(** The body of the [try] block, lines 31 to 99. *)
Definition validate_body (raw : pyval) (article_idx : Z)
  : outcome (option article) :=
  aid <- get raw "article_id" VNone ;;
  let article_id :=
    if truthy aid then aid else VStr (lit "article_" ++ format_04d article_idx) in
  title <- title_of raw ;;
  body_text <- body_text_of raw title ;;
  s0 <- get raw "source_name" VNone ;;
  s1 <- or_else s0 (get raw "source_id" (VStr [])) ;;
  let source := strip (py_str rt (or_empty s1)) in
  u0 <- get raw "link" VNone ;;
  u1 <- or_else u0 (get raw "url" (VStr [])) ;;
  let url := strip (py_str rt (or_empty u1)) in
  domain <- (if nonempty url then try_except (rt_netloc rt url) (Ret [])
             else Ret []) ;;
  cat0 <- get raw "category" (VList []) ;;
  let cats :=
    match cat0 with
    | VList l => l
    | _ => if truthy cat0 then [cat0] else []
    end in
  let category := map (fun c => strip (py_str rt c)) (filter truthy cats) in
  pub_date <- pub_date_of raw ;;
  pub_datetime <- parse_pub_date pub_date ;;
  if negb (nonempty body_text) || (len (strip body_text) <? 10)%Z then Ret None
  else Ret (Some {| article_id := py_str rt article_id;
                    title := title;
                    body_text := body_text;
                    source := source;
                    domain := domain;
                    category := category;
                    pub_datetime := pub_datetime;
                    url := url;
                    flags := None;
                    character_count := None;
                    token_count := None;
                    sentence_count := None |}).

(** [try: ... except Exception as e: return None] *)
Definition validate_and_enforce_schema (raw : pyval) (article_idx : Z)
  : outcome (option article) :=
  try_except_Exception (validate_body raw article_idx) (Ret None).

End Validator.

(** ** Steps 2 to 5: text transforms *)

Definition is_punct (c : codepoint) : bool :=
  ((c =? chr ".") || (c =? chr ",") || (c =? chr "!") || (c =? chr "?")
   || (c =? chr ";") || (c =? chr ":"))%N.

(** Patterns [\.\s{2,}], [!\s{2,}] and [\?\s{2,}], [mark] being the
    leading character. *)
Definition m_mark_spaces (mark : codepoint) (_ : option codepoint) (s : pystr)
  : option nat :=
  match s with
  | c :: r =>
      if (c =? mark)%N then
        let k := span isspace r in
        if (2 <=? k)%nat then Some (S k) else None
      else None
  | [] => None
  end.

(** [([.,!?;:])+\s+]: a run of punctuation, then blanks, both non-empty
    and both as long as possible (the classes are disjoint). *)
Definition punct_then_spaces (s : pystr) : option nat :=
  let k2 := span is_punct s in
  let k3 := span isspace (skipn k2 s) in
  match k2, k3 with
  | S _, S _ => Some (k2 + k3)
  | _, _ => None
  end.

(** Pattern [\s+([.,!?;:])+\s+]. *)
Definition m_orphan (_ : option codepoint) (s : pystr) : option nat :=
  match span isspace s with
  | O => None
  | k1 => option_map (fun k => k1 + k) (punct_then_spaces (skipn k1 s))
  end.

(** Pattern [^\s*([.,!?;:])+\s+]: tried at the start of the text only. *)
Definition m_leading (prev : option codepoint) (s : pystr) : option nat :=
  match prev with
  | Some _ => None
  | None =>
      let k1 := span isspace s in
      option_map (fun k => k1 + k) (punct_then_spaces (skipn k1 s))
  end.

(** Pattern [([.!?])([a-z])]. *)
Definition m_break (_ : option codepoint) (s : pystr) : option nat :=
  match s with
  | a :: b :: _ => if is_bang a && in_range 97 122 b then Some 2 else None
  | _ => None
  end.

(** Replacement [\1 \2] for [([.!?])([a-z])]. *)
Definition spaced (m : pystr) : pystr :=
  match m with
  | [a; b] => [a; chr " "; b]
  | _ => m
  end.

(** The first argument of the [replace] call of line 146, as the parser
    reads it: the fifteen characters [, "'").replace(]. *)
Definition line146_old : pystr :=
  [44; 32; 34; 39; 34; 41; 46; 114; 101; 112; 108; 97; 99; 101; 40]%N.

(** [s.replace(old, new)] for a non-empty [old]: occurrences are found
    from the left and do not overlap. *)
Definition str_replace (old new : pystr) (s : pystr) : pystr :=
  re_sub (fun _ r => if starts_with old r then Some (List.length old) else None)
         (fun _ => new) s.

Section Steps.
Variable rt : Runtime.

(** Step 2 *)
Definition sanitize_text (text : pystr) : pystr :=
  if negb (nonempty text) then []
  else
    let text := html_unescape rt text in
    let text := re_sub m_tag (fun _ => []) text in
    let text := re_sub m_url (fun _ => []) text in
    let text := filter (fun c => printable c || isspace c) text in
    let text := re_sub m_spaces (fun _ => lit " ") text in
    let text := re_sub m_bangs last_char text in
    strip text.

(** Step 3.  Line 147 replaces the double quote by itself, twice; line
    148 maps U+2014 and U+2013 to a hyphen. *)
Definition normalize_unicode_and_case (text : pystr) : pystr :=
  if negb (nonempty text) then []
  else
    let text := nfkc rt text in
    let text := str_lower rt text in
    let text := str_replace line146_old [39%N] text in
    let text := replace_char 34%N [34%N] (replace_char 34%N [34%N] text) in
    let text := replace_char 8211%N (lit "-") (replace_char 8212%N (lit "-") text) in
    text.

(** Step 4 *)
Definition normalize_sentence_boundaries (text : pystr) : pystr :=
  if negb (nonempty text) then []
  else
    let text := re_sub (m_mark_spaces (chr ".")) (fun _ => lit ". ") text in
    let text := re_sub (m_mark_spaces (chr "!")) (fun _ => lit "! ") text in
    let text := re_sub (m_mark_spaces (chr "?")) (fun _ => lit "? ") text in
    let text := re_sub m_orphan (fun _ => lit " ") text in
    let text := re_sub m_leading (fun _ => []) text in
    let text := re_sub m_break spaced text in
    strip text.

(** [\d]: a decimal digit. *)
Definition is_digit (c : codepoint) : bool :=
  if is_ascii c then in_range 48 57 c else rt_isdecimal rt c.

(** [\w]: alphanumeric or underscore (a decimal digit is alphanumeric). *)
Definition is_word (c : codepoint) : bool :=
  if is_ascii c
  then in_range 48 57 c || in_range 65 90 c || in_range 97 122 c || (c =? 95)%N
  else rt_isalnum rt c || rt_isdecimal rt c.

Definition at_boundary (o : option codepoint) : bool :=
  match o with
  | None => true
  | Some c => negb (is_word c)
  end.

(** Pattern [\b\d+\b]: the longest run of digits, with no word
    character just before or just after it. *)
Definition m_number (prev : option codepoint) (s : pystr) : option nat :=
  if at_boundary prev then
    match span is_digit s with
    | O => None
    | k => if at_boundary (hd_error (skipn k s)) then Some k else None
    end
  else None.

(** Step 5 *)
Definition normalize_numbers (text : pystr) (enabled : bool) : pystr :=
  if negb enabled || negb (nonempty text) then text
  else re_sub m_number (fun _ => lit "<NUM>") text.

End Steps.

(** ** Step 6: [perform_linguistic_checks] *)

Definition flags_or_empty (a : article) : list pystr :=
  match flags a with
  | Some f => f
  | None => []
  end.

Definition perform_linguistic_checks (a : article) (min_length max_length : Z)
  : option article :=
  let body := body_text a in
  if negb (nonempty body) then None
  else
    let char_count := len body in
    if (char_count <? min_length)%Z then None
    else
      let a := if (char_count >? max_length)%Z
               then set_flags a (flags_or_empty a ++ [lit "extremely_long"])
               else a in
      let a := if (char_count <? 100)%Z
               then set_flags a (flags_or_empty a ++ [lit "very_short"])
               else a in
      Some a.

(** ** Step 7: [add_derived_statistics] *)

(** [re.split(r'[.!?]+', s)]: the pieces between the runs of marks,
    empty pieces included.  [in_run] says that the previous character
    belonged to a run; [cur] is the piece being read, reversed. *)
Fixpoint re_split_from (in_run : bool) (cur : pystr) (s : pystr) : list pystr :=
  match s with
  | [] => [rev cur]
  | c :: s' =>
      if is_bang c then
        if in_run then re_split_from true cur s'
        else rev cur :: re_split_from true [] s'
      else re_split_from false (c :: cur) s'
  end.

Definition re_split_marks (s : pystr) : list pystr := re_split_from false [] s.

Definition add_derived_statistics (a : article) : article :=
  let body := body_text a in
  let character_count := List.length body in
  let tokens := split_ws body in
  let token_count := List.length tokens in
  let sentences := re_split_marks body in
  let sentence_count :=
    List.length (filter (fun s => nonempty (strip s)) sentences) in
  set_counts a character_count token_count sentence_count.

(** ** The batch driver: [process_articles] *)

Section Driver.
Variable rt : Runtime.
Variable normalize_numbers_flag : bool.
Variables min_length max_length : Z.

(** Lines 280 to 300: the unconditional transforms of one validated
    record, each result stored back into the record. *)
Definition normalise_record (validated : article) : article :=
  let body := body_text validated in
  let ttl := match title validated with Some t => t | None => [] end in
  let body := sanitize_text rt body in
  let '(ttl, validated) :=
    if nonempty ttl
    then let t := sanitize_text rt ttl in (t, set_title validated t)
    else (ttl, validated) in
  let validated := set_body_text validated body in
  let body := normalize_unicode_and_case rt body in
  let '(ttl, validated) :=
    if nonempty ttl
    then let t := normalize_unicode_and_case rt ttl in (t, set_title validated t)
    else (ttl, validated) in
  let validated := set_body_text validated body in
  let body := normalize_sentence_boundaries body in
  let validated := set_body_text validated body in
  let body := normalize_numbers rt body normalize_numbers_flag in
  let validated := set_body_text validated body in
  validated.

(** One iteration of the loop: [None] where the code says [continue]. *)
Definition process_record (raw : pyval) (idx : nat) : outcome (option article) :=
  v <- validate_and_enforce_schema rt raw (Z.of_nat idx) ;;
  match v with
  | None => Ret None
  | Some validated =>
      match perform_linguistic_checks (normalise_record validated)
                                      min_length max_length with
      | None => Ret None
      | Some checked => Ret (Some (add_derived_statistics checked))
      end
  end.

(** [for idx, article in enumerate(raw_articles)], [cleaned] being the
    list the loop appends to. *)
Fixpoint process_loop (idx : nat) (raws : list pyval) (cleaned : list article)
  : outcome (list article) :=
  match raws with
  | [] => Ret cleaned
  | raw :: rest =>
      r <- process_record raw idx ;;
      process_loop (S idx) rest
        (match r with
         | Some a => cleaned ++ [a]
         | None => cleaned
         end)
  end.

Definition process_articles (raw_articles : list pyval) : outcome (list article) :=
  process_loop 0 raw_articles [].

End Driver.

(** ** A runtime for closed examples

    The general theorems hold for every runtime.  Closed examples need
    one: this one answers as CPython does on the non-ASCII texts this
    file evaluates, a J or j followed by U+030C (combining caron), where
    lower-casing keeps the caron and NFKC composes the lower-case pair
    into U+01F0 but leaves the upper-case pair alone.  Its other answers
    are placeholders that no statement below depends on. *)
Definition j_caron_upper : pystr := [74; 780]%N.
Definition j_caron_lower : pystr := [106; 780]%N.

Definition sample_runtime : Runtime := {|
  rt_repr := fun _ => [];
  rt_upper := fun s => s;
  rt_lower := fun s => if str_eqb s j_caron_upper then j_caron_lower else s;
  rt_nfkc := fun s => if str_eqb s j_caron_lower then [496%N] else s;
  rt_charref := fun s => s;
  rt_netloc := fun _ => Raise ValueError;
  rt_fromisoformat := fun _ => Raise ValueError;
  rt_strptime := fun _ _ => Raise ValueError;
  rt_timestamp := fun _ => Raise OverflowError;
  rt_isdecimal := fun _ => false;
  rt_isalnum := fun _ => false
|}.

(** Scenario 1 of the specification. *)
Definition scenario1_raw : pyval :=
  VDict [ (lit "title", VStr (lit "Big <b>Win</b>!!!"));
          (lit "description", VStr (lit "See http://x.co now"));
          (lit "content", VStr (lit "ONLY AVAILABLE in paid plan")) ].

(** Scenario 4 of the specification, with a title so that the record
    is accepted. *)
Definition scenario4_raw : pyval :=
  VDict [ (lit "title", VStr (lit "Quarterly results announced"));
          (lit "pubDate", VStr (lit "2024-05-01T10:00:00Z")) ].

(** [re.search(pattern, s)]: does the pattern match somewhere? *)
Fixpoint re_search_from (match_at : option codepoint -> pystr -> option nat)
         (prev : option codepoint) (s : pystr) : bool :=
  match match_at prev s with
  | Some _ => true
  | None =>
      match s with
      | [] => false
      | c :: s' => re_search_from match_at (Some c) s'
      end
  end.

Definition re_search match_at (s : pystr) : bool := re_search_from match_at None s.

Definition starts_with_punct (s : pystr) : bool :=
  match s with
  | c :: _ => is_punct c
  | [] => false
  end.

(** ** Predicates used in the statements and their proofs *)

(** A computation that raises nothing but subclasses of [Exception]. *)
Definition only_Exception {A} (m : outcome A) : Prop :=
  match m with
  | Ret _ => True
  | Raise e => is_Exception e = true
  end.

(** The survivor produced from position [j] of the batch that starts
    at index [idx]. *)
Definition produced_at rt flag (min_length max_length : Z)
           (idx : nat) (raws : list pyval) (j : nat) (a : article) : Prop :=
  exists raw,
    nth_error raws j = Some raw
    /\ process_record rt flag min_length max_length raw (idx + j) = Ret (Some a).

(** An article that already carries a flag when it reaches the gate. *)
Definition flagged_article : article :=
  {| article_id := lit "article_0000"; title := None;
     body_text := lit "a short body text";
     source := []; domain := []; category := []; pub_datetime := None; url := [];
     flags := Some [lit "imported"];
     character_count := None; token_count := None; sentence_count := None |}.

(** A record whose assembled body has eight characters. *)
Definition short_raw : pyval := VDict [ (lit "title", VStr (lit "Too tiny")) ].

(** A record whose raw text is long enough but whose cleaned text is
    not. *)
Definition link_only_raw : pyval :=
  VDict [ (lit "description", VStr (lit "Read more: https://example.com/a")) ].

(** No character of [s] is [c]. *)
Definition lacks (c : codepoint) (s : pystr) : bool :=
  forallb (fun x => negb (x =? c)%N) s.

(** [s] is empty or starts with a character outside [p]. *)
Definition head_fails (p : codepoint -> bool) (s : pystr) : bool :=
  match s with
  | [] => true
  | c :: _ => negb (p c)
  end.

(** [s] is empty or starts with a character that is neither blank nor
    punctuation. *)
Definition head_plain (s : pystr) : bool :=
  match s with
  | [] => true
  | c :: _ => negb (isspace c) && negb (is_punct c)
  end.

(** The pattern [m] matches at no position of [p] in [p ++ s]. *)
Fixpoint fails_along (m : option codepoint -> pystr -> option nat) (p s : pystr) : Prop :=
  match p with
  | [] => True
  | _ :: p' => m None (p ++ s) = None /\ fails_along m p' s
  end.

(** The two angle brackets. *)
Definition is_angle (c : codepoint) : bool := ((c =? chr "<") || (c =? chr ">"))%N.

Definition closes_at_once (s : pystr) : bool :=
  match s with
  | d :: _ => (d =? chr ">")%N
  | [] => false
  end.

(** What may follow a [<] that opens no tag. *)
Definition ok_after (s : pystr) : bool := closes_at_once s || lacks (chr ">") s.

Fixpoint tag_free (t : pystr) : bool :=
  match t with
  | [] => true
  | c :: s => (negb (c =? chr "<")%N || ok_after s) && tag_free s
  end.

Definition not_gt (x : codepoint) : bool := negb (x =? chr ">")%N.

(** [edit t t']: [t'] is [t] with some characters other than [<] and
    [>] dropped or exchanged for characters other than [<] and [>]. *)
Inductive edit : pystr -> pystr -> Prop :=
| edit_nil : edit [] []
| edit_keep c t t' : edit t t' -> edit (c :: t) (c :: t')
| edit_drop c t t' : is_angle c = false -> edit t t' -> edit (c :: t) t'
| edit_swap c c' t t' :
    is_angle c = false -> is_angle c' = false -> edit t t' ->
    edit (c :: t) (c' :: t').

(** ** Steps 2, 6 and 8: the names of the output files

    The three places that write a file first look for a name that is
    not in use: [save_raw_response], [save_cleaned_articles] and step 6
    of [main].  Each is a [while True] loop over a counter; here the
    loop runs for at most [fuel] rounds.  [os.path.exists] is a
    predicate on paths that does not change while the loop runs. *)

(** [f"{n:02d}"]: zero-padded to a width of two, the sign included. *)
Definition format_02d (n : Z) : pystr :=
  let d := decimal (Z.to_N (Z.abs n)) in
  if (n <? 0)%Z then chr "-" :: repeat 48%N (1 - List.length d) ++ d
  else repeat 48%N (2 - List.length d) ++ d.

(** [s.endswith(suffix)] *)
Definition ends_with (suffix s : pystr) : bool :=
  starts_with (rev suffix) (rev s).

(** [os.path.join(a, b)] of [posixpath] *)
Definition path_join (a b : pystr) : pystr :=
  if starts_with (lit "/") b then b
  else if negb (nonempty a) || ends_with (lit "/") a then a ++ b
  else a ++ lit "/" ++ b.

Section Storage.
Variable path_exists : pystr -> bool.

(** [save_raw_response], line 34: the file name tried for a counter. *)
Definition raw_filename (prefix date_str : pystr) (counter : Z) : pystr :=
  prefix ++ lit "_" ++ date_str ++ lit "_" ++ format_02d counter ++ lit ".json".

(** [save_raw_response], lines 33 to 38: the [file_path] the loop
    leaves with. *)
Fixpoint save_raw_response_path (output_dir prefix date_str : pystr)
  (fuel : nat) (counter : Z) : option pystr :=
  match fuel with
  | O => None
  | S fuel' =>
      let filename := raw_filename prefix date_str counter in
      let file_path := path_join output_dir filename in
      if negb (path_exists file_path) then Some file_path
      else save_raw_response_path output_dir prefix date_str fuel' (counter + 1)
  end.

(** [save_cleaned_articles], line 331 *)
Definition cleaned_filename (date_str : pystr) (counter : Z) : pystr :=
  lit "clean_" ++ date_str ++ lit "_" ++ format_02d counter ++ lit ".json".

(** [save_cleaned_articles], lines 330 to 335 *)
Fixpoint save_cleaned_articles_path (output_dir date_str : pystr)
  (fuel : nat) (counter : Z) : option pystr :=
  match fuel with
  | O => None
  | S fuel' =>
      let filename := cleaned_filename date_str counter in
      let file_path := path_join output_dir filename in
      if negb (path_exists file_path) then Some file_path
      else save_cleaned_articles_path output_dir date_str fuel' (counter + 1)
  end.

(** [main], lines 112 and 113: the path tried for a counter, without
    its extension. *)
Definition output_candidate (output_data_dir date_str : pystr) (counter : Z) : pystr :=
  path_join output_data_dir (lit "data_" ++ date_str ++ lit "_" ++ format_02d counter).

(** [any(os.path.exists(f"{output_path}.{ext}") for ext in [...])] *)
Definition any_format_exists (output_path : pystr) : bool :=
  existsb (fun ext => path_exists (output_path ++ lit "." ++ ext))
          [lit "parquet"; lit "csv"; lit "jsonl"].

(** [main], lines 111 to 116: the [output_path] the loop leaves with. *)
Fixpoint main_output_path (output_data_dir date_str : pystr)
  (fuel : nat) (counter : Z) : option pystr :=
  match fuel with
  | O => None
  | S fuel' =>
      let output_path := output_candidate output_data_dir date_str counter in
      if negb (any_format_exists output_path) then Some output_path
      else main_output_path output_data_dir date_str fuel' (counter + 1)
  end.

End Storage.

(** [create_final_dataset], lines 37 to 55: the path the DataFrame is
    written to, [None] when the format is none of the three (the
    [ValueError] of line 55). *)
Definition dataset_file_path (rt : Runtime) (format output_path : pystr)
  : option pystr :=
  let with_ext ext :=
    if negb (ends_with ext output_path) then output_path ++ ext else output_path in
  if str_eqb (str_lower rt format) (lit "parquet") then Some (with_ext (lit ".parquet"))
  else if str_eqb (str_lower rt format) (lit "csv") then Some (with_ext (lit ".csv"))
  else if str_eqb (str_lower rt format) (lit "jsonl") then Some (with_ext (lit ".jsonl"))
  else None.

(** The loops of the storage steps, seen from outside: [c] is the
    first counter from 1 on whose name is not taken. *)
Definition first_free (taken : Z -> bool) (c : Z) : Prop :=
  (1 <= c)%Z /\ taken c = false
  /\ forall k, (1 <= k < c)%Z -> taken k = true.

(** ** Structured features: [feature_extraction.py]

    The step of [main] that follows cleaning reads the dicts
    [process_articles] returned.  A [datetime] object is no value of
    [pyval], so the branch [isinstance(pub_date, datetime)] of
    [extract_features] is never taken here. *)

(** The value stored under [pub_datetime]: the article's own value left
    as it is, or a [datetime] object. *)
Inductive date_value :=
| AsGiven (v : pyval)
| Parsed (d : datetime).

(** The dict [extract_features] returns. *)
Record features := {
  feat_token_count : nat;
  feat_sentence_count : nat;
  feat_pub_datetime : date_value;
  feat_source_category : pyval;
  feat_domain : pystr;
  feat_category_tag : pyval
}.

Record FeatureRuntime := {
  (** [datetime.fromtimestamp(x)] for an [int], [bool] or [float] *)
  fr_fromtimestamp : pyval -> outcome datetime;
  (** [netloc] and [path] of [urlparse(url)] for [url] outside
      [url_fragment] *)
  fr_urlparse : pystr -> outcome (pystr * pystr)
}.

(** [urlparse] on the shape [http://host] or [https://host] followed by
    nothing or by a path that starts with a slash, the host made of
    lower-case letters, digits, dots and hyphens, the path of letters,
    digits, dots, hyphens, underscores and slashes: [netloc] is the
    host and [path] the rest. *)
Definition is_host_char (c : codepoint) : bool :=
  (in_range 97 122 c || in_range 48 57 c || (c =? chr ".") || (c =? chr "-"))%N.

Definition is_path_char (c : codepoint) : bool :=
  (is_host_char c || in_range 65 90 c || (c =? chr "/") || (c =? chr "_"))%N.

Definition after_scheme (u : pystr) : option pystr :=
  if starts_with (lit "https://") u then Some (skipn 8 u)
  else if starts_with (lit "http://") u then Some (skipn 7 u)
  else None.

Definition url_fragment (u : pystr) : option (pystr * pystr) :=
  match after_scheme u with
  | Some rest =>
      let n := span is_host_char rest in
      let host := firstn n rest in
      let path := skipn n rest in
      if nonempty host
         && match path with [] => true | c :: _ => (c =? chr "/")%N end
         && forallb is_path_char path
      then Some (host, path) else None
  | None => None
  end.

(** [s.split('/')[0]] *)
Fixpoint before_slash (s : pystr) : pystr :=
  match s with
  | [] => []
  | c :: s' => if (c =? chr "/")%N then [] else c :: before_slash s'
  end.

Section Features.
Variable rt : Runtime.
Variable fr : FeatureRuntime.

Definition urlparse (u : pystr) : outcome (pystr * pystr) :=
  match url_fragment u with
  | Some r => Ret r
  | None => fr_urlparse fr u
  end.

(** Lines 31 to 51: the publish date. *)
Definition feature_pub_datetime (article : pyval) : outcome date_value :=
  pub_datetime <- get article "pub_datetime" VNone ;;
  match pub_datetime with
  | VNone =>
      pub_date <- get article "pub_date" VNone ;;
      if truthy pub_date then
        try_except
          (match pub_date with
           | VStr s =>
               try_except
                 (d <- fromisoformat rt (replace_char (chr "Z") (lit "+00:00") s) ;;
                  Ret (Parsed d))
                 (Ret (match try_formats rt s
                               [Fmt_date_space_time; Fmt_date_T_time; Fmt_date] with
                       | Some d => Parsed d
                       | None => AsGiven VNone
                       end))
           | _ => Ret (AsGiven VNone)
           end)
          (Ret (AsGiven VNone))
      else Ret (AsGiven VNone)
  | VInt _ | VBool _ | VFloat _ =>
      d <- fr_fromtimestamp fr pub_datetime ;; Ret (Parsed d)
  | _ => Ret (AsGiven pub_datetime)
  end.

(** Lines 53 to 60: the domain.  Line 58 reads
    [(netloc or path.split('/')[0]) if path else '']. *)
Definition feature_domain (article : pyval) : outcome pystr :=
  url <- get article "url" (VStr []) ;;
  if truthy url then
    match url with
    | VStr u =>
        try_except
          (parsed <- urlparse u ;;
           let (netloc, path) := parsed in
           Ret (if nonempty path
                then (if nonempty netloc then netloc else before_slash path)
                else []))
          (Ret [])
    | _ => Ret []   (* [urlparse] raises on a value that is no [str] *)
    end
  else Ret [].

(** Lines 64 to 68 *)
Definition feature_category_tag (article : pyval) : outcome pyval :=
  category <- get article "category" (VList []) ;;
  Ret (match category with
       | VList (c :: _) => c
       | VList [] => VStr []
       | _ => if truthy category then VStr (py_str rt category) else VStr []
       end).

(** [article.get('body_text', article.get('cleaned_text', ''))] *)
Definition cleaned_text_of (article : pyval) : outcome pyval :=
  default <- get article "cleaned_text" (VStr []) ;;
  get article "body_text" default.

Definition extract_features (article : pyval) : outcome features :=
  cleaned_text <- cleaned_text_of article ;;
  text <- (match cleaned_text with
           | VStr s => Ret s
           | _ => Raise AttributeError   (* no [split] method *)
           end) ;;
  let tokens := split_ws text in
  let token_count := List.length tokens in
  let sentences := re_split_marks text in
  let sentence_count :=
    List.length (filter (fun s => nonempty (strip s)) sentences) in
  pub_datetime <- feature_pub_datetime article ;;
  domain <- feature_domain article ;;
  source <- get article "source" (VStr []) ;;
  category_tag <- feature_category_tag article ;;
  Ret {| feat_token_count := token_count;
         feat_sentence_count := sentence_count;
         feat_pub_datetime := pub_datetime;
         feat_source_category := source;
         feat_domain := domain;
         feat_category_tag := category_tag |}.

(** One row of the DataFrame. *)
Record row := {
  row_article_id : pyval;
  row_title : pyval;
  row_description : pyval;
  row_cleaned_text : pyval;
  row_source : pyval;
  row_url : pyval;
  row_pub_date : pyval;
  row_category : pyval;
  row_token_count : pyval;
  row_sentence_count : pyval;
  row_pub_datetime : date_value;
  row_domain : pystr;
  row_category_tag : pyval;
  row_character_count : option pyval
}.

(** [article[key] if key in article else default] *)
Definition own_or (article : pyval) (key : string) (default : pyval) : pyval :=
  match article with
  | VDict d => match lookup (lit key) d with Some x => x | None => default end
  | _ => default
  end.

(** [article[key]] when [key in article] *)
Definition own (article : pyval) (key : string) : option pyval :=
  match article with
  | VDict d => lookup (lit key) d
  | _ => None
  end.

(** Lines 95 to 121: the row of one article. *)
Definition features_row (idx : nat) (article : pyval) : outcome row :=
  features <- extract_features article ;;
  article_id <- get article "article_id"
                    (VStr (lit "article_" ++ format_04d (Z.of_nat idx + 1))) ;;
  body_text <- cleaned_text_of article ;;
  title <- get article "title" (VStr []) ;;
  description <- get article "description" (VStr []) ;;
  source <- get article "source" (VStr []) ;;
  url <- get article "url" (VStr []) ;;
  pub_date <- get article "pub_date" (VStr []) ;;
  category <- get article "category" (VList []) ;;
  Ret {| row_article_id := article_id;
         row_title := title;
         row_description := description;
         row_cleaned_text := body_text;
         row_source := source;
         row_url := url;
         row_pub_date := pub_date;
         row_category := category;
         row_token_count :=
           own_or article "token_count" (VInt (Z.of_nat (feat_token_count features)));
         row_sentence_count :=
           own_or article "sentence_count"
                  (VInt (Z.of_nat (feat_sentence_count features)));
         row_pub_datetime := feat_pub_datetime features;
         row_domain := feat_domain features;
         row_category_tag := feat_category_tag features;
         row_character_count := own article "character_count" |}.

(** The loop of [create_features_dataframe]. *)
Fixpoint rows_from (idx : nat) (cleaned_articles : list pyval) : outcome (list row) :=
  match cleaned_articles with
  | [] => Ret []
  | article :: rest =>
      r <- features_row idx article ;;
      rows <- rows_from (S idx) rest ;;
      Ret (r :: rows)
  end.

(** The DataFrame is given by its rows, in order. *)
Definition create_features_dataframe (cleaned_articles : list pyval)
  : outcome (list row) :=
  rows_from 0 cleaned_articles.

End Features.

Definition count_item (key : string) (o : option nat) : list (pystr * pyval) :=
  match o with
  | Some n => [(lit key, VInt (Z.of_nat n))]
  | None => []
  end.

(** The dict a record of the cleaning steps stands for: the keys of
    step 1, then [_flags] and the three counts when a step has stored
    them. *)
Definition to_dict (a : article) : pyval :=
  VDict ([ (lit "article_id", VStr (article_id a));
           (lit "title", match title a with Some t => VStr t | None => VNone end);
           (lit "body_text", VStr (body_text a));
           (lit "source", VStr (source a));
           (lit "domain", VStr (domain a));
           (lit "category", VList (map VStr (category a)));
           (lit "pub_datetime",
            match pub_datetime a with Some z => VInt z | None => VNone end);
           (lit "url", VStr (url a)) ]
         ++ match flags a with
            | Some f => [(lit "_flags", VList (map VStr f))]
            | None => []
            end
         ++ count_item "character_count" (character_count a)
         ++ count_item "token_count" (token_count a)
         ++ count_item "sentence_count" (sentence_count a)).

(** A feature runtime for closed examples: [datetime.fromtimestamp] on a
    machine set to UTC for the instant of scenario 4, and the
    [OverflowError] CPython raises for an integer beyond [time_t], such
    as 10**30.  Its other answers are placeholders that no statement
    below depends on. *)
Definition sample_feature_runtime : FeatureRuntime := {|
  fr_fromtimestamp := fun v =>
    match v with
    | VInt 1714557600%Z => Ret (Build_datetime 2024 5 1 10 0 0 0 None)
    | _ => Raise OverflowError
    end;
  fr_urlparse := fun _ => Raise ValueError
|}.

(** ** Predicates for the further properties *)

(** The visible ASCII characters and the space: code points 32 to 126. *)
Definition ascii_printable (c : codepoint) : bool := in_range 32 126 c.

(** No blank at either end. *)
Definition trimmed (s : pystr) : Prop :=
  head_fails isspace s = true /\ head_fails isspace (rev s) = true.

(** No two blanks side by side. *)
Fixpoint single_spaced (s : pystr) : bool :=
  match s with
  | [] => true
  | c :: t => (negb (isspace c) || head_fails isspace t) && single_spaced t
  end.

(** ** Lower-casing on its own results

    [str.lower] maps character by character (the capital sigma apart,
    which its results never hold).  Two facts of the Unicode tables
    follow, and CPython has both: every character of a lower-cased text
    is one that lower-casing leaves alone, and a text made of such
    characters is left alone. *)

(** [c.lower() == c] for the one-character string [c]. *)
Definition lower_fixes (rt : Runtime) (c : codepoint) : bool :=
  str_eqb (str_lower rt [c]) [c].

Definition lower_is_stable (rt : Runtime) : Prop :=
  (forall x, forallb (lower_fixes rt) (str_lower rt x) = true)
  /\ (forall y, forallb (lower_fixes rt) y = true -> str_lower rt y = y).

(** Lower-casing of one character where [folding_runtime] knows it:
    the ASCII capitals and U+00C9, capital E with acute. *)
Definition fold_char (c : codepoint) : codepoint :=
  if (c =? 201)%N then 233%N else ascii_lower c.

(** A second runtime for closed examples, with character-wise
    lower-casing: it answers as CPython does on texts of ASCII, U+00C9,
    U+00E9, U+030C and U+01F0 (NFKC composes j and the caron, and
    leaves the other texts this file evaluates alone).  Its other
    answers are placeholders that no statement below depends on. *)
Definition folding_runtime : Runtime := {|
  rt_repr := fun _ => [];
  rt_upper := fun s => s;
  rt_lower := map fold_char;
  rt_nfkc := fun s => if str_eqb s j_caron_lower then [496%N] else s;
  rt_charref := fun s => s;
  rt_netloc := fun _ => Raise ValueError;
  rt_fromisoformat := fun _ => Raise ValueError;
  rt_strptime := fun _ _ => Raise ValueError;
  rt_timestamp := fun _ => Raise OverflowError;
  rt_isdecimal := fun _ => false;
  rt_isalnum := fun _ => false
|}.

(** * Properties *)

Unset Implicit Arguments.

(** ** Exceptions stay inside the validator *)

Lemma only_Exception_bind {A B} (m : outcome A) (k : A -> outcome B) :
  only_Exception m -> (forall a, only_Exception (k a)) -> only_Exception (bind m k).
Proof.
  destruct m as [a|e]; simpl; intros Hm Hk; [apply Hk | exact Hm].
Qed.

Lemma only_Exception_get raw key default : only_Exception (get raw key default).
Proof. destruct raw; simpl; auto. Qed.

Lemma only_Exception_or_else a b : only_Exception b -> only_Exception (or_else a b).
Proof. unfold or_else; destruct (truthy a); simpl; auto. Qed.

Lemma only_Exception_method_strip v : only_Exception (method_strip v).
Proof. destruct v; simpl; auto. Qed.

Lemma only_Exception_method_upper rt v : only_Exception (method_upper rt v).
Proof. destruct v; simpl; auto. Qed.

Lemma only_Exception_try_except {A} (body handler : outcome A) :
  only_Exception handler -> only_Exception (try_except body handler).
Proof. destruct body; simpl; auto. Qed.

Lemma only_Exception_kept_parts parts : only_Exception (kept_parts parts).
Proof.
  induction parts as [|part rest IH]; simpl; [exact I|].
  apply only_Exception_bind.
  - destruct (truthy part); simpl; [|exact I].
    apply only_Exception_bind; [apply only_Exception_method_strip | intros; exact I].
  - intros keep. apply only_Exception_bind; [exact IH | intros; exact I].
Qed.

Lemma only_Exception_strs_of parts : only_Exception (strs_of parts).
Proof.
  induction parts as [|part rest IH]; simpl; [exact I|].
  destruct part; simpl; auto.
  apply only_Exception_bind; [exact IH | intros; exact I].
Qed.

Lemma only_Exception_parse_pub_date rt v : only_Exception (parse_pub_date rt v).
Proof.
  unfold parse_pub_date. destruct (truthy v); [|exact I].
  apply only_Exception_try_except. exact I.
Qed.

Lemma only_Exception_pub_date_of raw : only_Exception (pub_date_of raw).
Proof.
  unfold pub_date_of. apply only_Exception_bind; [apply only_Exception_get|].
  intros. apply only_Exception_or_else, only_Exception_get.
Qed.

Create HintDb exn.
#[local] Hint Resolve only_Exception_get only_Exception_or_else
  only_Exception_method_strip only_Exception_method_upper
  only_Exception_try_except only_Exception_kept_parts
  only_Exception_strs_of only_Exception_parse_pub_date
  only_Exception_pub_date_of : exn.

Ltac only_Exception_step :=
  match goal with
  | |- only_Exception (bind _ _) => apply only_Exception_bind; [|intros]
  | |- only_Exception (Ret _) => exact I
  | |- only_Exception (try_except _ _) => apply only_Exception_try_except
  | |- only_Exception (if ?c then _ else _) => destruct c
  | |- only_Exception _ => solve [auto with exn]
  end.

Lemma only_Exception_title_of rt raw : only_Exception (title_of rt raw).
Proof. unfold title_of. repeat only_Exception_step. Qed.

Lemma only_Exception_body_text_of rt raw title :
  only_Exception (body_text_of rt raw title).
Proof. unfold body_text_of. repeat only_Exception_step. Qed.

#[local] Hint Resolve only_Exception_title_of only_Exception_body_text_of : exn.

(** The [try] block raises nothing that [except Exception] lets through. *)
Lemma only_Exception_validate_body rt raw idx :
  only_Exception (validate_body rt raw idx).
Proof.
  unfold validate_body. repeat only_Exception_step.
Qed.

(** The validator always returns: a record or [None]. *)
Lemma validate_returns rt raw idx :
  exists r, validate_and_enforce_schema rt raw idx = Ret r.
Proof.
  unfold validate_and_enforce_schema, try_except_Exception.
  pose proof (only_Exception_validate_body rt raw idx) as H.
  destruct (validate_body rt raw idx) as [r|e]; simpl in H.
  - now exists r.
  - rewrite H. now exists None.
Qed.

(** C2: for every raw value and every index, [validate_and_enforce_schema]
    returns either a validated record or the rejection [None]; it never
    propagates an exception to its caller. *)
Theorem validate_never_raises rt raw idx :
  (exists v, validate_and_enforce_schema rt raw idx = Ret (Some v))
  \/ validate_and_enforce_schema rt raw idx = Ret None.
Proof.
  destruct (validate_returns rt raw idx) as [[v|] H]; [left; eauto | right; exact H].
Qed.

(** The handler is needed: outside a dict the [try] block does raise. *)
Example validate_body_raises rt : validate_body rt (VList []) 0 = Raise AttributeError.
Proof. reflexivity. Qed.

(** ** What an accepted record looks like *)

Lemma lstrip_length s : (List.length (lstrip s) <= List.length s)%nat.
Proof.
  induction s as [|c s IH]; simpl; [lia|].
  destruct (isspace c); simpl; lia.
Qed.

Lemma strip_length s : (List.length (strip s) <= List.length s)%nat.
Proof.
  unfold strip, rstrip. rewrite length_rev.
  etransitivity; [apply lstrip_length|]. rewrite length_rev. apply lstrip_length.
Qed.

Lemma validate_accept_body rt raw idx v :
  validate_and_enforce_schema rt raw idx = Ret (Some v) ->
  validate_body rt raw idx = Ret (Some v).
Proof.
  unfold validate_and_enforce_schema, try_except_Exception.
  destruct (validate_body rt raw idx) as [r|e]; [auto|].
  destruct (is_Exception e); discriminate.
Qed.

Ltac invert_bind H :=
  repeat match type of H with
         | bind ?m _ = Ret _ =>
             let E := fresh "E" in
             destruct m eqn:E; simpl in H; [|discriminate H]
         end.

(** The record returned on acceptance: its body is the assembled text
    and passed the length test of line 85, its date is the parsed
    publish date, its id is the record's own or the positional
    placeholder, and the keys of the later steps are absent. *)
Lemma validate_body_accept rt raw idx v :
  validate_body rt raw idx = Ret (Some v) ->
  (10 <= len (strip (body_text v)))%Z
  /\ assembled_body rt raw = Ret (body_text v)
  /\ (exists pd, pub_date_of raw = Ret pd /\ parse_pub_date rt pd = Ret (pub_datetime v))
  /\ (exists aid,
        get raw "article_id" VNone = Ret aid
        /\ article_id v
           = py_str rt (if truthy aid then aid
                        else VStr (lit "article_" ++ format_04d idx)))
  /\ flags v = None.
Proof.
  intros H. unfold validate_body in H. invert_bind H.
  match type of H with
  | (if ?c then _ else _) = _ => destruct c eqn:Hc; [discriminate H|]
  end.
  injection H as <-. simpl.
  apply orb_false_iff in Hc. destruct Hc as [_ Hc].
  apply Z.ltb_ge in Hc. unfold assembled_body.
  repeat match goal with E : _ = Ret _ |- _ => rewrite E; clear E end.
  repeat split; eauto.
Qed.

(** C4: the [body_text] of every record the Schema Validator accepts is
    the text assembled from the raw record and has at least 10
    characters, also after trimming; so a record whose assembled
    [body_text] has fewer than 10 characters once trimmed is not
    accepted. *)
Theorem accepted_body_length rt raw idx v :
  validate_and_enforce_schema rt raw idx = Ret (Some v) ->
  assembled_body rt raw = Ret (body_text v)
  /\ (10 <= len (strip (body_text v)))%Z
  /\ (10 <= len (body_text v))%Z.
Proof.
  intros H. apply validate_accept_body, validate_body_accept in H.
  destruct H as (H & Hb & _). split; [exact Hb|]. split; [exact H|].
  pose proof (strip_length (body_text v)). unfold len in *. lia.
Qed.

Lemma accepted_body_length_witness :
  exists v, validate_and_enforce_schema sample_runtime scenario1_raw 0 = Ret (Some v)
            /\ assembled_body sample_runtime scenario1_raw = Ret (body_text v)
            /\ (10 <= len (strip (body_text v)))%Z /\ (10 <= len (body_text v))%Z.
Proof.
  eexists. split; [vm_compute; reflexivity|].
  eapply (accepted_body_length sample_runtime scenario1_raw 0).
  vm_compute; reflexivity.
Defined.

(** Scenario 3: conversely, a raw record whose assembled body has fewer
    than 10 characters once trimmed is rejected. *)
Theorem short_body_rejected rt raw idx body :
  assembled_body rt raw = Ret body ->
  (len (strip body) < 10)%Z ->
  validate_and_enforce_schema rt raw idx = Ret None.
Proof.
  intros Hb Hlen.
  destruct (validate_returns rt raw idx) as [[v|] H]; [|exact H].
  pose proof H as H'. apply validate_accept_body, validate_body_accept in H'.
  destruct H' as (Hv & Hb' & _). rewrite Hb in Hb'. injection Hb' as ->. lia.
Qed.

Lemma parse_scenario4_date rt :
  parse_pub_date rt (VStr (lit "2024-05-01T10:00:00Z")) = Ret (Some 1714557600%Z).
Proof. vm_compute. reflexivity. Qed.

(** C8: when the publish-date source value ([pubDate], else [pub_date])
    is the string 2024-05-01T10:00:00Z, an accepted record carries
    [pub_datetime] 1714557600, the Unix time of that instant in UTC:
    the trailing Z is read as the offset +00:00 by the ISO-8601 parse. *)
Theorem scenario4_pub_datetime rt raw idx v :
  pub_date_of raw = Ret (VStr (lit "2024-05-01T10:00:00Z")) ->
  validate_and_enforce_schema rt raw idx = Ret (Some v) ->
  pub_datetime v = Some 1714557600%Z.
Proof.
  intros Hsrc H. apply validate_accept_body, validate_body_accept in H.
  destruct H as (_ & _ & (pd & Hpd & Hparse) & _ & _).
  rewrite Hsrc in Hpd. injection Hpd as <-.
  rewrite parse_scenario4_date in Hparse. now injection Hparse.
Qed.

Lemma scenario4_pub_datetime_witness :
  exists v, validate_and_enforce_schema sample_runtime scenario4_raw 7 = Ret (Some v)
            /\ pub_datetime v = Some 1714557600%Z.
Proof.
  eexists. split; [vm_compute; reflexivity|].
  eapply (scenario4_pub_datetime sample_runtime scenario4_raw 7);
    vm_compute; reflexivity.
Defined.

Example scenario4_iso_parse rt :
  fromisoformat rt (replace_char (chr "Z") (lit "+00:00") (lit "2024-05-01T10:00:00Z"))
  = Ret (Build_datetime 2024 5 1 10 0 0 0 (Some 0%Z)).
Proof. reflexivity. Qed.

Lemma short_body_rejected_witness :
  assembled_body sample_runtime short_raw = Ret (lit "Too tiny")
  /\ validate_and_enforce_schema sample_runtime short_raw 5 = Ret None.
Proof.
  split; [reflexivity|].
  apply (short_body_rejected sample_runtime short_raw 5 (lit "Too tiny"));
    reflexivity.
Defined.

(** ** The batch driver *)

Section DriverFacts.
Variable rt : Runtime.
Variable normalize_numbers_flag : bool.
Variables min_length max_length : Z.

Let record := process_record rt normalize_numbers_flag min_length max_length.
Let loop := process_loop rt normalize_numbers_flag min_length max_length.
Let produced := produced_at rt normalize_numbers_flag min_length max_length.

Lemma process_record_returns raw idx : exists r, record raw idx = Ret r.
Proof.
  unfold record, process_record.
  destruct (validate_returns rt raw (Z.of_nat idx)) as [[v|] ->]; simpl; eauto.
  destruct (perform_linguistic_checks _ _ _); eauto.
Qed.


Lemma produced_at_tail idx raw rest js new :
  Forall2 (produced (S idx) rest) js new ->
  Forall2 (produced idx (raw :: rest)) (map S js) new.
Proof.
  induction 1 as [|j a js new [r [Hn Hr]] _ IH]; simpl; constructor; auto.
  exists r. split; [exact Hn|].
  now replace (idx + S j)%nat with (S idx + j)%nat by lia.
Qed.

Lemma sorted_map_S js : StronglySorted lt js -> StronglySorted lt (map S js).
Proof.
  induction 1 as [|j js _ IH Hall]; simpl; constructor; auto.
  rewrite Forall_map. eapply Forall_impl; [|exact Hall]. simpl; lia.
Qed.

Lemma zero_below_map_S js : Forall (lt 0) (map S js).
Proof. rewrite Forall_map. apply Forall_forall. intros; lia. Qed.

(** The loop appends to [cleaned] the survivors of [raws], from
    increasing positions. *)
Lemma process_loop_spec raws : forall idx cleaned,
  exists new js,
    loop idx raws cleaned = Ret (cleaned ++ new)
    /\ (List.length new <= List.length raws)%nat
    /\ StronglySorted lt js
    /\ Forall2 (produced idx raws) js new.
Proof.
  induction raws as [|raw rest IH]; intros idx cleaned.
  - exists [], []. simpl. rewrite app_nil_r. repeat split; constructor.
  - destruct (process_record_returns raw idx) as [r Hr].
    unfold loop, record in *. simpl. rewrite Hr. simpl.
    destruct r as [a|].
    + destruct (IH (S idx) (cleaned ++ [a])) as (new & js & Hl & Hlen & Hs & Hp).
      exists (a :: new), (0%nat :: map S js).
      rewrite Hl, <- app_assoc. simpl. repeat split.
      * lia.
      * constructor; [now apply sorted_map_S | apply zero_below_map_S].
      * constructor; [|now apply produced_at_tail].
        exists raw. split; [reflexivity|]. now rewrite Nat.add_0_r.
    + destruct (IH (S idx) cleaned) as (new & js & Hl & Hlen & Hs & Hp).
      exists new, (map S js). rewrite Hl. repeat split.
      * simpl; lia.
      * now apply sorted_map_S.
      * now apply produced_at_tail.
Qed.

End DriverFacts.

(** C1: for every batch and every configuration, [process_articles]
    returns a list no longer than the batch, and the survivors appear in
    the order of the raw records they were produced from: the output is
    the list of records produced at strictly increasing positions. *)
Theorem monotonic_attrition rt flag min_length max_length raws :
  exists out js,
    process_articles rt flag min_length max_length raws = Ret out
    /\ (List.length out <= List.length raws)%nat
    /\ StronglySorted lt js
    /\ Forall2
         (fun j a => exists raw,
              nth_error raws j = Some raw
              /\ process_record rt flag min_length max_length raw j = Ret (Some a))
         js out.
Proof.
  destruct (process_loop_spec rt flag min_length max_length raws 0 [])
    as (new & js & Hl & Hlen & Hs & Hp).
  exists new, js. repeat split; auto.
Qed.

(** ** The gate and the statistics *)

Lemma nonempty_true s : nonempty s = true <-> s <> [].
Proof. destruct s; simpl; split; congruence. Qed.

(** The gate rejects exactly the empty and the too short texts, and
    leaves the text of the others alone. *)
Lemma gate_rejects a min_length max_length :
  perform_linguistic_checks a min_length max_length = None
  <-> body_text a = [] \/ (len (body_text a) < min_length)%Z.
Proof.
  unfold perform_linguistic_checks.
  destruct (body_text a) as [|c s] eqn:Hb; simpl; [intuition|].
  destruct (Z.ltb_spec (len (c :: s)) min_length) as [Hlt|Hge].
  - intuition.
  - split; [|intros [H|H]; [discriminate | lia]].
    destruct (_ >? _)%Z, (_ <? 100)%Z; discriminate.
Qed.

Lemma gate_accepts a min_length max_length checked :
  perform_linguistic_checks a min_length max_length = Some checked ->
  body_text checked = body_text a
  /\ body_text a <> []
  /\ (min_length <= len (body_text a))%Z.
Proof.
  intros H.
  assert (Hn : perform_linguistic_checks a min_length max_length <> None) by congruence.
  rewrite gate_rejects in Hn.
  split; [|split; [tauto | lia]].
  unfold perform_linguistic_checks in H.
  destruct (negb _); [discriminate|].
  destruct (_ <? min_length)%Z; [discriminate|].
  destruct (_ >? _)%Z, (_ <? 100)%Z; injection H as <-; reflexivity.
Qed.

Lemma stats_keep_body a : body_text (add_derived_statistics a) = body_text a.
Proof. reflexivity. Qed.

Lemma stats_character_count a :
  character_count (add_derived_statistics a) = Some (List.length (body_text a)).
Proof. reflexivity. Qed.

(** The text the gate sees is the text after steps 2 to 5. *)
Lemma normalise_record_body rt flag v :
  body_text (normalise_record rt flag v)
  = normalize_numbers rt
      (normalize_sentence_boundaries
         (normalize_unicode_and_case rt (sanitize_text rt (body_text v)))) flag.
Proof.
  unfold normalise_record.
  repeat match goal with
         | |- context [if ?c then _ else _] => destruct c
         end; reflexivity.
Qed.

Lemma process_record_accept rt flag min_length max_length raw idx a :
  process_record rt flag min_length max_length raw idx = Ret (Some a) ->
  character_count a = Some (List.length (body_text a))
  /\ (min_length <= len (body_text a))%Z
  /\ body_text a <> [].
Proof.
  unfold process_record.
  destruct (validate_and_enforce_schema rt raw (Z.of_nat idx)) as [[v|]|e]; simpl; try discriminate.
  destruct (perform_linguistic_checks _ _ _) as [checked|] eqn:Hg; [|discriminate].
  intros H. injection H as <-.
  apply gate_accepts in Hg. destruct Hg as (Hb & Hne & Hlen).
  rewrite stats_character_count, stats_keep_body, Hb. auto.
Qed.

Lemma Forall2_In_r {A B} (R : A -> B -> Prop) l1 l2 b :
  Forall2 R l1 l2 -> In b l2 -> exists a, In a l1 /\ R a b.
Proof.
  induction 1 as [|x y l1 l2 Hxy _ IH]; simpl; [tauto|].
  intros [<-|Hin]; [eauto|].
  destruct (IH Hin) as (a & Ha & HR). eauto.
Qed.

(** C10: every article in the output of [process_articles] has a
    [character_count] equal to the length of its final [body_text], and
    that length is at least [min_length]; in particular, whenever
    [min_length] is at least 1 the [body_text] is not empty. *)
Theorem emitted_counts_and_length rt flag min_length max_length raws out a :
  process_articles rt flag min_length max_length raws = Ret out ->
  In a out ->
  character_count a = Some (List.length (body_text a))
  /\ (min_length <= len (body_text a))%Z
  /\ ((1 <= min_length)%Z -> body_text a <> []).
Proof.
  intros Hout Hin.
  destruct (process_loop_spec rt flag min_length max_length raws 0 [])
    as (new & js & Hl & _ & _ & Hp).
  unfold process_articles in Hout. simpl in Hl. rewrite Hl in Hout.
  injection Hout as <-.
  destruct (@Forall2_In_r _ _ _ _ _ _ Hp Hin) as (j & _ & raw & _ & Hr).
  apply process_record_accept in Hr. tauto.
Qed.

Lemma emitted_counts_and_length_witness :
  exists a, process_articles sample_runtime false 10 100000 [scenario1_raw] = Ret [a]
            /\ character_count a = Some (List.length (body_text a))
            /\ (10 <= len (body_text a))%Z
            /\ ((1 <= 10)%Z -> body_text a <> []).
Proof.
  eexists. split; [vm_compute; reflexivity|].
  eapply (emitted_counts_and_length sample_runtime false 10 100000 [scenario1_raw]);
    [vm_compute; reflexivity | left; reflexivity].
Defined.


(** C6, as stated, fails: with [min_length] 20 the record [link_only_raw]
    is accepted by the validator with a [body_text] of 32 characters,
    not below 20, and is nevertheless rejected by the gate. *)
Lemma gate_ignores_raw_length :
  exists v,
    validate_and_enforce_schema sample_runtime link_only_raw 0 = Ret (Some v)
    /\ process_record sample_runtime false 20 100000 link_only_raw 0 = Ret None
    /\ ~ (len (body_text v) < 20)%Z.
Proof.
  eexists. split; [vm_compute; reflexivity|].
  split; [vm_compute; reflexivity|]. vm_compute. discriminate.
Qed.

(** C6, amended: for every record accepted by the Schema Validator, the
    gate discards it exactly when its text after sanitisation and
    normalisation (steps 2 to 5) is empty or shorter than [min_length]. *)
Theorem gate_decides_on_final_text rt flag min_length max_length raw (idx : nat) v :
  validate_and_enforce_schema rt raw (Z.of_nat idx) = Ret (Some v) ->
  let final :=
    normalize_numbers rt
      (normalize_sentence_boundaries
         (normalize_unicode_and_case rt (sanitize_text rt (body_text v)))) flag in
  process_record rt flag min_length max_length raw idx = Ret None
  <-> final = [] \/ (len final < min_length)%Z.
Proof.
  intros Hv final. unfold process_record. rewrite Hv. simpl.
  subst final. rewrite <- normalise_record_body.
  rewrite <- (gate_rejects _ min_length max_length).
  destruct (perform_linguistic_checks _ _ _); split; congruence.
Qed.

Lemma gate_decides_on_final_text_witness :
  exists v,
    validate_and_enforce_schema sample_runtime link_only_raw 0 = Ret (Some v)
    /\ (process_record sample_runtime false 20 100000 link_only_raw 0 = Ret None
        <-> normalize_numbers sample_runtime
              (normalize_sentence_boundaries
                 (normalize_unicode_and_case sample_runtime
                    (sanitize_text sample_runtime (body_text v)))) false = []
            \/ (len (normalize_numbers sample_runtime
                       (normalize_sentence_boundaries
                          (normalize_unicode_and_case sample_runtime
                             (sanitize_text sample_runtime (body_text v)))) false)
                 < 20)%Z).
Proof.
  eexists. split; [vm_compute; reflexivity|].
  apply (gate_decides_on_final_text sample_runtime false 20 100000 link_only_raw 0).
  vm_compute; reflexivity.
Defined.

(** ** Scenario 1 *)

(** C7, amended: on the raw record of scenario 1 the validator drops the
    paywalled content and assembles [Big <b>Win</b>!!! See http://x.co now];
    sanitisation gives [Big Win! See now]; after case folding and
    sentence-boundary normalisation the [body_text] is [big win! see now];
    and the Statistics Annotator counts 4 whitespace-delimited tokens on
    it ([big], [win!], [see], [now]). *)
Theorem scenario1_transforms rt :
  exists v,
    validate_and_enforce_schema rt scenario1_raw 0 = Ret (Some v)
    /\ body_text v = lit "Big <b>Win</b>!!! See http://x.co now"
    /\ sanitize_text rt (body_text v) = lit "Big Win! See now"
    /\ body_text (normalise_record rt false v) = lit "big win! see now"
    /\ split_ws (lit "big win! see now") = [lit "big"; lit "win!"; lit "see"; lit "now"]
    /\ token_count (add_derived_statistics (normalise_record rt false v)) = Some 4%nat.
Proof.
  eexists. split; [vm_compute; reflexivity|].
  repeat split; vm_compute; reflexivity.
Qed.

(** C7, as stated, fails: the token count on [big win! see now] is not 3. *)
Lemma scenario1_token_count_not_3 :
  exists v,
    validate_and_enforce_schema sample_runtime scenario1_raw 0 = Ret (Some v)
    /\ body_text (normalise_record sample_runtime false v) = lit "big win! see now"
    /\ token_count (add_derived_statistics (normalise_record sample_runtime false v))
       <> Some 3%nat.
Proof.
  eexists. split; [vm_compute; reflexivity|].
  split; vm_compute; [reflexivity | discriminate].
Qed.

(** ** The sanitiser and URLs *)

(** C5 fails on the code: the URL pattern is removed before the
    characters outside [string.printable] are dropped and before runs of
    [!], [?] and [.] are collapsed, and both later steps can assemble a
    URL.  [www!.example.com] becomes [www.example.com], and [https] with
    a zero-width space (U+200B) inside becomes a plain [https] link. *)
Theorem sanitizer_can_emit_url rt :
  sanitize_text rt (lit "www!.example.com") = lit "www.example.com"
  /\ re_search m_url (sanitize_text rt (lit "www!.example.com")) = true
  /\ sanitize_text rt (lit "ht" ++ [8203%N] ++ lit "tps://example.com/a")
     = lit "https://example.com/a"
  /\ re_search m_url
       (sanitize_text rt (lit "ht" ++ [8203%N] ++ lit "tps://example.com/a")) = true.
Proof. repeat split; vm_compute; reflexivity. Qed.

(** ** The Unicode/case normaliser *)

Lemma str_replace_absent old new : forall t prev,
  contains old t = false ->
  re_sub_from (fun _ r => if starts_with old r then Some (List.length old) else None)
              (fun _ => new) prev 0 t = t.
Proof.
  induction t as [|c t IH]; intros prev H; [reflexivity|].
  cbn [contains] in H. apply orb_false_iff in H. destruct H as [Hs Hc].
  cbn [re_sub_from]. rewrite Hs. f_equal. now apply IH.
Qed.

Lemma replace_char_same c s : replace_char c [c] s = s.
Proof.
  induction s as [|x s IH]; [reflexivity|].
  unfold replace_char in *. cbn [flat_map]. rewrite IH.
  destruct (N.eqb_spec x c); subst; reflexivity.
Qed.


Lemma replace_char_lacks c new s : lacks c s = true -> replace_char c new s = s.
Proof.
  induction s as [|x s IH]; [reflexivity|].
  unfold lacks, replace_char in *. cbn [forallb flat_map].
  intros H. apply andb_true_iff in H. destruct H as [Hx Hs].
  rewrite (IH Hs). destruct (x =? c)%N; [discriminate | reflexivity].
Qed.

Lemma lacks_replace_char c a new s :
  lacks c new = true -> (lacks c s = true \/ a = c) -> lacks c (replace_char a new s) = true.
Proof.
  intros Hnew. unfold lacks, replace_char.
  induction s as [|x s IH]; [reflexivity|].
  cbn [forallb flat_map]. intros H. rewrite forallb_app.
  apply andb_true_iff. split.
  - destruct (N.eqb_spec x a) as [->|Hne]; [exact Hnew|].
    cbn [forallb]. rewrite andb_true_r.
    destruct H as [H| ->].
    + apply andb_true_iff in H. tauto.
    + apply negb_true_iff. now apply N.eqb_neq.
  - apply IH. destruct H as [H|H]; [|now right].
    apply andb_true_iff in H. tauto.
Qed.

(** The output of the normaliser holds neither dash of line 148. *)
Lemma normalize_lacks_dashes rt s :
  let t := normalize_unicode_and_case rt s in
  lacks 8212%N t = true /\ lacks 8211%N t = true.
Proof.
  unfold normalize_unicode_and_case.
  destruct (negb (nonempty s)); [split; reflexivity|].
  cbv zeta. split.
  - apply lacks_replace_char; [reflexivity|]. left.
    apply lacks_replace_char; [reflexivity | now right].
  - apply lacks_replace_char; [reflexivity | now right].
Qed.

(** A text that no step of the normaliser changes. *)
Lemma normalize_fixed rt t :
  nfkc rt t = t -> str_lower rt t = t -> contains line146_old t = false ->
  lacks 8212%N t = true -> lacks 8211%N t = true ->
  normalize_unicode_and_case rt t = t.
Proof.
  intros Hn Hl Hc H1 H2. unfold normalize_unicode_and_case.
  destruct t as [|c t]; [reflexivity|]. cbn [nonempty negb]. cbv zeta.
  rewrite Hn, Hl. unfold str_replace, re_sub.
  rewrite str_replace_absent by exact Hc. rewrite !replace_char_same.
  rewrite (@replace_char_lacks 8212%N (lit "-") _ H1).
  now rewrite (@replace_char_lacks 8211%N (lit "-") _ H2).
Qed.

(** C3, as stated, fails: on J followed by a combining caron the
    normaliser returns j and the caron (NFKC has no composed capital,
    lower-casing keeps the caron); applied to that, NFKC composes the
    pair into U+01F0. *)
Lemma normalizer_not_idempotent :
  normalize_unicode_and_case sample_runtime
    (normalize_unicode_and_case sample_runtime j_caron_upper)
  <> normalize_unicode_and_case sample_runtime j_caron_upper.
Proof. vm_compute. discriminate. Qed.

Lemma forallb_firstn (P : codepoint -> bool) n s :
  forallb P s = true -> forallb P (firstn n s) = true.
Proof.
  revert s. induction n as [|n IH]; intros [|c s]; cbn [firstn forallb]; auto.
  intros H. apply andb_true_iff in H. destruct H as [-> Hs]. now apply IH.
Qed.

(** A substitution whose replacement keeps [P] keeps [P]. *)
Lemma re_sub_forallb (P : codepoint -> bool) m r :
  (forall x, forallb P x = true -> forallb P (r x) = true) ->
  forall s prev k,
    forallb P s = true -> forallb P (re_sub_from m r prev k s) = true.
Proof.
  intros Hr. induction s as [|c s IH]; intros prev k H; [reflexivity|].
  pose proof H as Hall.
  cbn [forallb] in H. apply andb_true_iff in H. destruct H as [Hc Hs].
  cbn [re_sub_from]. destruct k as [|k]; [|now apply IH].
  destruct (m prev (c :: s)) as [[|n]|].
  - cbn [forallb]. now rewrite Hc, IH.
  - rewrite forallb_app, IH by assumption. rewrite andb_true_r.
    apply Hr. now apply forallb_firstn.
  - cbn [forallb]. now rewrite Hc, IH.
Qed.

Lemma replace_char_forallb (P : codepoint -> bool) old new s :
  forallb P new = true -> forallb P s = true ->
  forallb P (replace_char old new s) = true.
Proof.
  intros Hn. unfold replace_char. induction s as [|c s IH]; [reflexivity|].
  cbn [forallb flat_map]. intros H. apply andb_true_iff in H. destruct H as [Hc Hs].
  rewrite forallb_app, (IH Hs), andb_true_r.
  destruct (c =? old)%N; [exact Hn | cbn [forallb]; now rewrite Hc].
Qed.

(** What the normaliser returns is lower-cased text: the apostrophe,
    the double quote and the hyphen that lines 146 to 148 put in are
    characters lower-casing leaves alone. *)
Lemma normalize_output_lowered rt s :
  lower_is_stable rt ->
  forallb (lower_fixes rt) (normalize_unicode_and_case rt s) = true.
Proof.
  intros [Hall _]. unfold normalize_unicode_and_case.
  destruct (negb (nonempty s)); [reflexivity|]. cbv zeta.
  repeat (apply replace_char_forallb; [reflexivity|]).
  unfold str_replace, re_sub. apply re_sub_forallb; [reflexivity|]. apply Hall.
Qed.

(** C3, amended: applying the normaliser to its own output changes
    nothing whenever that output is stable under NFKC and holds no
    occurrence of the text replaced on line 146.  Lower-casing needs no
    condition on the text: it is stable on its own results in every
    runtime whose lower-casing works character by character, as
    CPython's does. *)
Theorem normalizer_idempotent_on_stable_output rt s :
  let t := normalize_unicode_and_case rt s in
  lower_is_stable rt ->
  nfkc rt t = t -> contains line146_old t = false ->
  normalize_unicode_and_case rt t = t.
Proof.
  intros t Hst Hn Hc.
  destruct (normalize_lacks_dashes rt s) as [H1 H2].
  apply normalize_fixed; try assumption.
  apply (proj2 Hst). now apply normalize_output_lowered.
Qed.

Lemma fold_char_twice c : fold_char (fold_char c) = fold_char c.
Proof.
  unfold fold_char. destruct (N.eqb_spec c 201) as [->|Hc]; [reflexivity|].
  unfold ascii_lower, in_range.
  destruct ((65 <=? c)%N && (c <=? 90)%N) eqn:E.
  - apply andb_true_iff in E. destruct E as [E1 E2].
    apply N.leb_le in E1. apply N.leb_le in E2.
    destruct (N.eqb_spec (c + 32) 201); [lia|].
    destruct (N.leb_spec 65 (c + 32)); [|reflexivity].
    destruct (N.leb_spec (c + 32) 90); [lia | reflexivity].
  - destruct (N.eqb_spec c 201); [contradiction|]. now rewrite E.
Qed.

Lemma folding_lower s : str_lower folding_runtime s = map fold_char s.
Proof.
  unfold str_lower. destruct (forallb is_ascii s) eqn:E; [|reflexivity].
  apply map_ext_in. intros c Hc. rewrite forallb_forall in E. specialize (E c Hc).
  unfold fold_char, is_ascii in *. apply N.ltb_lt in E.
  destruct (N.eqb_spec c 201); [lia | reflexivity].
Qed.

Lemma folding_lower_fixes c :
  lower_fixes folding_runtime c = true <-> fold_char c = c.
Proof.
  unfold lower_fixes. rewrite folding_lower. cbn [map]. unfold str_eqb.
  destruct (list_eq_dec N.eq_dec [fold_char c] [c]) as [E|E].
  - split; [intros _; now injection E | reflexivity].
  - split; [discriminate | intros H; rewrite H in E; contradiction].
Qed.

(** The character-wise runtime has the two facts. *)
Lemma folding_lower_is_stable : lower_is_stable folding_runtime.
Proof.
  split.
  - intros x. rewrite folding_lower, forallb_forall. intros c Hc.
    apply in_map_iff in Hc. destruct Hc as (d & <- & _).
    apply folding_lower_fixes, fold_char_twice.
  - intros y Hy. rewrite folding_lower. rewrite forallb_forall in Hy.
    rewrite <- (map_id y) at 2. apply map_ext_in. intros c Hc.
    now apply folding_lower_fixes, Hy.
Qed.

Lemma normalizer_idempotent_on_stable_output_witness :
  normalize_unicode_and_case folding_runtime
    (normalize_unicode_and_case folding_runtime (201%N :: lit "COLE - Paris"))
  = normalize_unicode_and_case folding_runtime (201%N :: lit "COLE - Paris").
Proof.
  apply (normalizer_idempotent_on_stable_output folding_runtime
           (201%N :: lit "COLE - Paris"));
    [apply folding_lower_is_stable | vm_compute; reflexivity | vm_compute; reflexivity].
Defined.

(** The condition on NFKC cannot go, also where lower-casing is
    character-wise: on J followed by the caron the first pass of this
    runtime returns j and the caron, which NFKC composes. *)
Remark nfkc_condition_needed :
  lower_is_stable folding_runtime
  /\ normalize_unicode_and_case folding_runtime j_caron_upper = j_caron_lower
  /\ normalize_unicode_and_case folding_runtime j_caron_lower = [496%N].
Proof.
  split; [apply folding_lower_is_stable|]. split; vm_compute; reflexivity.
Qed.

(** *** Plain ASCII text *)

Lemma starts_with_In old : forall t c,
  starts_with old t = true -> In c old -> In c t.
Proof.
  induction old as [|a old IH]; intros t c H Hin; [contradiction|].
  destruct t as [|b t]; [discriminate|]. cbn [starts_with] in H.
  apply andb_true_iff in H. destruct H as [Hab Hrest].
  apply N.eqb_eq in Hab. subst b.
  destruct Hin as [->|Hin]; [now left | right; now apply IH].
Qed.

Lemma lacks_not_In c t : lacks c t = true -> ~ In c t.
Proof.
  unfold lacks. rewrite forallb_forall. intros H Hin.
  specialize (H c Hin). rewrite N.eqb_refl in H. discriminate.
Qed.

Lemma contains_lacking old c : In c old -> forall t,
  lacks c t = true -> contains old t = false.
Proof.
  intros Hin. induction t as [|b t IH]; intros Hl.
  - destruct old; [contradiction | reflexivity].
  - cbn [contains]. apply orb_false_iff. split.
    + destruct (starts_with old (b :: t)) eqn:E; [|reflexivity].
      exfalso. exact (lacks_not_In _ _ Hl (starts_with_In _ _ _ E Hin)).
    + apply IH. unfold lacks in *. cbn [forallb] in Hl.
      apply andb_true_iff in Hl. tauto.
Qed.

Lemma ascii_lower_ascii s :
  forallb is_ascii s = true -> forallb is_ascii (map ascii_lower s) = true.
Proof.
  induction s as [|c s IH]; [reflexivity|]. cbn [forallb map].
  intros H. apply andb_true_iff in H. destruct H as [Hc Hs].
  rewrite (IH Hs), andb_true_r. unfold ascii_lower, is_ascii, in_range in *.
  destruct (65 <=? c)%N eqn:E1, (c <=? 90)%N eqn:E2; cbn [andb]; try exact Hc.
  apply N.leb_le in E2. apply N.ltb_lt. lia.
Qed.

Lemma ascii_lower_lacks_quote s :
  lacks 34%N s = true -> lacks 34%N (map ascii_lower s) = true.
Proof.
  unfold lacks. induction s as [|c s IH]; [reflexivity|]. cbn [forallb map].
  intros H. apply andb_true_iff in H. destruct H as [Hc Hs].
  rewrite (IH Hs), andb_true_r. unfold ascii_lower, in_range.
  destruct (65 <=? c)%N eqn:E1, (c <=? 90)%N eqn:E2; cbn [andb]; try exact Hc.
  apply N.leb_le in E1. apply negb_true_iff, N.eqb_neq. lia.
Qed.

Lemma ascii_lower_twice s : map ascii_lower (map ascii_lower s) = map ascii_lower s.
Proof.
  rewrite map_map. apply map_ext. intros c. unfold ascii_lower, in_range.
  destruct (65 <=? c)%N eqn:E1, (c <=? 90)%N eqn:E2; cbn [andb];
    try (rewrite E1, E2; reflexivity); try (rewrite E1; reflexivity).
  apply N.leb_le in E1. apply N.leb_le in E2.
  replace (c + 32 <=? 90)%N with false by (symmetry; apply N.leb_gt; lia).
  now rewrite andb_false_r.
Qed.

Lemma ascii_lacks_dash c s :
  (128 <= c)%N -> forallb is_ascii s = true -> lacks c s = true.
Proof.
  intros Hc. unfold lacks. induction s as [|x s IH]; [reflexivity|]. cbn [forallb].
  intros H. apply andb_true_iff in H. destruct H as [Hx Hs].
  rewrite (IH Hs), andb_true_r. unfold is_ascii in Hx. apply N.ltb_lt in Hx.
  apply negb_true_iff, N.eqb_neq. lia.
Qed.

(** On ASCII text without a double quote the normaliser only folds the
    case. *)
Lemma normalize_plain_ascii rt s :
  forallb is_ascii s = true -> lacks 34%N s = true ->
  normalize_unicode_and_case rt s = map ascii_lower s.
Proof.
  intros Ha Hq. unfold normalize_unicode_and_case.
  destruct s as [|c s]; [reflexivity|]. cbn [nonempty negb]. cbv zeta.
  unfold nfkc. rewrite Ha. unfold str_lower. rewrite Ha. unfold str_replace, re_sub.
  rewrite str_replace_absent
    by (apply (contains_lacking _ 34%N);
        [right; right; now left | now apply ascii_lower_lacks_quote]).
  rewrite !replace_char_same.
  rewrite (replace_char_lacks 8212%N)
    by (apply ascii_lacks_dash; [lia | now apply ascii_lower_ascii]).
  rewrite (replace_char_lacks 8211%N)
    by (apply ascii_lacks_dash; [lia | now apply ascii_lower_ascii]).
  reflexivity.
Qed.

(** Idempotence holds on every ASCII text without a double quote,
    whatever the runtime. *)
Theorem normalizer_idempotent_on_plain_ascii rt s :
  forallb is_ascii s = true -> lacks 34%N s = true ->
  normalize_unicode_and_case rt (normalize_unicode_and_case rt s)
  = normalize_unicode_and_case rt s.
Proof.
  intros Ha Hq. rewrite (normalize_plain_ascii rt s Ha Hq).
  rewrite normalize_plain_ascii
    by (now apply ascii_lower_ascii || now apply ascii_lower_lacks_quote).
  apply ascii_lower_twice.
Qed.

Lemma normalizer_idempotent_on_plain_ascii_witness :
  normalize_unicode_and_case sample_runtime
    (normalize_unicode_and_case sample_runtime (lit "Stocks RALLY; bonds don't."))
  = normalize_unicode_and_case sample_runtime (lit "Stocks RALLY; bonds don't.").
Proof.
  apply (normalizer_idempotent_on_plain_ascii sample_runtime
           (lit "Stocks RALLY; bonds don't.")); reflexivity.
Defined.

(** Line 146 alone already breaks idempotence on ASCII text, for every
    runtime: the first pass turns the text below into the fifteen
    characters that the second pass replaces by an apostrophe. *)
Remark line146_second_pass rt :
  let s := lit ", " ++ [34%N] ++ line146_old ++ [34%N] ++ lit ").replace(" in
  normalize_unicode_and_case rt s = line146_old
  /\ normalize_unicode_and_case rt (normalize_unicode_and_case rt s) = [39%N].
Proof. split; vm_compute; reflexivity. Qed.

(** ** Leading punctuation *)

(** C9, as stated, fails: a leading comma directly followed by a letter
    is kept. *)
Lemma leading_punct_kept :
  normalize_sentence_boundaries (lit ",hello") = lit ",hello"
  /\ starts_with_punct (normalize_sentence_boundaries (lit ",hello")) = true.
Proof. split; reflexivity. Qed.

(** *** Scanning facts *)


Lemma span_head_fails p s : head_fails p s = true -> span p s = 0%nat.
Proof.
  destruct s as [|c s]; [reflexivity|]. simpl. now destruct (p c).
Qed.

Lemma span_app p a b :
  forallb p a = true -> span p (a ++ b) = (List.length a + span p b)%nat.
Proof.
  induction a as [|c a IH]; [reflexivity|]. cbn [forallb app span List.length].
  intros H. apply andb_true_iff in H. destruct H as [-> Ha].
  now rewrite (IH Ha).
Qed.

Lemma span_run p a b :
  forallb p a = true -> head_fails p b = true -> span p (a ++ b) = List.length a.
Proof.
  intros Ha Hb. rewrite (span_app _ _ _ Ha), (span_head_fails _ _ Hb). lia.
Qed.

Lemma skipn_length_app (a b : pystr) : skipn (List.length a) (a ++ b) = b.
Proof. induction a; simpl; auto. Qed.

Lemma punct_not_space c : is_punct c = true -> isspace c = false.
Proof.
  unfold is_punct. rewrite !orb_true_iff, !N.eqb_eq.
  intros [[[[[-> | ->] | ->] | ->] | ->] | ->]; reflexivity.
Qed.

Lemma space_not_punct c : isspace c = true -> is_punct c = false.
Proof.
  intros H. destruct (is_punct c) eqn:E; [|reflexivity].
  apply punct_not_space in E. congruence.
Qed.

Lemma bang_is_punct c : is_bang c = true -> is_punct c = true.
Proof.
  unfold is_bang, is_punct. rewrite !orb_true_iff, !N.eqb_eq. tauto.
Qed.

Lemma head_plain_fails_space s : head_plain s = true -> head_fails isspace s = true.
Proof.
  destruct s as [|c s]; [reflexivity|]. simpl.
  intros H. apply andb_true_iff in H. tauto.
Qed.

Lemma head_plain_fails_punct s : head_plain s = true -> head_fails is_punct s = true.
Proof.
  destruct s as [|c s]; [reflexivity|]. simpl.
  intros H. apply andb_true_iff in H. tauto.
Qed.

Section Scan.
Variable m : option codepoint -> pystr -> option nat.
Variable r : pystr -> pystr.

(** The matcher does not look behind. *)
Hypothesis m_indep : forall p1 p2 s, m p1 s = m p2 s.

Lemma scan_prev p1 p2 k s : re_sub_from m r p1 k s = re_sub_from m r p2 k s.
Proof.
  destruct s as [|c s]; [reflexivity|]. cbn [re_sub_from].
  destruct k; [|reflexivity]. now rewrite (m_indep p1 p2).
Qed.

(** Resuming after a match that covered [p]. *)
Lemma scan_skip p : forall prev s,
  re_sub_from m r prev (List.length p) (p ++ s) = re_sub_from m r None 0 s.
Proof.
  induction p as [|c p IH]; intros prev s; [apply scan_prev|].
  cbn [List.length app re_sub_from]. apply IH.
Qed.


Lemma scan_copy p : forall prev s,
  fails_along m p s ->
  re_sub_from m r prev 0 (p ++ s) = p ++ re_sub_from m r None 0 s.
Proof.
  induction p as [|c p IH]; intros prev s H; [apply scan_prev|].
  destruct H as [Hc Hp]. cbn [app re_sub_from] in *.
  rewrite (m_indep prev None), Hc. f_equal. now apply IH.
Qed.

(** The pattern never starts at a character that is neither blank nor
    punctuation. *)
Hypothesis m_plain : forall c s,
  isspace c = false -> is_punct c = false -> m None (c :: s) = None.

Lemma scan_head_plain prev s :
  head_plain s = true -> head_plain (re_sub_from m r prev 0 s) = true.
Proof.
  destruct s as [|c s]; [reflexivity|]. intros H.
  cbn [re_sub_from]. rewrite (m_indep prev None).
  cbn [head_plain] in H. apply andb_true_iff in H.
  rewrite !negb_true_iff in H. destruct H as [Hs Hp].
  rewrite (m_plain _ _ Hs Hp). cbn [head_plain]. now rewrite Hs, Hp.
Qed.
End Scan.

(** *** The six substitutions on a text that starts with punctuation
    followed by blanks *)

Lemma m_mark_spaces_cons mark prev c s :
  m_mark_spaces mark prev (c :: s)
  = if (c =? mark)%N
    then (if (2 <=? span isspace s)%nat then Some (S (span isspace s)) else None)
    else None.
Proof. reflexivity. Qed.

Lemma m_mark_spaces_other mark prev c s :
  is_punct mark = true -> is_punct c = false -> m_mark_spaces mark prev (c :: s) = None.
Proof.
  intros Hm Hc. rewrite m_mark_spaces_cons.
  destruct (N.eqb_spec c mark) as [->|]; [congruence | reflexivity].
Qed.

Lemma m_orphan_nonspace prev c s : isspace c = false -> m_orphan prev (c :: s) = None.
Proof. intros H. unfold m_orphan. cbn [span]. now rewrite H. Qed.

Lemma m_break_plain prev c s : is_punct c = false -> m_break prev (c :: s) = None.
Proof.
  intros H. unfold m_break. destruct s as [|b s]; [reflexivity|].
  destruct (is_bang c) eqn:E; [|reflexivity].
  apply bang_is_punct in E. congruence.
Qed.

Lemma punct_then_spaces_plain s : head_plain s = true -> punct_then_spaces s = None.
Proof.
  intros H. unfold punct_then_spaces.
  now rewrite (span_head_fails _ _ (head_plain_fails_punct _ H)).
Qed.

Lemma head_fails_punct_spaces sp rest :
  sp <> [] -> forallb isspace sp = true -> head_fails is_punct (sp ++ rest) = true.
Proof.
  destruct sp as [|c sp]; [congruence|]. cbn [forallb app head_fails].
  intros _ H. apply andb_true_iff in H. destruct H as [H _].
  now rewrite (space_not_punct _ H).
Qed.

Lemma mark_fails_along_spaces mark sp rest :
  is_punct mark = true -> forallb isspace sp = true ->
  fails_along (m_mark_spaces mark) sp rest.
Proof.
  intros Hm. induction sp as [|c sp IH]; [exact (fun _ => I)|].
  cbn [forallb]. intros H. apply andb_true_iff in H. destruct H as [Hc Hs].
  split; [|now apply IH].
  cbn [app]. apply m_mark_spaces_other; [exact Hm | now apply space_not_punct].
Qed.

Lemma orphan_fails_along_punct ps s :
  forallb is_punct ps = true -> fails_along m_orphan ps s.
Proof.
  induction ps as [|c ps IH]; [exact (fun _ => I)|].
  cbn [forallb]. intros H. apply andb_true_iff in H. destruct H as [Hc Hs].
  split; [|now apply IH].
  cbn [app]. apply m_orphan_nonspace. now apply punct_not_space.
Qed.

Lemma orphan_fails_along_spaces sp rest :
  forallb isspace sp = true -> head_plain rest = true ->
  fails_along m_orphan sp rest.
Proof.
  intros Hs Hr. induction sp as [|c sp IH]; [exact I|].
  pose proof Hs as Hall.
  cbn [forallb] in Hs. apply andb_true_iff in Hs. destruct Hs as [Hc Hs].
  split; [|now apply IH].
  unfold m_orphan.
  rewrite (span_run _ _ _ Hall (head_plain_fails_space _ Hr)).
  cbn [List.length app skipn].
  rewrite skipn_length_app, (punct_then_spaces_plain _ Hr). reflexivity.
Qed.

(** Substitutions 1 to 3 keep the punctuation, keep or shorten the
    blanks, and leave the first character of the rest in place. *)
Lemma mark_stage mark w :
  is_punct mark = true ->
  forall ps prev sp rest,
    ps <> [] -> forallb is_punct ps = true ->
    sp <> [] -> forallb isspace sp = true ->
    head_plain rest = true ->
    exists sp',
      re_sub_from (m_mark_spaces mark) (fun _ => [mark; w]) prev 0 (ps ++ sp ++ rest)
      = ps ++ sp' ++ re_sub_from (m_mark_spaces mark) (fun _ => [mark; w]) None 0 rest
      /\ (sp' = sp \/ sp' = [w]).
Proof.
  intros Hm. induction ps as [|c ps IH]; intros prev sp rest Hne Hp Hsne Hs Hr;
    [congruence|].
  cbn [forallb] in Hp. apply andb_true_iff in Hp. destruct Hp as [Hc Hps].
  assert (Hcopy : re_sub_from (m_mark_spaces mark) (fun _ => [mark; w]) (Some c) 0
                    (sp ++ rest)
                  = sp ++ re_sub_from (m_mark_spaces mark) (fun _ => [mark; w]) None 0 rest).
  { apply scan_copy; [reflexivity | now apply mark_fails_along_spaces]. }
  destruct ps as [|c2 ps'].
  - cbn [app re_sub_from]. rewrite m_mark_spaces_cons.
    rewrite (span_run _ _ _ Hs (head_plain_fails_space _ Hr)).
    destruct (N.eqb_spec c mark) as [->|_].
    + destruct (2 <=? List.length sp)%nat.
      * exists [w]. split; [|now right].
        rewrite scan_skip by reflexivity. reflexivity.
      * exists sp. split; [|now left]. now rewrite Hcopy.
    + exists sp. split; [|now left]. now rewrite Hcopy.
  - cbn [forallb] in Hps. apply andb_true_iff in Hps. destruct Hps as [Hc2 Hps'].
    destruct (IH (Some c) sp rest) as (sp' & Heq & Hsp'); auto; try discriminate.
    { cbn [forallb]. now rewrite Hc2. }
    exists sp'. split; [|exact Hsp'].
    change ((c :: c2 :: ps') ++ sp ++ rest) with (c :: (c2 :: ps') ++ sp ++ rest).
    cbn [re_sub_from]. rewrite m_mark_spaces_cons.
    replace (span isspace ((c2 :: ps') ++ sp ++ rest)) with 0%nat
      by (cbn [app span]; now rewrite (punct_not_space _ Hc2)).
    cbn [Nat.leb]. rewrite Heq. now destruct (c =? mark)%N.
Qed.

(** Substitution 4 finds no orphan in the leading punctuation and its
    blanks. *)
Lemma orphan_stage r prev ps sp rest :
  forallb is_punct ps = true -> forallb isspace sp = true -> head_plain rest = true ->
  re_sub_from m_orphan r prev 0 (ps ++ sp ++ rest)
  = ps ++ sp ++ re_sub_from m_orphan r None 0 rest.
Proof.
  intros Hp Hs Hr.
  rewrite scan_copy by (reflexivity || now apply orphan_fails_along_punct).
  rewrite scan_copy by (reflexivity || now apply orphan_fails_along_spaces).
  reflexivity.
Qed.

Lemma leading_after r : forall s x k, re_sub_from m_leading r (Some x) k s = skipn k s.
Proof.
  induction s as [|c s IH]; intros x k; [now destruct k|].
  cbn [re_sub_from]. destruct k as [|k]; [|apply IH].
  cbn [m_leading skipn]. now rewrite IH.
Qed.

(** Substitution 5 removes the leading punctuation and its blanks. *)
Lemma leading_stage ps sp rest :
  ps <> [] -> forallb is_punct ps = true ->
  sp <> [] -> forallb isspace sp = true ->
  head_plain rest = true ->
  re_sub m_leading (fun _ => []) (ps ++ sp ++ rest) = rest.
Proof.
  intros Hne Hp Hsne Hs Hr.
  assert (Hm : m_leading None (ps ++ sp ++ rest)
               = Some (List.length ps + List.length sp)%nat).
  { unfold m_leading, punct_then_spaces.
    replace (span isspace (ps ++ sp ++ rest)) with 0%nat.
    2:{ destruct ps as [|c ps]; [congruence|]. cbn [forallb] in Hp.
        apply andb_true_iff in Hp. destruct Hp as [Hc _].
        cbn [app span]. now rewrite (punct_not_space _ Hc). }
    cbn [skipn].
    rewrite (span_run _ _ _ Hp (head_fails_punct_spaces _ rest Hsne Hs)).
    rewrite skipn_length_app.
    rewrite (span_run _ _ _ Hs (head_plain_fails_space _ Hr)).
    destruct ps; [congruence|]. destruct sp; [congruence|]. reflexivity. }
  destruct ps as [|c ps]; [congruence|].
  unfold re_sub. cbn [app re_sub_from]. cbn [app] in Hm. rewrite Hm.
  cbn [List.length Nat.add app]. rewrite leading_after.
  now rewrite app_assoc, <- length_app, skipn_length_app.
Qed.

Lemma lstrip_keeps_last c : isspace c = false ->
  forall l, exists l', lstrip (l ++ [c]) = l' ++ [c].
Proof.
  intros Hc. induction l as [|x l IH]; cbn [app lstrip].
  - rewrite Hc. now exists [].
  - destruct (isspace x); [exact IH | now exists (x :: l)].
Qed.

Lemma strip_head_plain t : head_plain t = true -> starts_with_punct (strip t) = false.
Proof.
  destruct t as [|c t]; [reflexivity|]. cbn [head_plain].
  intros H. apply andb_true_iff in H. rewrite !negb_true_iff in H.
  destruct H as [Hs Hp].
  unfold strip, rstrip. cbn [lstrip]. rewrite Hs. cbn [rev].
  destruct (lstrip_keeps_last c Hs (rev t)) as [l' ->].
  rewrite rev_app_distr. cbn [rev app starts_with_punct]. exact Hp.
Qed.

Lemma mark_stage_shape mark w :
  is_punct mark = true -> isspace w = true ->
  forall ps sp rest,
    ps <> [] -> forallb is_punct ps = true ->
    sp <> [] -> forallb isspace sp = true ->
    head_plain rest = true ->
    exists sp' rest',
      re_sub (m_mark_spaces mark) (fun _ => [mark; w]) (ps ++ sp ++ rest)
      = ps ++ sp' ++ rest'
      /\ sp' <> [] /\ forallb isspace sp' = true /\ head_plain rest' = true.
Proof.
  intros Hm Hw ps sp rest Hne Hp Hsne Hs Hr.
  destruct (mark_stage mark w Hm ps None sp rest Hne Hp Hsne Hs Hr) as (sp' & Heq & Hsp').
  exists sp', (re_sub_from (m_mark_spaces mark) (fun _ => [mark; w]) None 0 rest).
  split; [exact Heq|].
  split; [destruct Hsp' as [-> | ->]; [exact Hsne | discriminate]|].
  split; [destruct Hsp' as [-> | ->]; [exact Hs | cbn [forallb]; now rewrite Hw]|].
  apply scan_head_plain; [reflexivity | | exact Hr].
  intros c s _ Hc. now apply m_mark_spaces_other.
Qed.

(** The case without leading blanks: substitution 5 removes the run. *)
Lemma leading_run_at_start ps sp rest :
  ps <> [] -> forallb is_punct ps = true ->
  sp <> [] -> forallb isspace sp = true ->
  head_plain rest = true ->
  starts_with_punct (normalize_sentence_boundaries (ps ++ sp ++ rest)) = false.
Proof.
  intros Hne Hp Hsne Hs Hr.
  unfold normalize_sentence_boundaries.
  destruct (ps ++ sp ++ rest) as [|c0 t0] eqn:Htext;
    [destruct ps; [congruence | discriminate]|].
  cbn [nonempty negb]. cbv zeta. rewrite <- Htext. clear Htext c0 t0.
  change (lit ". ") with [chr "."; 32%N].
  change (lit "! ") with [chr "!"; 32%N].
  change (lit "? ") with [chr "?"; 32%N].
  destruct (mark_stage_shape (chr ".") 32%N eq_refl eq_refl ps sp rest Hne Hp Hsne Hs Hr)
    as (sp1 & rest1 & E1 & Hsne1 & Hs1 & Hr1).
  destruct (mark_stage_shape (chr "!") 32%N eq_refl eq_refl ps sp1 rest1 Hne Hp Hsne1 Hs1 Hr1)
    as (sp2 & rest2 & E2 & Hsne2 & Hs2 & Hr2).
  destruct (mark_stage_shape (chr "?") 32%N eq_refl eq_refl ps sp2 rest2 Hne Hp Hsne2 Hs2 Hr2)
    as (sp3 & rest3 & E3 & Hsne3 & Hs3 & Hr3).
  pose proof (orphan_stage (fun _ => lit " ") None ps sp3 rest3 Hp Hs3 Hr3) as E4.
  assert (Hr4 : head_plain (re_sub_from m_orphan (fun _ => lit " ") None 0 rest3) = true).
  { apply scan_head_plain; [reflexivity | | exact Hr3].
    intros c s Hc _. now apply m_orphan_nonspace. }
  pose proof (leading_stage ps sp3 _ Hne Hp Hsne3 Hs3 Hr4) as E5.
  unfold re_sub, codepoint in *. rewrite E1, E2, E3, E4, E5.
  apply strip_head_plain.
  apply scan_head_plain; [reflexivity | | exact Hr4].
  intros c s _ Hc. now apply m_break_plain.
Qed.

(** Substitutions 1 to 3 copy leading blanks. *)
Lemma mark_stage_blanks mark w ws t :
  is_punct mark = true -> forallb isspace ws = true ->
  re_sub (m_mark_spaces mark) (fun _ => [mark; w]) (ws ++ t)
  = ws ++ re_sub (m_mark_spaces mark) (fun _ => [mark; w]) t.
Proof.
  intros Hm Hws. unfold re_sub.
  apply scan_copy; [reflexivity | now apply mark_fails_along_spaces].
Qed.

(** With leading blanks, substitution 4 sees the run as an orphan and
    puts one space in place of the blanks, the run and its blanks. *)
Lemma orphan_stage_blanks w ws ps sp rest :
  forallb isspace (w :: ws) = true ->
  ps <> [] -> forallb is_punct ps = true ->
  sp <> [] -> forallb isspace sp = true ->
  head_plain rest = true ->
  re_sub m_orphan (fun _ => lit " ") ((w :: ws) ++ ps ++ sp ++ rest)
  = lit " " ++ re_sub m_orphan (fun _ => lit " ") rest.
Proof.
  intros Hws Hne Hp Hsne Hs Hr.
  assert (Hm : m_orphan None ((w :: ws) ++ ps ++ sp ++ rest)
               = Some (S (List.length (ws ++ ps ++ sp)))).
  { unfold m_orphan, punct_then_spaces.
    assert (Hps : head_fails isspace (ps ++ sp ++ rest) = true).
    { destruct ps as [|c ps]; [congruence|]. cbn [forallb] in Hp.
      apply andb_true_iff in Hp. destruct Hp as [Hc _].
      cbn [app head_fails]. now rewrite (punct_not_space _ Hc). }
    rewrite (span_run _ _ _ Hws Hps). cbn [List.length].
    change (skipn (S (List.length ws)) ((w :: ws) ++ ps ++ sp ++ rest))
      with (skipn (List.length ws) (ws ++ ps ++ sp ++ rest)).
    rewrite skipn_length_app.
    rewrite (span_run _ _ _ Hp (head_fails_punct_spaces _ rest Hsne Hs)).
    rewrite skipn_length_app.
    rewrite (span_run _ _ _ Hs (head_plain_fails_space _ Hr)).
    destruct ps; [congruence|]. destruct sp; [congruence|].
    rewrite !length_app. cbn [List.length option_map]. f_equal; lia. }
  unfold re_sub. cbn [app re_sub_from]. cbn [app] in Hm. rewrite Hm.
  f_equal.
  replace (ws ++ ps ++ sp ++ rest) with ((ws ++ ps ++ sp) ++ rest)
    by now rewrite <- !app_assoc.
  now apply scan_skip.
Qed.

Lemma strip_blank c s : isspace c = true -> strip (c :: s) = strip s.
Proof. intros H. unfold strip. cbn [lstrip]. now rewrite H. Qed.

(** The case with leading blanks: substitution 4 removes the run. *)
Lemma leading_run_after_blanks w ws ps sp rest :
  forallb isspace (w :: ws) = true ->
  ps <> [] -> forallb is_punct ps = true ->
  sp <> [] -> forallb isspace sp = true ->
  head_plain rest = true ->
  starts_with_punct
    (normalize_sentence_boundaries ((w :: ws) ++ ps ++ sp ++ rest)) = false.
Proof.
  intros Hws Hne Hp Hsne Hs Hr.
  unfold normalize_sentence_boundaries. cbn [app nonempty negb]. cbv zeta.
  change (w :: ws ++ ps ++ sp ++ rest) with ((w :: ws) ++ ps ++ sp ++ rest).
  change (lit ". ") with [chr "."; 32%N].
  change (lit "! ") with [chr "!"; 32%N].
  change (lit "? ") with [chr "?"; 32%N].
  destruct (mark_stage_shape (chr ".") 32%N eq_refl eq_refl ps sp rest Hne Hp Hsne Hs Hr)
    as (sp1 & rest1 & E1 & Hsne1 & Hs1 & Hr1).
  destruct (mark_stage_shape (chr "!") 32%N eq_refl eq_refl ps sp1 rest1 Hne Hp Hsne1 Hs1 Hr1)
    as (sp2 & rest2 & E2 & Hsne2 & Hs2 & Hr2).
  destruct (mark_stage_shape (chr "?") 32%N eq_refl eq_refl ps sp2 rest2 Hne Hp Hsne2 Hs2 Hr2)
    as (sp3 & rest3 & E3 & Hsne3 & Hs3 & Hr3).
  pose proof (mark_stage_blanks (chr ".") 32%N (w :: ws) (ps ++ sp ++ rest) eq_refl Hws) as B1.
  pose proof (mark_stage_blanks (chr "!") 32%N (w :: ws) (ps ++ sp1 ++ rest1) eq_refl Hws) as B2.
  pose proof (mark_stage_blanks (chr "?") 32%N (w :: ws) (ps ++ sp2 ++ rest2) eq_refl Hws) as B3.
  pose proof (orphan_stage_blanks w ws ps sp3 rest3 Hws Hne Hp Hsne3 Hs3 Hr3) as E4.
  assert (Hr4 : head_plain (re_sub m_orphan (fun _ => lit " ") rest3) = true).
  { apply scan_head_plain; [reflexivity | | exact Hr3].
    intros c s Hc _. now apply m_orphan_nonspace. }
  set (rest4 := re_sub m_orphan (fun _ => lit " ") rest3) in *.
  assert (E5 : re_sub m_leading (fun _ => []) (lit " " ++ rest4) = lit " " ++ rest4).
  { unfold re_sub. change (lit " " ++ rest4) with (32%N :: rest4).
    cbn [re_sub_from]. unfold m_leading.
    change (span isspace (32%N :: rest4)) with (S (span isspace rest4)).
    rewrite (span_head_fails _ _ (head_plain_fails_space _ Hr4)).
    cbn [skipn]. rewrite (punct_then_spaces_plain _ Hr4). cbn [option_map].
    now rewrite leading_after. }
  unfold codepoint in *. rewrite B1, E1, B2, E2, B3, E3, E4, E5.
  change (lit " " ++ rest4) with (32%N :: rest4).
  unfold re_sub at 1. cbn [re_sub_from]. change (m_break None (32%N :: rest4)) with
    (match rest4 with [] => @None nat | _ :: _ => None end).
  replace (match rest4 with [] => @None nat | _ :: _ => None end) with (@None nat)
    by now destruct rest4.
  rewrite strip_blank by reflexivity.
  apply strip_head_plain.
  apply scan_head_plain; [reflexivity | | exact Hr4].
  intros c s _ Hc. now apply m_break_plain.
Qed.

(** C9, amended: the leading-punctuation rule needs a blank after the
    run.  For a text made of optional blanks, a non-empty run of
    punctuation, at least one blank, and a rest that is empty or starts
    with a character that is neither blank nor punctuation, the output
    of [normalize_sentence_boundaries] does not begin with a punctuation
    character. *)
Theorem leading_punct_stripped ws ps sp rest :
  forallb isspace ws = true ->
  ps <> [] -> forallb is_punct ps = true ->
  sp <> [] -> forallb isspace sp = true ->
  head_plain rest = true ->
  starts_with_punct (normalize_sentence_boundaries (ws ++ ps ++ sp ++ rest)) = false.
Proof.
  intros Hws Hne Hp Hsne Hs Hr. destruct ws as [|w ws].
  - cbn [app]. apply leading_run_at_start; assumption.
  - apply leading_run_after_blanks; assumption.
Qed.

Lemma leading_punct_stripped_witness :
  starts_with_punct
    (normalize_sentence_boundaries (lit " " ++ lit "..." ++ lit "  " ++ lit "and then."))
  = false
  /\ starts_with_punct
       (normalize_sentence_boundaries ([] ++ lit "?!" ++ lit " " ++ lit "So it goes."))
     = false.
Proof.
  split.
  - apply (leading_punct_stripped (lit " ") (lit "...") (lit "  ") (lit "and then."));
      (discriminate || reflexivity).
  - apply (leading_punct_stripped [] (lit "?!") (lit " ") (lit "So it goes."));
      (discriminate || reflexivity).
Defined.

(** ** The sanitiser and HTML tags

    The tag half of the sanitiser's safety property holds: once
    [<[^>]+>] has been removed, every [<] left is directly followed by
    [>] or has no [>] after it, and no later step changes that. *)


Lemma m_tag_cons prev c s :
  m_tag prev (c :: s)
  = if (c =? chr "<")%N then
      match span not_gt s with
      | O => None
      | S n =>
          match skipn (S n) s with
          | [] => None
          | d :: _ => if (d =? chr ">")%N then Some (span not_gt s + 2)%nat else None
          end
      end
    else None.
Proof. reflexivity. Qed.

Lemma skipn_span_nil p s : skipn (span p s) s = [] -> forallb p s = true.
Proof.
  induction s as [|c s IH]; [reflexivity|]. cbn [span forallb].
  destruct (p c); cbn [skipn]; [exact IH | discriminate].
Qed.

Lemma span_all p s : forallb p s = true -> skipn (span p s) s = [].
Proof.
  induction s as [|c s IH]; [reflexivity|]. cbn [span forallb].
  destruct (p c); cbn [skipn andb]; [exact IH | discriminate].
Qed.

Lemma skipn_span_head p s d s' : skipn (span p s) s = d :: s' -> p d = false.
Proof.
  induction s as [|c s IH]; [discriminate|]. cbn [span].
  destruct (p c) eqn:E; cbn [skipn]; [exact IH|].
  intros H. injection H as <- _. exact E.
Qed.

Lemma firstn_span p s : forallb p (firstn (span p s) s) = true.
Proof.
  induction s as [|c s IH]; [reflexivity|]. cbn [span].
  destruct (p c) eqn:E; [|reflexivity]. cbn [firstn forallb]. now rewrite E.
Qed.

(** [<[^>]+>] matches at a [<] exactly when what follows is not
    [ok_after]. *)
Lemma m_tag_none prev c s :
  m_tag prev (c :: s) = None <-> (c =? chr "<")%N = false \/ ok_after s = true.
Proof.
  rewrite m_tag_cons. destruct (c =? chr "<")%N; [|tauto].
  unfold ok_after. split.
  - intros H. right. destruct s as [|d s]; [reflexivity|].
    cbn [closes_at_once]. destruct (d =? chr ">")%N eqn:Ed; [reflexivity|].
    cbn [orb]. apply (skipn_span_nil not_gt).
    destruct (span not_gt (d :: s)) eqn:Ek.
    + cbn [span] in Ek. unfold not_gt at 1 in Ek. rewrite Ed in Ek. discriminate.
    + destruct (skipn (S n) (d :: s)) as [|e s'] eqn:Es; [reflexivity|].
      rewrite <- Ek in Es. apply skipn_span_head in Es. unfold not_gt in Es.
      apply negb_false_iff in Es. rewrite Es in H. discriminate.
  - intros [H|H]; [discriminate|]. apply orb_true_iff in H. destruct H as [H|H].
    + destruct s as [|d s]; [discriminate|]. cbn [closes_at_once] in H.
      cbn [span]. unfold not_gt at 1. now rewrite H.
    + destruct (span not_gt s) eqn:Ek; [reflexivity|].
      rewrite <- Ek. now rewrite (span_all not_gt s H).
Qed.

Lemma tag_free_search t : forall prev,
  tag_free t = true -> re_search_from m_tag prev t = false.
Proof.
  induction t as [|c s IH]; intros prev H; [reflexivity|].
  cbn [tag_free] in H. apply andb_true_iff in H. destruct H as [Hc Hs].
  cbn [re_search_from].
  replace (m_tag prev (c :: s)) with (@None nat); [now apply IH|].
  symmetry. apply m_tag_none. apply orb_true_iff in Hc.
  destruct Hc as [Hc|Hc]; [left; now apply negb_true_iff | now right].
Qed.

(** *** Removals that cannot start at [>] *)

Section Removal.
Variable m : option codepoint -> pystr -> option nat.
Hypothesis m_gt : forall prev s, m prev (chr ">" :: s) = None.

Let removed := re_sub_from m (fun _ => []).

Lemma removal_lacks c s : forall prev k,
  lacks c s = true -> lacks c (removed prev k s) = true.
Proof.
  unfold removed, lacks.
  induction s as [|x s IH]; intros prev k H; [reflexivity|].
  cbn [forallb] in H. apply andb_true_iff in H. destruct H as [Hx Hs].
  cbn [re_sub_from]. destruct k as [|k]; [|now apply IH].
  destruct (m prev (x :: s)) as [[|n]|]; cbn [app forallb];
    rewrite ?Hx; now apply IH.
Qed.

Lemma removal_ok_after s prev :
  ok_after s = true -> ok_after (removed prev 0 s) = true.
Proof.
  unfold ok_after. intros H. apply orb_true_iff in H. destruct H as [H|H].
  - destruct s as [|d s]; [discriminate|]. cbn [closes_at_once] in H.
    apply N.eqb_eq in H. subst d. unfold removed. cbn [re_sub_from].
    rewrite m_gt. reflexivity.
  - rewrite (removal_lacks _ _ prev 0 H). apply orb_true_r.
Qed.

Lemma removal_tag_free s : forall prev k,
  tag_free s = true -> tag_free (removed prev k s) = true.
Proof.
  induction s as [|c s IH]; intros prev k H; [reflexivity|].
  cbn [tag_free] in H. apply andb_true_iff in H. destruct H as [Hc Hs].
  unfold removed in *. cbn [re_sub_from]. destruct k as [|k]; [|now apply IH].
  assert (Hkeep : tag_free (c :: re_sub_from m (fun _ => []) (Some c) 0 s) = true).
  { cbn [tag_free]. rewrite (IH _ _ Hs), andb_true_r.
    apply orb_true_iff in Hc. destruct Hc as [->|Hc]; [reflexivity|].
    pose proof (removal_ok_after s (Some c) Hc) as Ho. unfold removed in Ho.
    rewrite Ho. apply orb_true_r. }
  destruct (m prev (c :: s)) as [[|n]|]; [exact Hkeep | now apply IH | exact Hkeep].
Qed.
End Removal.

Lemma m_tag_gt prev s : m_tag prev (chr ">" :: s) = None.
Proof. reflexivity. Qed.

Lemma m_url_gt prev s : m_url prev (chr ">" :: s) = None.
Proof. unfold m_url, m_http, m_www. now destruct s as [|? [|? [|? ?]]]. Qed.

(** After the tag substitution no tag is left. *)
Lemma tags_removed s : forall prev k,
  tag_free (re_sub_from m_tag (fun _ => []) prev k s) = true.
Proof.
  induction s as [|c s IH]; intros prev k; [reflexivity|].
  cbn [re_sub_from]. destruct k as [|k]; [|apply IH].
  destruct (m_tag prev (c :: s)) as [[|n]|] eqn:Hm; [| apply IH |].
  - rewrite m_tag_cons in Hm. destruct (c =? chr "<")%N; [|discriminate].
    destruct (span not_gt s); [discriminate|].
    destruct (skipn _ s) as [|d ?]; [discriminate|].
    destruct (d =? chr ">")%N; [|discriminate].
    rewrite Nat.add_comm in Hm. discriminate.
  - cbn [tag_free]. rewrite IH, andb_true_r.
    apply m_tag_none in Hm. destruct Hm as [->|Hm]; [reflexivity|].
    rewrite (removal_ok_after m_tag m_tag_gt s (Some c) Hm). apply orb_true_r.
Qed.

(** *** Edits that leave the angle brackets alone *)


Lemma edit_refl t : edit t t.
Proof. induction t; now constructor. Qed.

Lemma edit_app a a' b b' : edit a a' -> edit b b' -> edit (a ++ b) (a' ++ b').
Proof. induction 1; intros Hb; cbn [app]; auto; now constructor; auto. Qed.

Lemma edit_rev t t' : edit t t' -> edit (rev t) (rev t').
Proof.
  induction 1 as [|c t t' _ IH|c t t' Hc _ IH|c c' t t' Hc Hc' _ IH]; cbn [rev].
  - constructor.
  - apply edit_app; [exact IH | apply edit_refl].
  - rewrite <- (app_nil_r (rev t')). apply edit_app; [exact IH|].
    now apply edit_drop; [|constructor].
  - apply edit_app; [exact IH|]. now apply edit_swap; [| |constructor].
Qed.

Lemma not_angle_gt c : is_angle c = false -> (c =? chr ">")%N = false.
Proof. unfold is_angle. intros H. apply orb_false_iff in H. tauto. Qed.

Lemma not_angle_lt c : is_angle c = false -> (c =? chr "<")%N = false.
Proof. unfold is_angle. intros H. apply orb_false_iff in H. tauto. Qed.

Lemma edit_lacks_gt t t' :
  edit t t' -> lacks (chr ">") t = true -> lacks (chr ">") t' = true.
Proof.
  unfold lacks.
  induction 1 as [|c t t' _ IH|c t t' Hc _ IH|c c' t t' Hc Hc' _ IH];
    cbn [forallb]; intros H; auto; apply andb_true_iff in H; destruct H as [Hx Ht]; auto.
  - now rewrite Hx, IH.
  - now rewrite (not_angle_gt _ Hc'), IH.
Qed.

Lemma edit_ok_after t t' : edit t t' -> ok_after t = true -> ok_after t' = true.
Proof.
  unfold ok_after. intros He H. apply orb_true_iff in H. destruct H as [H|H].
  - destruct He as [|c t t' _|c t t' Hc _|c c' t t' Hc _ _]; cbn [closes_at_once] in *.
    + discriminate.
    + now rewrite H.
    + rewrite (not_angle_gt _ Hc) in H. discriminate.
    + rewrite (not_angle_gt _ Hc) in H. discriminate.
  - rewrite (edit_lacks_gt _ _ He H). apply orb_true_r.
Qed.

Lemma edit_tag_free t t' : edit t t' -> tag_free t = true -> tag_free t' = true.
Proof.
  induction 1 as [|c t t' He IH|c t t' Hc He IH|c c' t t' Hc Hc' He IH];
    cbn [tag_free]; intros H; auto; apply andb_true_iff in H; destruct H as [Hx Ht].
  - rewrite (IH Ht), andb_true_r. apply orb_true_iff in Hx.
    destruct Hx as [->|Hx]; [reflexivity|].
    rewrite (edit_ok_after _ _ He Hx). apply orb_true_r.
  - now apply IH.
  - now rewrite (not_angle_lt _ Hc'), (IH Ht).
Qed.

Lemma space_not_angle c : isspace c = true -> is_angle c = false.
Proof.
  intros H. unfold is_angle.
  destruct (N.eqb_spec c (chr "<")) as [->|_]; [discriminate|].
  destruct (N.eqb_spec c (chr ">")) as [->|_]; [discriminate | reflexivity].
Qed.

Lemma bang_not_angle c : is_bang c = true -> is_angle c = false.
Proof.
  intros H. unfold is_angle.
  destruct (N.eqb_spec c (chr "<")) as [->|_]; [discriminate|].
  destruct (N.eqb_spec c (chr ">")) as [->|_]; [discriminate | reflexivity].
Qed.

Lemma edit_filter keep s :
  (forall c, keep c = false -> is_angle c = false) -> edit s (filter keep s).
Proof.
  intros Hk. induction s as [|c s IH]; cbn [filter]; [constructor|].
  destruct (keep c) eqn:E; [now constructor | apply edit_drop; auto].
Qed.

Lemma edit_lstrip s : edit s (lstrip s).
Proof.
  induction s as [|c s IH]; cbn [lstrip]; [constructor|].
  destruct (isspace c) eqn:E; [|apply edit_refl].
  apply edit_drop; [now apply space_not_angle | exact IH].
Qed.

Lemma edit_strip_tag_free s : tag_free s = true -> tag_free (strip s) = true.
Proof.
  intros H. unfold strip, rstrip.
  apply (edit_tag_free (lstrip s)); [|exact (edit_tag_free _ _ (edit_lstrip s) H)].
  rewrite <- (rev_involutive (lstrip s)) at 1.
  apply edit_rev, edit_lstrip.
Qed.

(** A substitution whose matches cover no angle bracket and whose
    replacement is one character that is no angle bracket. *)
Section OneForMany.
Variable m : option codepoint -> pystr -> option nat.
Variable r : pystr -> pystr.
Variable p : codepoint -> bool.

Hypothesis p_not_angle : forall c, p c = true -> is_angle c = false.
Hypothesis m_covers : forall prev s n,
  m prev s = Some (S n) -> forallb p (firstn (S n) s) = true.
Hypothesis r_one : forall x,
  x <> [] -> forallb p x = true -> exists c, r x = [c] /\ is_angle c = false.

Lemma edit_re_sub s : forall prev k,
  forallb p (firstn k s) = true -> edit s (re_sub_from m r prev k s).
Proof.
  induction s as [|c s IH]; intros prev k Hk; [constructor|].
  cbn [re_sub_from]. destruct k as [|k].
  - destruct (m prev (c :: s)) as [[|n]|] eqn:Hm;
      [apply edit_keep, IH; reflexivity | | apply edit_keep, IH; reflexivity].
    pose proof (m_covers _ _ _ Hm) as Hcov.
    destruct (r_one (firstn (S n) (c :: s))) as (c' & -> & Hc'); [discriminate | exact Hcov |].
    cbn [firstn forallb] in Hcov. apply andb_true_iff in Hcov. destruct Hcov as [Hc Hn].
    cbn [app]. apply edit_swap; auto.
  - cbn [firstn forallb] in Hk. apply andb_true_iff in Hk. destruct Hk as [Hc Hn].
    apply edit_drop; auto.
Qed.
End OneForMany.

Lemma m_spaces_covers prev s n :
  m_spaces prev s = Some (S n) -> forallb isspace (firstn (S n) s) = true.
Proof.
  unfold m_spaces. destruct (span isspace s) eqn:E; [discriminate|].
  intros H. injection H as <-. rewrite <- E. apply firstn_span.
Qed.

Lemma m_bangs_covers prev s n :
  m_bangs prev s = Some (S n) -> forallb is_bang (firstn (S n) s) = true.
Proof.
  unfold m_bangs. destruct (2 <=? span is_bang s)%nat; [|discriminate].
  intros H. injection H as H. rewrite <- H. apply firstn_span.
Qed.

Lemma last_char_one x :
  x <> [] -> forallb is_bang x = true ->
  exists c, last_char x = [c] /\ is_angle c = false.
Proof.
  intros Hne Hall. unfold last_char.
  destruct (rev x) as [|c l] eqn:E.
  - apply (f_equal (@rev codepoint)) in E. rewrite rev_involutive in E. contradiction.
  - exists c. split; [reflexivity|]. apply bang_not_angle.
    rewrite forallb_forall in Hall. apply Hall, in_rev. rewrite E. now left.
Qed.

(** The tag half of sanitiser safety: for every input and every
    runtime, no substring of the output of [sanitize_text] matches the
    tag pattern [<[^>]+>]. *)
Theorem sanitizer_output_has_no_tag rt text :
  re_search m_tag (sanitize_text rt text) = false.
Proof.
  apply tag_free_search. unfold sanitize_text.
  destruct (negb (nonempty text)); [reflexivity|]. cbv zeta.
  apply edit_strip_tag_free.
  eapply edit_tag_free.
  { apply (edit_re_sub m_bangs last_char is_bang bang_not_angle m_bangs_covers last_char_one).
    reflexivity. }
  eapply edit_tag_free.
  { apply (edit_re_sub m_spaces (fun _ => lit " ") isspace space_not_angle m_spaces_covers).
    - intros x _ _. exists (chr " "). split; reflexivity.
    - reflexivity. }
  eapply edit_tag_free.
  { apply edit_filter. intros c Hc. apply orb_false_iff in Hc. destruct Hc as [Hc _].
    unfold is_angle.
    destruct (N.eqb_spec c (chr "<")) as [->|_]; [discriminate|].
    destruct (N.eqb_spec c (chr ">")) as [->|_]; [discriminate | reflexivity]. }
  apply (removal_tag_free m_url m_url_gt).
  apply tags_removed.
Qed.

(** ** Further scenarios of the specification *)

(** Scenario 2: an accepted record without a (truthy) [article_id] gets
    the positional placeholder; at index 2 that is [article_0002]. *)
Theorem missing_id_is_positional rt raw idx v :
  (exists aid, get raw "article_id" VNone = Ret aid /\ truthy aid = false) ->
  validate_and_enforce_schema rt raw idx = Ret (Some v) ->
  article_id v = lit "article_" ++ format_04d idx.
Proof.
  intros (aid & Hget & Hfalsy) H.
  apply validate_accept_body, validate_body_accept in H.
  destruct H as (_ & _ & _ & (aid' & Hget' & Hid) & _).
  rewrite Hget in Hget'. injection Hget' as <-.
  now rewrite Hfalsy in Hid.
Qed.

Lemma missing_id_is_positional_witness :
  exists v, validate_and_enforce_schema sample_runtime scenario1_raw 2 = Ret (Some v)
            /\ article_id v = lit "article_0002".
Proof.
  eexists. split; [vm_compute; reflexivity|].
  apply (missing_id_is_positional sample_runtime scenario1_raw 2);
    [exists VNone; split; reflexivity | vm_compute; reflexivity].
Defined.

(** Scenario 5: with numeric normalisation enabled every standalone
    run of digits becomes the placeholder; disabled, the text is
    returned unchanged. *)
Theorem scenario5_numbers rt :
  normalize_numbers rt (lit "lost 3 of 10 matches") true
  = lit "lost <NUM> of <NUM> matches"
  /\ forall text, normalize_numbers rt text false = text.
Proof. split; [vm_compute; reflexivity | reflexivity]. Qed.

(** Flag additivity: the gate only appends to [_flags], and what it
    appends is decided by the length of the text: [extremely_long]
    above [max_length], then [very_short] below 100, so zero, one or
    two flags and nothing else. *)
Theorem gate_flags_only_grow a min_length max_length checked :
  perform_linguistic_checks a min_length max_length = Some checked ->
  exists added,
    flags_or_empty checked = flags_or_empty a ++ added
    /\ added
       = (if (len (body_text a) >? max_length)%Z then [lit "extremely_long"] else [])
         ++ (if (len (body_text a) <? 100)%Z then [lit "very_short"] else [])
    /\ (List.length added <= 2)%nat.
Proof.
  unfold perform_linguistic_checks.
  destruct (negb _); [discriminate|].
  destruct (_ <? min_length)%Z; [discriminate|].
  destruct (_ >? _)%Z, (_ <? 100)%Z; intros H; injection H as <-;
    unfold flags_or_empty; cbn [flags set_flags];
    eexists; (split; [|split; [reflexivity | cbn; lia]]);
    cbn [app]; rewrite <- ?app_assoc, ?app_nil_r; reflexivity.
Qed.

Lemma gate_flags_only_grow_witness :
  exists checked,
    perform_linguistic_checks flagged_article 10 12 = Some checked
    /\ flags_or_empty checked
       = [lit "imported"; lit "extremely_long"; lit "very_short"]
    /\ exists added,
         flags_or_empty checked = flags_or_empty flagged_article ++ added
         /\ added
            = (if (len (body_text flagged_article) >? 12)%Z
               then [lit "extremely_long"] else [])
              ++ (if (len (body_text flagged_article) <? 100)%Z
                  then [lit "very_short"] else [])
         /\ (List.length added <= 2)%nat.
Proof.
  eexists. split; [vm_compute; reflexivity|]. split; [reflexivity|].
  apply (gate_flags_only_grow flagged_article 10 12). vm_compute; reflexivity.
Defined.

(** * Further properties of the cleaning steps *)

(** ** What a substitution keeps *)

Lemma forallb_rev_true (P : codepoint -> bool) s :
  forallb P s = true -> forallb P (rev s) = true.
Proof.
  rewrite !forallb_forall. intros H x Hx. apply H. now apply in_rev.
Qed.

Lemma forallb_lstrip (P : codepoint -> bool) s :
  forallb P s = true -> forallb P (lstrip s) = true.
Proof.
  induction s as [|c s IH]; [reflexivity|]. cbn [lstrip]. intros H.
  destruct (isspace c); [|exact H].
  cbn [forallb] in H. apply andb_true_iff in H. now apply IH.
Qed.

Lemma forallb_strip (P : codepoint -> bool) s :
  forallb P s = true -> forallb P (strip s) = true.
Proof.
  intros H. unfold strip, rstrip.
  now apply forallb_rev_true, forallb_lstrip, forallb_rev_true, forallb_lstrip.
Qed.

(** ** The sanitiser's output *)

Lemma printable_nonspace c :
  (printable c || isspace c) = true -> isspace c = false -> ascii_printable c = true.
Proof.
  unfold printable, ascii_printable. intros H Hs. rewrite Hs, orb_false_r in H.
  apply orb_true_iff in H. destruct H as [H|H]; [exact H|].
  exfalso. unfold isspace in Hs. rewrite H in Hs. discriminate.
Qed.

(** After [\s+] has become one space, only visible ASCII and spaces are
    left of a text of printable and blank characters. *)
Lemma spaces_collapsed_printable s : forall prev k,
  forallb (fun c => printable c || isspace c) s = true ->
  forallb ascii_printable (re_sub_from m_spaces (fun _ => lit " ") prev k s) = true.
Proof.
  induction s as [|c s IH]; intros prev k H; [reflexivity|].
  cbn [forallb] in H. apply andb_true_iff in H. destruct H as [Hc Hs].
  cbn [re_sub_from]. destruct k as [|k]; [|now apply IH].
  pose proof (printable_nonspace c Hc) as Hp.
  unfold m_spaces. cbn [span]. destruct (isspace c) eqn:E.
  - rewrite forallb_app, IH by assumption. reflexivity.
  - cbn [forallb]. now rewrite (Hp eq_refl), IH.
Qed.

Lemma last_char_forallb (P : codepoint -> bool) x :
  forallb P x = true -> forallb P (last_char x) = true.
Proof.
  intros H. unfold last_char. apply forallb_rev_true in H.
  destruct (rev x) as [|c l]; [reflexivity|].
  cbn [forallb] in *. apply andb_true_iff in H. destruct H as [-> _]. reflexivity.
Qed.

Lemma lstrip_head s : head_fails isspace (lstrip s) = true.
Proof.
  induction s as [|c s IH]; [reflexivity|]. cbn [lstrip].
  destruct (isspace c) eqn:E; [exact IH|]. cbn [head_fails]. now rewrite E.
Qed.

Lemma strip_trimmed s : trimmed (strip s).
Proof.
  unfold trimmed, strip, rstrip. split.
  - pose proof (lstrip_head s) as H. destruct (lstrip s) as [|c t]; [reflexivity|].
    cbn [head_fails] in H. apply negb_true_iff in H. cbn [rev].
    destruct (lstrip_keeps_last c H (rev t)) as [l' ->].
    rewrite rev_app_distr. cbn [rev app head_fails]. now rewrite H.
  - rewrite rev_involutive. apply lstrip_head.
Qed.

Lemma sanitize_text_printable rt text :
  forallb ascii_printable (sanitize_text rt text) = true.
Proof.
  unfold sanitize_text. destruct (negb (nonempty text)); [reflexivity|].
  cbv zeta. apply forallb_strip. unfold re_sub.
  apply re_sub_forallb; [apply last_char_forallb|].
  apply spaces_collapsed_printable.
  unfold codepoint. rewrite forallb_forall. intros c Hc.
  apply filter_In in Hc. tauto.
Qed.

Lemma sanitize_text_trimmed rt text : trimmed (sanitize_text rt text).
Proof.
  unfold sanitize_text. destruct (negb (nonempty text)); [now split|].
  apply strip_trimmed.
Qed.

(** The output of [sanitize_text] is plain text: every character is a
    visible ASCII character or a space (code points 32 to 126, so no
    tab, newline or control character survives), and neither end is
    blank. *)
Theorem sanitizer_output_printable rt text :
  forallb ascii_printable (sanitize_text rt text) = true
  /\ trimmed (sanitize_text rt text).
Proof.
  split; [apply sanitize_text_printable | apply sanitize_text_trimmed].
Qed.

(** ** Visible ASCII through steps 3 to 5 *)

Lemma ascii_printable_is_ascii s :
  forallb ascii_printable s = true -> forallb is_ascii s = true.
Proof.
  rewrite !forallb_forall. intros H c Hc. specialize (H c Hc).
  unfold ascii_printable, in_range, is_ascii in *.
  apply andb_true_iff in H. destruct H as [_ H]. apply N.leb_le in H.
  apply N.ltb_lt. lia.
Qed.

Lemma ascii_lower_printable s :
  forallb ascii_printable s = true -> forallb ascii_printable (map ascii_lower s) = true.
Proof.
  rewrite !forallb_forall. intros H c Hc. apply in_map_iff in Hc.
  destruct Hc as (x & <- & Hx). specialize (H x Hx).
  unfold ascii_printable, ascii_lower, in_range in *.
  destruct ((65 <=? x)%N && (x <=? 90)%N) eqn:E; [|exact H].
  apply andb_true_iff in E. destruct E as [E1 E2].
  apply N.leb_le in E1. apply N.leb_le in E2.
  apply andb_true_iff. split; apply N.leb_le; lia.
Qed.

(** On visible ASCII the normaliser needs no Unicode table and returns
    visible ASCII. *)
Lemma normalize_case_printable rt s :
  forallb ascii_printable s = true ->
  forallb ascii_printable (normalize_unicode_and_case rt s) = true.
Proof.
  intros H. unfold normalize_unicode_and_case.
  destruct (negb (nonempty s)); [reflexivity|]. cbv zeta.
  pose proof (ascii_printable_is_ascii s H) as Ha.
  unfold nfkc. rewrite Ha. unfold str_lower. rewrite Ha.
  repeat apply replace_char_forallb; try reflexivity.
  unfold str_replace, re_sub. apply re_sub_forallb; [reflexivity|].
  now apply ascii_lower_printable.
Qed.

Lemma spaced_forallb (P : codepoint -> bool) x :
  P (chr " ") = true -> forallb P x = true -> forallb P (spaced x) = true.
Proof.
  intros Hsp H. unfold spaced. destruct x as [|a [|b [|? ?]]]; try exact H.
  cbn [forallb] in *. apply andb_true_iff in H. destruct H as [-> H].
  now rewrite Hsp.
Qed.

Lemma normalize_boundaries_printable s :
  forallb ascii_printable s = true ->
  forallb ascii_printable (normalize_sentence_boundaries s) = true.
Proof.
  intros H. unfold normalize_sentence_boundaries.
  destruct (negb (nonempty s)); [reflexivity|]. cbv zeta.
  apply forallb_strip. unfold re_sub.
  apply re_sub_forallb; [intros x; now apply spaced_forallb|].
  repeat (apply re_sub_forallb; [reflexivity|]). exact H.
Qed.

Lemma normalize_numbers_printable rt s flag :
  forallb ascii_printable s = true ->
  forallb ascii_printable (normalize_numbers rt s flag) = true.
Proof.
  intros H. unfold normalize_numbers.
  destruct (negb flag || negb (nonempty s)); [exact H|].
  unfold re_sub. now apply re_sub_forallb.
Qed.

(** ** Emitted articles *)

Lemma process_record_inv rt flag min_length max_length raw idx a :
  process_record rt flag min_length max_length raw idx = Ret (Some a) ->
  exists v checked,
    validate_and_enforce_schema rt raw (Z.of_nat idx) = Ret (Some v)
    /\ perform_linguistic_checks (normalise_record rt flag v) min_length max_length
       = Some checked
    /\ a = add_derived_statistics checked.
Proof.
  unfold process_record.
  destruct (validate_and_enforce_schema rt raw (Z.of_nat idx)) as [[v|]|e];
    simpl; try discriminate.
  destruct (perform_linguistic_checks _ _ _) as [checked|] eqn:Hg; [|discriminate].
  intros H. injection H as <-. now exists v, checked.
Qed.

(** Every article of the output was produced by the loop body from a
    record of the batch. *)
Lemma emitted_from_record rt flag min_length max_length raws out a :
  process_articles rt flag min_length max_length raws = Ret out ->
  In a out ->
  exists raw j,
    nth_error raws j = Some raw
    /\ process_record rt flag min_length max_length raw j = Ret (Some a).
Proof.
  intros Hout Hin.
  destruct (process_loop_spec rt flag min_length max_length raws 0 [])
    as (new & js & Hl & _ & _ & Hp).
  unfold process_articles in Hout. simpl in Hl. rewrite Hl in Hout.
  injection Hout as <-.
  destruct (@Forall2_In_r _ _ _ _ _ _ Hp Hin) as (j & _ & raw & Hn & Hr).
  now exists raw, j.
Qed.

(** The title after steps 2 and 3. *)
Lemma normalise_record_title rt flag v :
  title (normalise_record rt flag v)
  = option_map (fun t => normalize_unicode_and_case rt (sanitize_text rt t)) (title v).
Proof.
  unfold normalise_record. destruct (title v) as [t|] eqn:Et; cbn [option_map].
  - destruct (nonempty t) eqn:Ht.
    + destruct (nonempty (sanitize_text rt t)) eqn:Hs; cbn; [reflexivity|].
      destruct (sanitize_text rt t); [reflexivity | discriminate].
    + cbn. rewrite Ht. cbn. rewrite Et. destruct t; [reflexivity | discriminate].
  - cbn. exact Et.
Qed.

Lemma gate_keeps_title a min_length max_length checked :
  perform_linguistic_checks a min_length max_length = Some checked ->
  title checked = title a.
Proof.
  unfold perform_linguistic_checks.
  destruct (negb _); [discriminate|].
  destruct (_ <? min_length)%Z; [discriminate|].
  destruct (_ >? _)%Z, (_ <? 100)%Z; intros H; injection H as <-; reflexivity.
Qed.

(** Every emitted article is plain text: the [body_text], and the
    [title] when there is one, hold only characters 32 to 126 (no
    control character, no tab or newline, nothing outside ASCII). *)
Theorem emitted_text_is_visible_ascii rt flag min_length max_length raws out a :
  process_articles rt flag min_length max_length raws = Ret out ->
  In a out ->
  forallb ascii_printable (body_text a) = true
  /\ match title a with
     | Some t => forallb ascii_printable t = true
     | None => True
     end.
Proof.
  intros Hout Hin.
  destruct (emitted_from_record _ _ _ _ _ _ _ Hout Hin) as (raw & j & _ & Hr).
  apply process_record_inv in Hr. destruct Hr as (v & checked & _ & Hg & ->).
  rewrite stats_keep_body. change (title (add_derived_statistics checked)) with (title checked).
  rewrite (gate_keeps_title _ _ _ _ Hg).
  apply gate_accepts in Hg. destruct Hg as (-> & _ & _).
  rewrite normalise_record_body, normalise_record_title. split.
  - apply normalize_numbers_printable, normalize_boundaries_printable,
      normalize_case_printable, sanitize_text_printable.
  - destruct (title v) as [t|]; [|exact I]. cbn [option_map].
    apply normalize_case_printable, sanitize_text_printable.
Qed.

Lemma emitted_text_is_visible_ascii_witness :
  exists a, process_articles sample_runtime true 10 100000 [scenario1_raw] = Ret [a]
            /\ forallb ascii_printable (body_text a) = true
            /\ match title a with
               | Some t => forallb ascii_printable t = true
               | None => True
               end.
Proof.
  eexists. split; [vm_compute; reflexivity|].
  eapply (emitted_text_is_visible_ascii sample_runtime true 10 100000 [scenario1_raw]);
    [vm_compute; reflexivity | left; reflexivity].
Defined.

(** ** Tokens of an emitted article *)

Lemma split_ws_from_length s : forall cur,
  (List.length (split_ws_from cur s)
   <= List.length s + (if nonempty cur then 1 else 0))%nat.
Proof.
  induction s as [|c s IH]; intros cur; cbn [split_ws_from List.length].
  - destruct cur; cbn; lia.
  - destruct (isspace c).
    + destruct cur as [|x cur]; cbn [List.length nonempty].
      * specialize (IH []). cbn [nonempty] in IH. lia.
      * specialize (IH []). cbn [nonempty] in IH. lia.
    + specialize (IH (c :: cur)). cbn [nonempty] in IH.
      destruct (nonempty cur); lia.
Qed.

Lemma split_ws_from_nonempty s : forall cur,
  cur <> [] -> (1 <= List.length (split_ws_from cur s))%nat.
Proof.
  induction s as [|c s IH]; intros cur Hne; cbn [split_ws_from].
  - destruct cur; [congruence | cbn; lia].
  - destruct (isspace c).
    + destruct cur; [congruence | cbn [List.length]; lia].
    + apply IH. discriminate.
Qed.

(** A text has at most as many tokens as characters, and at least one
    when it starts with a character that is not blank. *)
Lemma token_bounds s :
  (List.length (split_ws s) <= List.length s)%nat
  /\ (s <> [] -> head_fails isspace s = true -> (1 <= List.length (split_ws s))%nat).
Proof.
  split.
  - pose proof (split_ws_from_length s []) as H. cbn [nonempty] in H.
    unfold split_ws. lia.
  - intros Hne Hh. destruct s as [|c s]; [congruence|].
    cbn [head_fails] in Hh. apply negb_true_iff in Hh.
    unfold split_ws. cbn [split_ws_from]. rewrite Hh.
    apply split_ws_from_nonempty. discriminate.
Qed.

Lemma normalize_boundaries_head s :
  head_fails isspace (normalize_sentence_boundaries s) = true.
Proof.
  unfold normalize_sentence_boundaries. destruct (negb (nonempty s)); [reflexivity|].
  apply strip_trimmed.
Qed.

Lemma normalize_numbers_head rt s flag :
  head_fails isspace s = true ->
  head_fails isspace (normalize_numbers rt s flag) = true.
Proof.
  intros H. unfold normalize_numbers.
  destruct (negb flag || negb (nonempty s)); [exact H|].
  destruct s as [|c s]; [reflexivity|]. unfold re_sub. cbn [re_sub_from].
  destruct (m_number rt None (c :: s)) as [[|n]|]; try exact H. reflexivity.
Qed.

(** Every emitted article has at least one token and no more tokens
    than characters; [token_count] is the number of whitespace-delimited
    tokens of the final [body_text]. *)
Theorem emitted_token_count rt flag min_length max_length raws out a :
  process_articles rt flag min_length max_length raws = Ret out ->
  In a out ->
  token_count a = Some (List.length (split_ws (body_text a)))
  /\ (1 <= List.length (split_ws (body_text a)) <= List.length (body_text a))%nat.
Proof.
  intros Hout Hin.
  destruct (emitted_from_record _ _ _ _ _ _ _ Hout Hin) as (raw & j & _ & Hr).
  apply process_record_inv in Hr. destruct Hr as (v & checked & _ & Hg & ->).
  split; [reflexivity|]. rewrite stats_keep_body.
  apply gate_accepts in Hg. destruct Hg as (Hb & Hne & _). rewrite Hb in *.
  destruct (token_bounds (body_text (normalise_record rt flag v))) as [Hle Hge].
  split; [|exact Hle]. apply Hge; [exact Hne|].
  rewrite normalise_record_body.
  apply normalize_numbers_head, normalize_boundaries_head.
Qed.

Lemma emitted_token_count_witness :
  exists a, process_articles sample_runtime false 10 100000 [scenario4_raw] = Ret [a]
            /\ token_count a = Some (List.length (split_ws (body_text a)))
            /\ (1 <= List.length (split_ws (body_text a)) <= List.length (body_text a))%nat.
Proof.
  eexists. split; [vm_compute; reflexivity|].
  eapply (emitted_token_count sample_runtime false 10 100000 [scenario4_raw]);
    [vm_compute; reflexivity | left; reflexivity].
Defined.

(** ** Flags of an emitted article *)





(** ** The publish date *)

Lemma iso_fragment_whole_second s d :
  iso_fragment s = Some d -> dt_microsecond d = 0%Z.
Proof.
  unfold iso_fragment. destruct (iso_date s) as [[[[y m] dd] rest]|]; [|discriminate].
  destruct rest as [|sep rest]; [intros H; injection H as <-; reflexivity|].
  destruct (_ || _)%bool; [|discriminate].
  destruct (iso_time rest) as [[[[h mi] sec] tz]|]; [|discriminate].
  destruct tz as [|c tz]; [intros H; injection H as <-; reflexivity|].
  destruct (iso_offset (c :: tz)); [|discriminate].
  intros H; injection H as <-; reflexivity.
Qed.

Lemma accepted_pub_date rt raw idx v pd :
  pub_date_of raw = Ret pd ->
  validate_and_enforce_schema rt raw idx = Ret (Some v) ->
  parse_pub_date rt pd = Ret (pub_datetime v).
Proof.
  intros Hsrc H. apply validate_accept_body, validate_body_accept in H.
  destruct H as (_ & _ & (pd' & Hpd & Hparse) & _ & _).
  rewrite Hsrc in Hpd. now injection Hpd as <-.
Qed.

(** A publish date given as an integer is taken as the Unix time it
    is, except 0, which is falsy and leaves [pub_datetime] empty. *)
Theorem integer_pub_date_passes_through rt raw idx v z :
  pub_date_of raw = Ret (VInt z) ->
  validate_and_enforce_schema rt raw idx = Ret (Some v) ->
  pub_datetime v = if (z =? 0)%Z then None else Some z.
Proof.
  intros Hsrc H. pose proof (accepted_pub_date _ _ _ _ _ Hsrc H) as Hp.
  unfold parse_pub_date in Hp. cbn [truthy] in Hp.
  destruct (z =? 0)%Z; cbn in Hp; now injection Hp.
Qed.

Lemma integer_pub_date_passes_through_witness :
  exists v,
    validate_and_enforce_schema sample_runtime
      (VDict [ (lit "title", VStr (lit "A title long enough"));
               (lit "pubDate", VInt 1714557600) ]) 0 = Ret (Some v)
    /\ pub_datetime v = Some 1714557600%Z.
Proof.
  eexists. split; [vm_compute; reflexivity|].
  refine (integer_pub_date_passes_through sample_runtime
            (VDict [ (lit "title", VStr (lit "A title long enough"));
                     (lit "pubDate", VInt 1714557600) ]) 0 _ 1714557600%Z _ _);
    vm_compute; reflexivity.
Defined.

(** A publish date written in ISO-8601 with a UTC offset (a trailing Z
    counting as +00:00) gives the Unix time of that instant, the same
    on every machine: neither the local time zone nor the fallback
    patterns take part. *)
Theorem aware_iso_pub_date rt raw idx v s d off :
  pub_date_of raw = Ret (VStr s) ->
  iso_fragment (replace_char (chr "Z") (lit "+00:00") s) = Some d ->
  dt_utcoffset d = Some off ->
  validate_and_enforce_schema rt raw idx = Ret (Some v) ->
  pub_datetime v = Some (aware_seconds d off).
Proof.
  intros Hsrc Hd Hoff H. pose proof (accepted_pub_date _ _ _ _ _ Hsrc H) as Hp.
  assert (Hs : truthy (VStr s) = true).
  { destruct s; [discriminate Hd | reflexivity]. }
  unfold parse_pub_date in Hp. rewrite Hs in Hp.
  unfold fromisoformat in Hp. rewrite Hd in Hp. cbn in Hp.
  unfold int_timestamp in Hp.
  rewrite Hoff, (iso_fragment_whole_second _ _ Hd) in Hp. cbn in Hp.
  now injection Hp.
Qed.

Lemma aware_iso_pub_date_witness :
  exists v,
    validate_and_enforce_schema sample_runtime
      (VDict [ (lit "title", VStr (lit "A title long enough"));
               (lit "pub_date", VStr (lit "2024-05-01 12:30:00+02:30")) ]) 0
    = Ret (Some v)
    /\ pub_datetime v = Some 1714557600%Z.
Proof.
  eexists. split; [vm_compute; reflexivity|].
  change (Some 1714557600%Z)
    with (Some (aware_seconds (Build_datetime 2024 5 1 12 30 0 0 (Some 9000%Z)) 9000)).
  refine (aware_iso_pub_date sample_runtime
            (VDict [ (lit "title", VStr (lit "A title long enough"));
                     (lit "pub_date", VStr (lit "2024-05-01 12:30:00+02:30")) ]) 0 _
            (lit "2024-05-01 12:30:00+02:30")
            (Build_datetime 2024 5 1 12 30 0 0 (Some 9000%Z)) 9000%Z _ _ _ _);
    vm_compute; reflexivity.
Defined.

(** * File names of the storage steps *)

(** ** Decimal numerals *)

Lemma uint_digits_inj u : forall v, uint_digits u = uint_digits v -> u = v.
Proof.
  induction u; intros v H; destruct v; cbn in H; try discriminate H;
    try reflexivity; injection H as H; f_equal; now apply IHu.
Qed.

Lemma decimal_inj n m : decimal n = decimal m -> n = m.
Proof.
  unfold decimal. intros H. apply uint_digits_inj in H.
  now apply DecimalN.Unsigned.to_uint_inj.
Qed.

Lemma unorm_leading_zero d x : Decimal.unorm d = Decimal.D0 x -> x = Decimal.Nil.
Proof.
  induction d; cbn; intros H; try discriminate H; auto.
  now injection H as <-.
Qed.

(** A numeral has a digit, and only that of 0 starts with a zero. *)
Lemma decimal_shape n :
  exists c rest, decimal n = c :: rest
                 /\ in_range 48 57 c = true
                 /\ (c = 48%N -> rest = []).
Proof.
  unfold decimal.
  assert (Hn : Decimal.unorm (N.to_uint n) = N.to_uint n).
  { rewrite <- (DecimalN.Unsigned.of_to n) at 2.
    now rewrite DecimalN.Unsigned.to_of. }
  destruct (N.to_uint n) as [|u|u|u|u|u|u|u|u|u|u] eqn:E; cbn [uint_digits].
  - cbn in Hn. discriminate Hn.
  - exists 48%N, (uint_digits u). repeat split. intros _.
    cbn [Decimal.unorm] in Hn. apply unorm_leading_zero in Hn. now subst u.
  - exists 49%N, (uint_digits u). repeat split. discriminate.
  - exists 50%N, (uint_digits u). repeat split. discriminate.
  - exists 51%N, (uint_digits u). repeat split. discriminate.
  - exists 52%N, (uint_digits u). repeat split. discriminate.
  - exists 53%N, (uint_digits u). repeat split. discriminate.
  - exists 54%N, (uint_digits u). repeat split. discriminate.
  - exists 55%N, (uint_digits u). repeat split. discriminate.
  - exists 56%N, (uint_digits u). repeat split. discriminate.
  - exists 57%N, (uint_digits u). repeat split. discriminate.
Qed.

Lemma uint_digits_forallb u : forallb (in_range 48 57) (uint_digits u) = true.
Proof. induction u; cbn; auto. Qed.

(** The two-digit format, case by case. *)
Lemma format_02d_cases n :
  let d := decimal (Z.to_N (Z.abs n)) in
  format_02d n
  = if (n <? 0)%Z then chr "-" :: d
    else match d with [c] => [48%N; c] | _ => d end.
Proof.
  intros d. unfold format_02d. fold d.
  destruct (decimal_shape (Z.to_N (Z.abs n))) as (c & rest & E & _ & _).
  fold d in E. rewrite E. destruct (n <? 0)%Z.
  - cbn [List.length]. replace (1 - S (List.length rest))%nat with 0%nat by lia.
    reflexivity.
  - destruct rest as [|c' rest]; [reflexivity|].
    cbn [List.length]. replace (2 - S (S (List.length rest)))%nat with 0%nat by lia.
    reflexivity.
Qed.

Lemma format_02d_inj n m : format_02d n = format_02d m -> n = m.
Proof.
  rewrite !format_02d_cases.
  destruct (decimal_shape (Z.to_N (Z.abs n))) as (c1 & r1 & E1 & D1 & Z1).
  destruct (decimal_shape (Z.to_N (Z.abs m))) as (c2 & r2 & E2 & D2 & Z2).
  assert (Hkey : decimal (Z.to_N (Z.abs n)) = decimal (Z.to_N (Z.abs m)) ->
                 Z.abs n = Z.abs m).
  { intros H. apply decimal_inj in H. lia. }
  destruct (n <? 0)%Z eqn:Hn, (m <? 0)%Z eqn:Hm;
    rewrite ?Z.ltb_lt, ?Z.ltb_ge in Hn, Hm.
  - intros H. injection H as H. apply Hkey in H. lia.
  - rewrite E2. intros H. exfalso.
    destruct r2 as [|c r2]; injection H as H; subst; discriminate.
  - rewrite E1. intros H. exfalso.
    destruct r1 as [|c r1]; injection H as H; subst; discriminate.
  - intros H. enough (Z.abs n = Z.abs m) by lia. apply Hkey.
    rewrite E1, E2 in *.
    destruct r1 as [|a r1], r2 as [|b r2].
    + now injection H as ->.
    + injection H as <- H. subst r2. specialize (Z2 eq_refl). discriminate.
    + injection H as -> H. specialize (Z1 eq_refl). discriminate.
    + exact H.
Qed.

(** The format ends with a digit. *)
Lemma format_02d_last n :
  exists p c, format_02d n = p ++ [c] /\ in_range 48 57 c = true.
Proof.
  assert (Hd : forall k, exists p c, decimal k = p ++ [c] /\ in_range 48 57 c = true).
  { intros k. destruct (decimal_shape k) as (c & r & E & _ & _).
    pose proof (uint_digits_forallb (N.to_uint k)) as Hall. fold (decimal k) in Hall.
    destruct (exists_last (l := decimal k)) as (p & x & Hx); [rewrite E; discriminate|].
    exists p, x. split; [exact Hx|]. rewrite Hx, forallb_app in Hall.
    apply andb_true_iff in Hall. cbn in Hall. destruct Hall as [_ Hall].
    now rewrite andb_true_r in Hall. }
  rewrite format_02d_cases. destruct (Hd (Z.to_N (Z.abs n))) as (p & c & E & Hc).
  rewrite E. destruct (n <? 0)%Z.
  - exists (chr "-" :: p), c. now split.
  - destruct p as [|a p]; cbn [app].
    + exists [48%N], c. now split.
    + destruct (p ++ [c]) eqn:Ep.
      * destruct p; discriminate Ep.
      * rewrite <- Ep. exists (a :: p), c. now split.
Qed.

(** ** Paths *)

Lemma starts_with_slash_app h x y :
  h <> [] -> starts_with (lit "/") (h ++ x) = starts_with (lit "/") (h ++ y).
Proof. destruct h; [congruence | reflexivity]. Qed.

(** Two names that begin alike and are joined to the same directory
    give the same path only when they are the same name. *)
Lemma path_join_inj a h x y :
  h <> [] -> path_join a (h ++ x) = path_join a (h ++ y) -> x = y.
Proof.
  intros Hh. unfold path_join. rewrite (starts_with_slash_app h x y Hh).
  destruct (starts_with _ _); [apply app_inv_head|].
  destruct (_ || _)%bool; intros H.
  - now apply app_inv_head in H; apply app_inv_head in H.
  - now do 3 apply app_inv_head in H.
Qed.

Lemma raw_path_inj dir prefix date n m :
  path_join dir (raw_filename prefix date n) = path_join dir (raw_filename prefix date m) ->
  n = m.
Proof.
  unfold raw_filename. rewrite !(app_assoc prefix). intros H.
  apply path_join_inj in H; [|destruct prefix; discriminate].
  do 2 apply app_inv_head in H. apply app_inv_tail in H.
  now apply format_02d_inj.
Qed.

Lemma cleaned_is_raw date counter :
  cleaned_filename date counter = raw_filename (lit "clean") date counter.
Proof. reflexivity. Qed.

Lemma output_candidate_inj dir date n m :
  output_candidate dir date n = output_candidate dir date m -> n = m.
Proof.
  unfold output_candidate. intros H.
  apply (path_join_inj dir (lit "data_")) in H; [|discriminate].
  do 2 apply app_inv_head in H. now apply format_02d_inj.
Qed.

(** ** The search for an unused name *)

Section Probe.
Variable A : Type.
Variable taken : Z -> bool.
Variable cand : Z -> A.
Variable loop : nat -> Z -> option A.
Hypothesis loop_S : forall fuel c,
  loop (S fuel) c = if negb (taken c) then Some (cand c) else loop fuel (c + 1)%Z.

Lemma probe_from d : forall s,
  taken (s + Z.of_nat d)%Z = false ->
  exists c, (s <= c <= s + Z.of_nat d)%Z /\ taken c = false
            /\ (forall k, (s <= k < c)%Z -> taken k = true)
            /\ forall fuel, (d < fuel)%nat -> loop fuel s = Some (cand c).
Proof.
  assert (Hhere : forall s d', taken s = false ->
            exists c, (s <= c <= s + Z.of_nat d')%Z /\ taken c = false
                      /\ (forall k, (s <= k < c)%Z -> taken k = true)
                      /\ forall fuel, (d' < fuel)%nat -> loop fuel s = Some (cand c)).
  { intros s d' Hs. exists s. split; [lia|]. split; [exact Hs|]. split; [intros k Hk; lia|].
    intros [|fuel] Hf; [lia|]. now rewrite loop_S, Hs. }
  induction d as [|d IH]; intros s Hfree.
  - apply Hhere. rewrite <- Hfree. f_equal. lia.
  - destruct (taken s) eqn:Hs; [|now apply Hhere].
    destruct (IH (s + 1)%Z) as (c & Hc & Hfc & Hbelow & Hloop).
    { rewrite <- Hfree. f_equal. lia. }
    exists c. split; [lia|]. split; [exact Hfc|]. split.
    + intros k Hk. destruct (Z.eq_dec k s) as [->|Hne]; [exact Hs|].
      apply Hbelow. lia.
    + intros [|fuel] Hf; [lia|]. rewrite loop_S, Hs. apply Hloop. lia.
Qed.

(** When the name of some counter [n] is free, the loop ends, within
    [n] rounds, at the first free counter. *)
Lemma probe_least n :
  (1 <= n)%Z -> taken n = false ->
  exists c, first_free taken c /\ (c <= n)%Z
            /\ forall fuel, (n <= Z.of_nat fuel)%Z -> loop fuel 1%Z = Some (cand c).
Proof.
  intros Hn Hfree.
  destruct (probe_from (Z.to_nat (n - 1)) 1%Z) as (c & Hc & Hfc & Hbelow & Hloop).
  { rewrite <- Hfree. f_equal. lia. }
  exists c. split; [|split].
  - split; [lia|]. split; [exact Hfc | exact Hbelow].
  - lia.
  - intros fuel Hf. apply Hloop. lia.
Qed.

(** Counters with different candidates cannot all be taken when the
    taken candidates are among finitely many entries. *)
Hypothesis cand_inj : forall n m, cand n = cand m -> n = m.

Lemma probe_free_among (entries : list A) :
  (forall k, (1 <= k)%Z -> taken k = true -> In (cand k) entries) ->
  exists n, (1 <= n <= Z.of_nat (S (List.length entries)))%Z /\ taken n = false.
Proof.
  intros Hin. set (N := S (List.length entries)).
  set (ks := map (fun i => Z.of_nat i) (seq 1 N)).
  destruct (forallb taken ks) eqn:Hall.
  - exfalso. rewrite forallb_forall in Hall.
    assert (Hnd : NoDup (map cand ks)).
    { apply Injective_map_NoDup; [intros x y; apply cand_inj|].
      apply Injective_map_NoDup; [intros x y; lia | apply seq_NoDup]. }
    assert (Hincl : incl (map cand ks) entries).
    { intros x Hx. apply in_map_iff in Hx. destruct Hx as (k & <- & Hk).
      apply Hin; [|now apply Hall]. unfold ks in Hk. apply in_map_iff in Hk.
      destruct Hk as (i & <- & Hi). apply in_seq in Hi. lia. }
    pose proof (NoDup_incl_length Hnd Hincl) as Hlen.
    unfold ks in Hlen. rewrite !length_map, length_seq in Hlen. unfold N in Hlen. lia.
  - assert (Hex : existsb (fun k => negb (taken k)) ks = true).
    { clear -Hall. induction ks as [|k ks IH]; [discriminate|].
      cbn in *. destruct (taken k); [now apply IH | reflexivity]. }
    apply existsb_exists in Hex. destruct Hex as (k & Hk & Hfree).
    exists k. split; [|now apply negb_true_iff].
    unfold ks in Hk. apply in_map_iff in Hk. destruct Hk as (i & <- & Hi).
    apply in_seq in Hi. unfold N in *. lia.
Qed.
End Probe.

Lemma raw_loop_S path_exists dir prefix date fuel c :
  save_raw_response_path path_exists dir prefix date (S fuel) c
  = if negb (path_exists (path_join dir (raw_filename prefix date c)))
    then Some (path_join dir (raw_filename prefix date c))
    else save_raw_response_path path_exists dir prefix date fuel (c + 1)%Z.
Proof. reflexivity. Qed.

Lemma cleaned_loop_is_raw path_exists dir date fuel : forall c,
  save_cleaned_articles_path path_exists dir date fuel c
  = save_raw_response_path path_exists dir (lit "clean") date fuel c.
Proof.
  induction fuel as [|fuel IH]; intros c; [reflexivity|].
  cbn [save_cleaned_articles_path save_raw_response_path].
  rewrite cleaned_is_raw. now rewrite IH.
Qed.

Lemma cleaned_loop_S path_exists dir date fuel c :
  save_cleaned_articles_path path_exists dir date (S fuel) c
  = if negb (path_exists (path_join dir (cleaned_filename date c)))
    then Some (path_join dir (cleaned_filename date c))
    else save_cleaned_articles_path path_exists dir date fuel (c + 1)%Z.
Proof. reflexivity. Qed.

Lemma main_loop_S path_exists dir date fuel c :
  main_output_path path_exists dir date (S fuel) c
  = if negb (any_format_exists path_exists (output_candidate dir date c))
    then Some (output_candidate dir date c)
    else main_output_path path_exists dir date fuel (c + 1)%Z.
Proof. reflexivity. Qed.

Lemma existsb_str_eqb_In p l : existsb (str_eqb p) l = true -> In p l.
Proof.
  intros H. apply existsb_exists in H. destruct H as (x & Hx & E).
  unfold str_eqb in E. destruct (list_eq_dec N.eq_dec p x); [now subst | discriminate].
Qed.

(** Names of different counters differ, in each of the three naming
    schemes and also past counter 99, where the number takes three
    digits: two runs never share a file through the counter. *)
Theorem counter_names_never_collide dir prefix date n m :
  (path_join dir (raw_filename prefix date n) = path_join dir (raw_filename prefix date m)
   -> n = m)
  /\ (path_join dir (cleaned_filename date n) = path_join dir (cleaned_filename date m)
      -> n = m)
  /\ (output_candidate dir date n = output_candidate dir date m -> n = m).
Proof.
  split; [apply raw_path_inj|]. split; [|apply output_candidate_inj].
  rewrite !cleaned_is_raw. apply raw_path_inj.
Qed.

(** Step 2 never overwrites: whenever the name of some counter is
    unused, [save_raw_response] leaves its loop, after at most that
    many rounds, with the path of the first counter from 1 on whose
    path does not exist; the paths of all smaller counters exist. *)
Theorem raw_file_is_first_unused path_exists dir prefix date n :
  (1 <= n)%Z ->
  path_exists (path_join dir (raw_filename prefix date n)) = false ->
  exists c,
    first_free (fun k => path_exists (path_join dir (raw_filename prefix date k))) c
    /\ (c <= n)%Z
    /\ forall fuel, (n <= Z.of_nat fuel)%Z ->
         save_raw_response_path path_exists dir prefix date fuel 1
         = Some (path_join dir (raw_filename prefix date c)).
Proof.
  intros Hn Hfree.
  exact (probe_least pystr
           (fun k => path_exists (path_join dir (raw_filename prefix date k)))
           (fun k => path_join dir (raw_filename prefix date k))
           (save_raw_response_path path_exists dir prefix date)
           (raw_loop_S path_exists dir prefix date) n Hn Hfree).
Qed.

Lemma raw_file_is_first_unused_witness :
  exists c,
    first_free (fun k => existsb (str_eqb (path_join (lit "data/raw")
                                            (raw_filename (lit "raw") (lit "20240501") k)))
                           [lit "data/raw/raw_20240501_01.json"]) c
    /\ (c <= 2)%Z
    /\ forall fuel, (2 <= Z.of_nat fuel)%Z ->
         save_raw_response_path
           (fun p => existsb (str_eqb p) [lit "data/raw/raw_20240501_01.json"])
           (lit "data/raw") (lit "raw") (lit "20240501") fuel 1
         = Some (path_join (lit "data/raw") (raw_filename (lit "raw") (lit "20240501") c)).
Proof.
  apply (raw_file_is_first_unused
           (fun p => existsb (str_eqb p) [lit "data/raw/raw_20240501_01.json"])
           (lit "data/raw") (lit "raw") (lit "20240501") 2);
    [lia | vm_compute; reflexivity].
Defined.

(** Step 8 always finds a name and never overwrites: when the
    candidate paths that exist are among finitely many [entries] (the
    files of the output directory), [save_cleaned_articles] leaves its
    loop within one round more than there are entries, with the path
    of the first counter from 1 on whose path does not exist. *)
Theorem cleaned_file_is_first_unused path_exists dir date entries :
  (forall k, (1 <= k)%Z ->
             path_exists (path_join dir (cleaned_filename date k)) = true ->
             In (path_join dir (cleaned_filename date k)) entries) ->
  exists c,
    first_free (fun k => path_exists (path_join dir (cleaned_filename date k))) c
    /\ (c <= Z.of_nat (S (List.length entries)))%Z
    /\ forall fuel, (List.length entries < fuel)%nat ->
         save_cleaned_articles_path path_exists dir date fuel 1
         = Some (path_join dir (cleaned_filename date c)).
Proof.
  intros Hin.
  destruct (probe_free_among pystr
              (fun k => path_exists (path_join dir (cleaned_filename date k)))
              (fun k => path_join dir (cleaned_filename date k))) with (entries := entries)
    as (n & Hn & Hfree).
  { intros a b H. rewrite !cleaned_is_raw in H. now apply raw_path_inj in H. }
  { exact Hin. }
  destruct (probe_least pystr
              (fun k => path_exists (path_join dir (cleaned_filename date k)))
              (fun k => path_join dir (cleaned_filename date k))
              (save_cleaned_articles_path path_exists dir date)
              (cleaned_loop_S path_exists dir date) n (proj1 Hn) Hfree)
    as (c & Hc & Hle & Hloop).
  exists c. split; [exact Hc|]. split; [lia|].
  intros fuel Hf. apply Hloop. lia.
Qed.

Lemma cleaned_file_is_first_unused_witness :
  exists c,
    first_free (fun k => existsb (str_eqb (path_join (lit "data/cleaned")
                                            (cleaned_filename (lit "20240501") k)))
                           [lit "data/cleaned/clean_20240501_01.json";
                            lit "data/cleaned/clean_20240501_02.json"]) c
    /\ (c <= 3)%Z
    /\ forall fuel, (2 < fuel)%nat ->
         save_cleaned_articles_path
           (fun p => existsb (str_eqb p)
                       [lit "data/cleaned/clean_20240501_01.json";
                        lit "data/cleaned/clean_20240501_02.json"])
           (lit "data/cleaned") (lit "20240501") fuel 1
         = Some (path_join (lit "data/cleaned") (cleaned_filename (lit "20240501") c)).
Proof.
  apply (cleaned_file_is_first_unused
           (fun p => existsb (str_eqb p)
                       [lit "data/cleaned/clean_20240501_01.json";
                        lit "data/cleaned/clean_20240501_02.json"])
           (lit "data/cleaned") (lit "20240501")
           [lit "data/cleaned/clean_20240501_01.json";
            lit "data/cleaned/clean_20240501_02.json"]).
  intros k _. apply existsb_str_eqb_In.
Defined.

(** ** The final dataset *)

Lemma path_join_last a b c : exists p, path_join a (b ++ [c]) = p ++ [c].
Proof.
  unfold path_join. destruct (starts_with _ _); [now exists b|].
  destruct (_ || _)%bool.
  - exists (a ++ b). now rewrite app_assoc.
  - exists (a ++ lit "/" ++ b). now rewrite <- !app_assoc.
Qed.

Lemma output_candidate_last dir date c :
  exists p d, output_candidate dir date c = p ++ [d] /\ in_range 48 57 d = true.
Proof.
  unfold output_candidate. destruct (format_02d_last c) as (q & d & E & Hd).
  rewrite E.
  destruct (path_join_last dir (lit "data_" ++ date ++ lit "_" ++ q) d) as (p & Hp).
  exists p, d. split; [|exact Hd]. rewrite <- Hp. f_equal.
  now rewrite <- !app_assoc.
Qed.

Lemma starts_with_other_head x l d r :
  x <> d -> starts_with (x :: l) (d :: r) = false.
Proof. intros H. cbn [starts_with]. apply N.eqb_neq in H. now rewrite H. Qed.

(** A path that ends with a digit has none of the three extensions. *)
Lemma digit_end_no_ext p d ext :
  in_range 48 57 d = true ->
  In ext [lit ".parquet"; lit ".csv"; lit ".jsonl"] ->
  ends_with ext (p ++ [d]) = false.
Proof.
  intros Hd Hext. unfold ends_with. rewrite rev_app_distr. cbn [rev app].
  unfold in_range in Hd. apply andb_true_iff in Hd.
  rewrite !N.leb_le in Hd.
  destruct Hext as [<-|[<-|[<-|[]]]];
    match goal with
    | |- starts_with ?e _ = false =>
        let v := eval vm_compute in e in change e with v
    end; apply starts_with_other_head; lia.
Qed.

(** Step 6 never overwrites a dataset: whenever some counter has none
    of its three files ([.parquet], [.csv], [.jsonl]), the loop of
    [main] stops at the first such counter, [create_final_dataset]
    appends the extension of the format to that path, and the file it
    then writes did not exist. *)
Theorem dataset_file_is_new rt path_exists dir date format n :
  (1 <= n)%Z ->
  any_format_exists path_exists (output_candidate dir date n) = false ->
  In (str_lower rt format) [lit "parquet"; lit "csv"; lit "jsonl"] ->
  exists c,
    first_free (fun k => any_format_exists path_exists (output_candidate dir date k)) c
    /\ (c <= n)%Z
    /\ forall fuel, (n <= Z.of_nat fuel)%Z ->
         let written := output_candidate dir date c ++ lit "." ++ str_lower rt format in
         main_output_path path_exists dir date fuel 1 = Some (output_candidate dir date c)
         /\ dataset_file_path rt format (output_candidate dir date c) = Some written
         /\ path_exists written = false.
Proof.
  intros Hn Hfree Hfmt.
  destruct (probe_least pystr
              (fun k => any_format_exists path_exists (output_candidate dir date k))
              (fun k => output_candidate dir date k)
              (main_output_path path_exists dir date)
              (main_loop_S path_exists dir date) n Hn Hfree)
    as (c & Hc & Hle & Hloop).
  exists c. split; [exact Hc|]. split; [exact Hle|].
  intros fuel Hf written. split; [now apply Hloop|].
  destruct Hc as (_ & Hnone & _). cbn beta in Hnone.
  destruct (output_candidate_last dir date c) as (p & d & E & Hd).
  unfold any_format_exists in Hnone. cbn [existsb] in Hnone.
  apply orb_false_iff in Hnone. destruct Hnone as [H1 Hnone].
  apply orb_false_iff in Hnone. destruct Hnone as [H2 Hnone].
  apply orb_false_iff in Hnone. destruct Hnone as [H3 _].
  unfold dataset_file_path, written. rewrite E.
  rewrite !(digit_end_no_ext p d) by (cbn; auto). cbn [negb].
  rewrite <- E.
  destruct Hfmt as [<-|[<-|[<-|[]]]]; cbn [str_eqb];
    (split; [reflexivity | assumption]).
Qed.

Lemma dataset_file_is_new_witness :
  exists c,
    first_free (fun k => any_format_exists
                           (fun p => existsb (str_eqb p)
                                       [lit "data/output/data_20240501_01.csv"])
                           (output_candidate (lit "data/output") (lit "20240501") k)) c
    /\ (c <= 2)%Z
    /\ forall fuel, (2 <= Z.of_nat fuel)%Z ->
         let written := output_candidate (lit "data/output") (lit "20240501") c
                        ++ lit "." ++ str_lower sample_runtime (lit "Parquet") in
         main_output_path
           (fun p => existsb (str_eqb p) [lit "data/output/data_20240501_01.csv"])
           (lit "data/output") (lit "20240501") fuel 1
         = Some (output_candidate (lit "data/output") (lit "20240501") c)
         /\ dataset_file_path sample_runtime (lit "Parquet")
              (output_candidate (lit "data/output") (lit "20240501") c) = Some written
         /\ existsb (str_eqb written) [lit "data/output/data_20240501_01.csv"] = false.
Proof.
  apply (dataset_file_is_new sample_runtime
           (fun p => existsb (str_eqb p) [lit "data/output/data_20240501_01.csv"])
           (lit "data/output") (lit "20240501") (lit "Parquet") 2);
    [lia | vm_compute; reflexivity | left; vm_compute; reflexivity].
Defined.

(** * Step 5: numbers *)

Section Numbers.
Variable rt : Runtime.

Let num (_ : pystr) : pystr := lit "<NUM>".
Let out := re_sub_from (m_number rt) num.

Lemma digit_is_word c : is_digit rt c = true -> is_word rt c = true.
Proof.
  unfold is_digit, is_word. destruct (is_ascii c); intros ->.
  - reflexivity.
  - apply orb_true_r.
Qed.

Lemma m_number_nondigit prev c s :
  is_digit rt c = false -> m_number rt prev (c :: s) = None.
Proof.
  intros H. unfold m_number. cbn [span]. rewrite H. now destruct (at_boundary rt prev).
Qed.

Lemma m_number_inside d s :
  is_digit rt d = true -> m_number rt (Some d) s = None.
Proof.
  intros H. unfold m_number. cbn [at_boundary].
  now rewrite (digit_is_word d H).
Qed.

(** The scan copies a text without digits. *)
Lemma numbers_copy_nondigits s : forall prev,
  forallb (fun c => negb (is_digit rt c)) s = true -> out prev 0 s = s.
Proof.
  induction s as [|c s IH]; intros prev H; [reflexivity|].
  cbn [forallb] in H. apply andb_true_iff in H. destruct H as [Hc Hs].
  apply negb_true_iff in Hc. unfold out in *. cbn [re_sub_from].
  rewrite (m_number_nondigit prev c s Hc). now rewrite (IH _ Hs).
Qed.

(** After a digit that was copied, the rest of its run is copied too,
    and so is the character that ends the run. *)
Lemma numbers_run_copied s : forall d,
  is_digit rt d = true ->
  span (is_digit rt) (out (Some d) 0 s) = span (is_digit rt) s
  /\ hd_error (skipn (span (is_digit rt) s) (out (Some d) 0 s))
     = hd_error (skipn (span (is_digit rt) s) s).
Proof.
  induction s as [|x s IH]; intros d Hd; [split; reflexivity|].
  unfold out in *. cbn [re_sub_from]. rewrite (m_number_inside d (x :: s) Hd).
  cbn [span]. destruct (is_digit rt x) eqn:Hx; [|split; reflexivity].
  destruct (IH x Hx) as [H1 H2]. rewrite H1. cbn [skipn]. now split.
Qed.

(** Dropping the characters of a match. *)
Lemma numbers_skip n : forall s p,
  (n <= List.length s)%nat ->
  exists q, out p n s = out q 0 (skipn n s).
Proof.
  induction n as [|n IH]; intros s p Hn; [now exists p|].
  destruct s as [|c s]; [cbn in Hn; lia|].
  cbn [List.length] in Hn. unfold out in *. cbn [re_sub_from skipn].
  apply IH. lia.
Qed.

Lemma span_le p (s : pystr) : (span p s <= List.length s)%nat.
Proof.
  induction s as [|c s IH]; [cbn; lia|]. cbn [span List.length].
  destruct (p c); lia.
Qed.

(** The second pass copies the placeholder. *)
Lemma placeholder_copied prev x rest :
  out prev 0 (num x ++ rest) = num x ++ out (Some (chr ">")) 0 rest.
Proof.
  unfold out, num. cbn [lit list_ascii_of_string map app re_sub_from].
  now rewrite !m_number_nondigit by reflexivity.
Qed.

Lemma numbers_idempotent_from n : forall s prev,
  (List.length s <= n)%nat ->
  out prev 0 (out prev 0 s) = out prev 0 s.
Proof.
  induction n as [|n IH]; intros s prev Hlen.
  - destruct s; [reflexivity | cbn in Hlen; lia].
  - destruct s as [|c s]; [reflexivity|]. cbn [List.length] in Hlen.
    unfold out in *. cbn [re_sub_from].
    destruct (m_number rt prev (c :: s)) as [[|k]|] eqn:Hm.
    + (* an empty match does not arise; the character is copied *)
      exfalso. unfold m_number in Hm. destruct (at_boundary rt prev); [|discriminate].
      destruct (span (is_digit rt) (c :: s)); [discriminate|].
      destruct (at_boundary rt _); discriminate.
    + (* a number: the placeholder, then the text after the run *)
      unfold m_number in Hm. destruct (at_boundary rt prev) eqn:Hb; [|discriminate].
      cbn [span] in Hm. destruct (is_digit rt c) eqn:Hc; [|discriminate].
      cbn [skipn] in Hm.
      destruct (at_boundary rt (hd_error (skipn (span (is_digit rt) s) s))) eqn:He;
        [|discriminate].
      injection Hm as <-.
      destruct (numbers_skip (span (is_digit rt) s) s (Some c) (span_le _ s))
        as (q & Hq).
      unfold out in Hq. rewrite Hq.
      rewrite (placeholder_copied prev). f_equal.
      assert (Hshort : (List.length (skipn (span (is_digit rt) s) s) <= n)%nat).
      { rewrite length_skipn. lia. }
      destruct (skipn (span (is_digit rt) s) s) as [|x t] eqn:Et; [reflexivity|].
      cbn [hd_error at_boundary] in He. apply negb_true_iff in He.
      assert (Hx : is_digit rt x = false).
      { destruct (is_digit rt x) eqn:E; [|reflexivity].
        apply digit_is_word in E. congruence. }
      unfold out. cbn [re_sub_from]. rewrite (m_number_nondigit q x t Hx).
      cbn [re_sub_from]. rewrite (m_number_nondigit _ x _ Hx).
      cbn [List.length] in Hshort.
      now rewrite (IH t (Some x)) by lia.
    + (* no number here: the character is copied, and the second pass
         finds no number here either *)
      cbn [re_sub_from].
      assert (Hm2 : m_number rt prev (c :: re_sub_from (m_number rt) num (Some c) 0 s)
                    = None).
      { destruct (is_digit rt c) eqn:Hc; [|now apply m_number_nondigit].
        destruct (numbers_run_copied s c Hc) as [H1 H2]. unfold out in H1, H2.
        unfold m_number in *. destruct (at_boundary rt prev); [|reflexivity].
        cbn [span] in *. rewrite Hc in *. rewrite H1. cbn [skipn] in *.
        now rewrite H2. }
      rewrite Hm2. now rewrite (IH s (Some c)) by lia.
Qed.
End Numbers.

(** Numeric normalisation is idempotent, whatever the Unicode tables
    say about digits and word characters: the placeholder holds no
    digit, and a run of digits left in place keeps the word character
    next to it that saved it. *)
Theorem normalize_numbers_idempotent rt text enabled :
  normalize_numbers rt (normalize_numbers rt text enabled) enabled
  = normalize_numbers rt text enabled.
Proof.
  unfold normalize_numbers. destruct enabled; cbn [negb orb]; [|reflexivity].
  destruct (nonempty text) eqn:Ht; cbn [negb]; [|now rewrite Ht].
  unfold re_sub.
  destruct (nonempty (re_sub_from (m_number rt) (fun _ => lit "<NUM>") None 0 text));
    cbn [negb]; [|reflexivity].
  apply (numbers_idempotent_from rt (List.length text)). lia.
Qed.

(** Numeric normalisation only touches digits: a text without a
    decimal digit comes back unchanged, enabled or not. *)
Theorem normalize_numbers_needs_digits rt text enabled :
  forallb (fun c => negb (is_digit rt c)) text = true ->
  normalize_numbers rt text enabled = text.
Proof.
  intros H. unfold normalize_numbers.
  destruct (negb enabled || negb (nonempty text))%bool; [reflexivity|].
  now apply numbers_copy_nondigits.
Qed.

Lemma normalize_numbers_needs_digits_witness :
  normalize_numbers sample_runtime (lit "nothing to count here") true
  = lit "nothing to count here".
Proof.
  apply (normalize_numbers_needs_digits sample_runtime (lit "nothing to count here") true).
  vm_compute. reflexivity.
Defined.

(** * Structured features of the cleaned articles *)

Lemma emitted_has_statistics rt flag min_length max_length raws out a :
  process_articles rt flag min_length max_length raws = Ret out ->
  In a out ->
  exists b, a = add_derived_statistics b.
Proof.
  intros Hout Hin.
  destruct (emitted_from_record _ _ _ _ _ _ _ Hout Hin) as (raw & j & _ & Hr).
  apply process_record_inv in Hr. destruct Hr as (v & checked & _ & _ & ->).
  now exists checked.
Qed.

(** ** The dict of a record with its statistics *)

Section DictOfRecord.
Variable b : article.
Let a := add_derived_statistics b.
Let d := to_dict a.

Ltac by_lookup :=
  subst d a; destruct b as [? ? ? ? ? ? ? ? [f|] ? ? ?]; reflexivity.

Lemma dict_body_text x : get d "body_text" x = Ret (VStr (body_text a)).
Proof. by_lookup. Qed.

Lemma dict_cleaned_text : cleaned_text_of d = Ret (VStr (body_text a)).
Proof. by_lookup. Qed.

Lemma dict_pub_datetime :
  get d "pub_datetime" VNone
  = Ret (match pub_datetime a with Some z => VInt z | None => VNone end).
Proof. by_lookup. Qed.

Lemma dict_absent_pub_date x : get d "pub_date" x = Ret x.
Proof. by_lookup. Qed.

Lemma dict_absent_description x : get d "description" x = Ret x.
Proof. by_lookup. Qed.

Lemma dict_article_id x : get d "article_id" x = Ret (VStr (article_id a)).
Proof. by_lookup. Qed.

Lemma dict_title x :
  get d "title" x = Ret (match title a with Some t => VStr t | None => VNone end).
Proof. by_lookup. Qed.

Lemma dict_source x : get d "source" x = Ret (VStr (source a)).
Proof. by_lookup. Qed.

Lemma dict_url x : get d "url" x = Ret (VStr (url a)).
Proof. by_lookup. Qed.

Lemma dict_category x : get d "category" x = Ret (VList (map VStr (category a))).
Proof. by_lookup. Qed.

Lemma dict_token_count x :
  own_or d "token_count" x
  = VInt (Z.of_nat (List.length (split_ws (body_text a)))).
Proof. by_lookup. Qed.

Lemma dict_sentence_count x :
  own_or d "sentence_count" x
  = VInt (Z.of_nat (List.length (filter (fun s => nonempty (strip s))
                                         (re_split_marks (body_text a))))).
Proof. by_lookup. Qed.

Lemma dict_character_count :
  own d "character_count" = Some (VInt (len (body_text a))).
Proof. by_lookup. Qed.
End DictOfRecord.

(** ** [extract_features] on a record with its statistics *)

Lemma feature_domain_returns fr b :
  exists dm, feature_domain fr (to_dict (add_derived_statistics b)) = Ret dm.
Proof.
  unfold feature_domain. rewrite dict_url. cbn [bind].
  destruct (truthy _); [|now eexists].
  destruct (urlparse fr _) as [[netloc path]|e]; cbn; now eexists.
Qed.

(** The date the features carry for a cleaned record: the local time
    of its Unix time, or nothing. *)
Lemma feature_pub_datetime_of_record rt fr b :
  feature_pub_datetime rt fr (to_dict (add_derived_statistics b))
  = match pub_datetime b with
    | Some z => d <- fr_fromtimestamp fr (VInt z) ;; Ret (Parsed d)
    | None => Ret (AsGiven VNone)
    end.
Proof.
  unfold feature_pub_datetime. rewrite dict_pub_datetime. cbn [bind].
  change (pub_datetime (add_derived_statistics b)) with (pub_datetime b).
  destruct (pub_datetime b); [reflexivity|].
  now rewrite dict_absent_pub_date.
Qed.

Lemma feature_category_tag_of_record rt b :
  feature_category_tag rt (to_dict (add_derived_statistics b))
  = Ret (VStr (hd [] (category b))).
Proof.
  unfold feature_category_tag. rewrite dict_category. cbn [bind].
  change (category (add_derived_statistics b)) with (category b).
  now destruct (category b).
Qed.

Lemma extract_features_of_record rt fr b :
  exists dm,
    feature_domain fr (to_dict (add_derived_statistics b)) = Ret dm
    /\ extract_features rt fr (to_dict (add_derived_statistics b))
       = (pd <- match pub_datetime b with
                | Some z => d <- fr_fromtimestamp fr (VInt z) ;; Ret (Parsed d)
                | None => Ret (AsGiven VNone)
                end ;;
          Ret {| feat_token_count := List.length (split_ws (body_text b));
                 feat_sentence_count :=
                   List.length (filter (fun s => nonempty (strip s))
                                       (re_split_marks (body_text b)));
                 feat_pub_datetime := pd;
                 feat_source_category := VStr (source b);
                 feat_domain := dm;
                 feat_category_tag := VStr (hd [] (category b)) |}).
Proof.
  destruct (feature_domain_returns fr b) as (dm & Hdm).
  exists dm. split; [exact Hdm|].
  unfold extract_features. rewrite dict_cleaned_text. cbn [bind].
  rewrite feature_pub_datetime_of_record, Hdm, dict_source,
    feature_category_tag_of_record.
  destruct (pub_datetime b) as [z|]; [|reflexivity].
  now destruct (fr_fromtimestamp fr (VInt z)).
Qed.

(** On an article that [process_articles] emitted, [extract_features]
    counts what the Statistics Annotator counted, takes source and
    first category as they are, and has no date exactly when the
    article has none; it raises only when the article has a Unix time
    that [datetime.fromtimestamp] refuses, with that exception. *)
Theorem features_agree_with_statistics rt fr flag min_length max_length raws out a :
  process_articles rt flag min_length max_length raws = Ret out ->
  In a out ->
  match extract_features rt fr (to_dict a) with
  | Ret f =>
      token_count a = Some (feat_token_count f)
      /\ sentence_count a = Some (feat_sentence_count f)
      /\ feat_source_category f = VStr (source a)
      /\ feat_category_tag f = VStr (hd [] (category a))
      /\ (pub_datetime a = None <-> feat_pub_datetime f = AsGiven VNone)
  | Raise e =>
      exists z, pub_datetime a = Some z /\ fr_fromtimestamp fr (VInt z) = Raise e
  end.
Proof.
  intros Hout Hin.
  destruct (emitted_has_statistics _ _ _ _ _ _ _ Hout Hin) as (b & ->).
  destruct (extract_features_of_record rt fr b) as (dm & _ & ->).
  change (pub_datetime (add_derived_statistics b)) with (pub_datetime b).
  destruct (pub_datetime b) as [z|].
  - destruct (fr_fromtimestamp fr (VInt z)) as [d|e] eqn:Hts; cbn [bind].
    + repeat (split; [reflexivity|]). split; discriminate.
    + now exists z.
  - cbn [bind]. repeat (split; [reflexivity|]). now split.
Qed.

Lemma features_agree_with_statistics_witness :
  exists a,
    process_articles sample_runtime false 10 100000 [scenario4_raw] = Ret [a]
    /\ match extract_features sample_runtime sample_feature_runtime (to_dict a) with
       | Ret f =>
           token_count a = Some (feat_token_count f)
           /\ sentence_count a = Some (feat_sentence_count f)
           /\ feat_source_category f = VStr (source a)
           /\ feat_category_tag f = VStr (hd [] (category a))
           /\ (pub_datetime a = None <-> feat_pub_datetime f = AsGiven VNone)
       | Raise e =>
           exists z, pub_datetime a = Some z
                     /\ fr_fromtimestamp sample_feature_runtime (VInt z) = Raise e
       end.
Proof.
  eexists. split; [vm_compute; reflexivity|].
  eapply (features_agree_with_statistics sample_runtime sample_feature_runtime
            false 10 100000 [scenario4_raw]);
    [vm_compute; reflexivity | left; reflexivity].
Defined.

(** ** The rows of the DataFrame *)

(** The row of a cleaned record: every column but the date and the
    domain is settled by the record. *)
Lemma features_row_of_record rt fr idx b :
  match features_row rt fr idx (to_dict (add_derived_statistics b)) with
  | Ret r =>
      row_article_id r = VStr (article_id b)
      /\ row_cleaned_text r = VStr (body_text b)
      /\ row_description r = VStr []
      /\ row_pub_date r = VStr []
      /\ row_token_count r = VInt (Z.of_nat (List.length (split_ws (body_text b))))
      /\ row_character_count r = Some (VInt (len (body_text b)))
  | Raise e =>
      exists z, pub_datetime b = Some z /\ fr_fromtimestamp fr (VInt z) = Raise e
  end.
Proof.
  unfold features_row.
  destruct (extract_features_of_record rt fr b) as (dm & _ & ->).
  destruct (pub_datetime b) as [z|];
    [destruct (fr_fromtimestamp fr (VInt z)) as [d|e] eqn:Hts; cbn [bind];
     [|now exists z]|cbn [bind]];
    rewrite dict_article_id, dict_cleaned_text, dict_title, dict_absent_description,
      dict_source, dict_url, dict_absent_pub_date, dict_category; cbn [bind];
    cbn [row_article_id row_cleaned_text row_description row_pub_date
         row_token_count row_character_count];
    rewrite dict_token_count, dict_character_count;
    repeat split; reflexivity.
Qed.

Lemma features_row_raises rt fr idx b z e :
  pub_datetime b = Some z -> fr_fromtimestamp fr (VInt z) = Raise e ->
  features_row rt fr idx (to_dict (add_derived_statistics b)) = Raise e.
Proof.
  intros Hz He. unfold features_row.
  destruct (extract_features_of_record rt fr b) as (dm & _ & ->).
  now rewrite Hz, He.
Qed.

(** What a row of the DataFrame says about its article. *)
Lemma rows_from_records rt fr (l : list article) : forall idx,
  (forall a, In a l -> exists b, a = add_derived_statistics b) ->
  match rows_from rt fr idx (map to_dict l) with
  | Ret rows =>
      Forall2 (fun a r =>
                 row_article_id r = VStr (article_id a)
                 /\ row_cleaned_text r = VStr (body_text a)
                 /\ row_description r = VStr []
                 /\ row_pub_date r = VStr []
                 /\ option_map (fun n => VInt (Z.of_nat n)) (token_count a)
                    = Some (row_token_count r)
                 /\ option_map (fun n => VInt (Z.of_nat n)) (character_count a)
                    = row_character_count r) l rows
  | Raise e =>
      exists a z, In a l /\ pub_datetime a = Some z
                  /\ fr_fromtimestamp fr (VInt z) = Raise e
  end.
Proof.
  induction l as [|a l IH]; intros idx Hall; [constructor|].
  cbn [map rows_from].
  destruct (Hall a (or_introl eq_refl)) as (b & ->).
  pose proof (features_row_of_record rt fr idx b) as Hrow.
  destruct (features_row rt fr idx (to_dict (add_derived_statistics b))) as [r|e];
    cbn [bind].
  - specialize (IH (S idx) (fun x Hx => Hall x (or_intror Hx))).
    destruct (rows_from rt fr (S idx) (map to_dict l)) as [rows|e]; cbn [bind].
    + constructor; [|exact IH].
      destruct Hrow as (H1 & H2 & H3 & H4 & H5 & H6).
      repeat split; try assumption.
      * cbn. now rewrite H5.
      * cbn. now rewrite H6.
    + destruct IH as (x & z & Hx & Hz & He). exists x, z. now split; [right|].
  - destruct Hrow as (z & Hz & He). exists (add_derived_statistics b), z.
    split; [now left|]. now split.
Qed.

(** Cleaning composed with feature extraction: the DataFrame has one
    row per emitted article, in order; a row carries the article's own
    id (never the positional default), its final text and its counts,
    and its [description] and [pub_date] columns are always empty,
    since cleaning stores neither key.  The call raises only when some
    article has a Unix time that [datetime.fromtimestamp] refuses. *)
Theorem dataframe_rows_follow_articles rt fr flag min_length max_length raws out :
  process_articles rt flag min_length max_length raws = Ret out ->
  match create_features_dataframe rt fr (map to_dict out) with
  | Ret rows =>
      Forall2 (fun a r =>
                 row_article_id r = VStr (article_id a)
                 /\ row_cleaned_text r = VStr (body_text a)
                 /\ row_description r = VStr []
                 /\ row_pub_date r = VStr []
                 /\ option_map (fun n => VInt (Z.of_nat n)) (token_count a)
                    = Some (row_token_count r)
                 /\ option_map (fun n => VInt (Z.of_nat n)) (character_count a)
                    = row_character_count r) out rows
  | Raise e =>
      exists a z, In a out /\ pub_datetime a = Some z
                  /\ fr_fromtimestamp fr (VInt z) = Raise e
  end.
Proof.
  intros Hout. unfold create_features_dataframe. apply rows_from_records.
  intros a Hin. exact (emitted_has_statistics _ _ _ _ _ _ _ Hout Hin).
Qed.

Lemma dataframe_rows_follow_articles_witness :
  exists out,
    process_articles sample_runtime false 10 100000 [scenario1_raw; scenario4_raw]
    = Ret out
    /\ match create_features_dataframe sample_runtime sample_feature_runtime
               (map to_dict out) with
       | Ret rows =>
           Forall2 (fun a r =>
                      row_article_id r = VStr (article_id a)
                      /\ row_cleaned_text r = VStr (body_text a)
                      /\ row_description r = VStr []
                      /\ row_pub_date r = VStr []
                      /\ option_map (fun n => VInt (Z.of_nat n)) (token_count a)
                         = Some (row_token_count r)
                      /\ option_map (fun n => VInt (Z.of_nat n)) (character_count a)
                         = row_character_count r) out rows
       | Raise e =>
           exists a z, In a out /\ pub_datetime a = Some z
                       /\ fr_fromtimestamp sample_feature_runtime (VInt z) = Raise e
       end.
Proof.
  eexists. split; [vm_compute; reflexivity|].
  eapply (dataframe_rows_follow_articles sample_runtime sample_feature_runtime
            false 10 100000 [scenario1_raw; scenario4_raw]).
  vm_compute. reflexivity.
Defined.

Lemma rows_from_raises rt fr (l : list article) a z e :
  (forall x, In x l -> exists b, x = add_derived_statistics b) ->
  In a l -> pub_datetime a = Some z -> fr_fromtimestamp fr (VInt z) = Raise e ->
  forall idx, exists e', rows_from rt fr idx (map to_dict l) = Raise e'.
Proof.
  intros Hall Hin Hz He. induction l as [|x l IH]; intros idx; [destruct Hin|].
  cbn [map rows_from].
  destruct (features_row rt fr idx (to_dict x)) as [r|e1] eqn:Hr; cbn [bind];
    [|now exists e1].
  destruct Hin as [->|Hin].
  - destruct (Hall a (or_introl eq_refl)) as (b & ->).
    rewrite (features_row_raises rt fr idx b z e Hz He) in Hr. discriminate.
  - destruct (IH (fun y Hy => Hall y (or_intror Hy)) Hin (S idx)) as (e' & ->).
    now exists e'.
Qed.

(** One date is enough to lose the batch: a Unix time that
    [datetime.fromtimestamp] refuses passes every cleaning step, and
    then [create_features_dataframe] raises instead of returning the
    rows of the other articles. *)
Theorem one_refused_date_fails_the_batch
        rt fr flag min_length max_length raws out a z e :
  process_articles rt flag min_length max_length raws = Ret out ->
  In a out ->
  pub_datetime a = Some z ->
  fr_fromtimestamp fr (VInt z) = Raise e ->
  exists e', create_features_dataframe rt fr (map to_dict out) = Raise e'.
Proof.
  intros Hout Hin Hz He. unfold create_features_dataframe.
  apply (rows_from_raises rt fr out a z e); try assumption.
  intros x Hx. exact (emitted_has_statistics _ _ _ _ _ _ _ Hout Hx).
Qed.

Lemma one_refused_date_fails_the_batch_witness :
  exists out,
    process_articles sample_runtime false 10 100000
      [scenario1_raw;
       VDict [ (lit "title", VStr (lit "A title long enough"));
               (lit "pubDate", VInt (10 ^ 30)) ]] = Ret out
    /\ exists e',
         create_features_dataframe sample_runtime sample_feature_runtime (map to_dict out)
         = Raise e'.
Proof.
  eexists. split; [vm_compute; reflexivity|].
  eapply (one_refused_date_fails_the_batch sample_runtime sample_feature_runtime
            false 10 100000
            [scenario1_raw;
             VDict [ (lit "title", VStr (lit "A title long enough"));
                     (lit "pubDate", VInt (10 ^ 30)) ]] _ _ (10 ^ 30)%Z OverflowError);
    [vm_compute; reflexivity | right; left; reflexivity
     | vm_compute; reflexivity | vm_compute; reflexivity].
Defined.

(** ** The domain feature *)

Lemma url_fragment_host u host path :
  url_fragment u = Some (host, path) -> nonempty host = true.
Proof.
  unfold url_fragment. destruct (after_scheme u) as [rest|]; [|discriminate].
  destruct (nonempty (firstn _ rest)) eqn:Hh; [|discriminate].
  cbn [andb]. destruct (_ && _)%bool; [|discriminate].
  intros H. injection H as <- _. exact Hh.
Qed.

(** The domain feature needs a path.  Line 58 groups as
    [(netloc or first path segment) if path else '']: for a URL
    [http(s)://host] followed by a path, the feature is the host, and
    without a path it is empty, although [urlparse] found the host. *)
Theorem feature_domain_needs_path rt fr article u host path f :
  get article "url" (VStr []) = Ret (VStr u) ->
  url_fragment u = Some (host, path) ->
  extract_features rt fr article = Ret f ->
  feat_domain f = if nonempty path then host else [].
Proof.
  intros Hurl Hfrag. unfold extract_features.
  destruct (cleaned_text_of article) as [ct|]; [cbn [bind]|discriminate].
  destruct ct; try discriminate. cbn [bind].
  destruct (feature_pub_datetime rt fr article); [cbn [bind]|discriminate].
  unfold feature_domain. rewrite Hurl. cbn [bind].
  assert (Hu : truthy (VStr u) = true).
  { destruct u; [discriminate Hfrag | reflexivity]. }
  rewrite Hu. unfold urlparse. rewrite Hfrag. cbn [bind try_except].
  rewrite (url_fragment_host u host path Hfrag).
  destruct (get article "source" (VStr [])); [cbn [bind]|discriminate].
  destruct (feature_category_tag rt article); [cbn [bind]|discriminate].
  intros H. now injection H as <-.
Qed.

Lemma feature_domain_needs_path_witness :
  exists f,
    extract_features sample_runtime sample_feature_runtime
      (VDict [ (lit "body_text", VStr (lit "some text"));
               (lit "url", VStr (lit "https://example.com")) ]) = Ret f
    /\ feat_domain f = [].
Proof.
  eexists. split; [vm_compute; reflexivity|].
  refine (feature_domain_needs_path sample_runtime sample_feature_runtime
            (VDict [ (lit "body_text", VStr (lit "some text"));
                     (lit "url", VStr (lit "https://example.com")) ])
            (lit "https://example.com") (lit "example.com") [] _ _ _ _);
    vm_compute; reflexivity.
Defined.

(** * What the steps leave alone, and what step 1 guarantees *)





(** Step 1 trims: the source, the URL, every category and the title of
    an accepted record have no blank at either end. *)
Theorem validated_fields_are_trimmed rt raw idx v :
  validate_and_enforce_schema rt raw idx = Ret (Some v) ->
  trimmed (source v) /\ trimmed (url v) /\ Forall trimmed (category v)
  /\ (forall t, title v = Some t -> trimmed t).
Proof.
  intros H. apply validate_accept_body in H. unfold validate_body in H.
  invert_bind H.
  match type of H with
  | (if ?c then _ else _) = _ => destruct c; [discriminate H|]
  end.
  injection H as <-. cbn [source url category title].
  split; [apply strip_trimmed|]. split; [apply strip_trimmed|]. split.
  - apply Forall_forall. intros x Hx. apply in_map_iff in Hx.
    destruct Hx as (c & <- & _). apply strip_trimmed.
  - intros t Ht.
    match goal with
    | E : title_of _ _ = Ret _ |- _ =>
        unfold title_of in E; invert_bind E; injection E as E; rewrite <- E in Ht
    end.
    destruct (truthy _); [|discriminate].
    injection Ht as <-. apply strip_trimmed.
Qed.

Lemma validated_fields_are_trimmed_witness :
  exists v,
    validate_and_enforce_schema sample_runtime
      (VDict [ (lit "title", VStr (lit "  A title long enough  "));
               (lit "source_id", VStr (lit " wire "));
               (lit "category", VList [VStr (lit " top "); VStr (lit "world ")]) ]) 0
    = Ret (Some v)
    /\ source v = lit "wire"
    /\ category v = [lit "top"; lit "world"]
    /\ trimmed (source v).
Proof.
  eexists. split; [vm_compute; reflexivity|].
  split; [reflexivity|]. split; [reflexivity|].
  refine (proj1 (validated_fields_are_trimmed sample_runtime
                   (VDict [ (lit "title", VStr (lit "  A title long enough  "));
                            (lit "source_id", VStr (lit " wire "));
                            (lit "category",
                             VList [VStr (lit " top "); VStr (lit "world ")]) ]) 0 _ _)).
  vm_compute. reflexivity.
Defined.

(** * Spacing of the cleaned text *)

(** ** Texts without two blanks side by side *)

Lemma head_fails_app (p : codepoint -> bool) a b :
  head_fails p (a ++ b) = match a with [] => head_fails p b | _ => head_fails p a end.
Proof. now destruct a. Qed.

Lemma head_fails_rev_cons (p : codepoint -> bool) c a :
  head_fails p (rev (c :: a))
  = match a with [] => negb (p c) | _ => head_fails p (rev a) end.
Proof.
  cbn [rev]. rewrite head_fails_app. destruct a as [|d a]; [reflexivity|].
  destruct (rev (d :: a)) eqn:E; [|reflexivity].
  apply (f_equal (@List.length codepoint)) in E. rewrite length_rev in E. discriminate.
Qed.

Lemma single_spaced_app a : forall b,
  single_spaced (a ++ b)
  = single_spaced a && single_spaced b
    && (head_fails isspace (rev a) || head_fails isspace b).
Proof.
  induction a as [|c a IH]; intros b.
  - cbn. now rewrite andb_true_r.
  - rewrite head_fails_rev_cons. cbn [app single_spaced]. rewrite IH, head_fails_app.
    destruct a as [|d a].
    + cbn. destruct (isspace c), (head_fails isspace b), (single_spaced b); reflexivity.
    + cbn [head_fails single_spaced].
      destruct (isspace c), (isspace d), (single_spaced a), (single_spaced b),
        (head_fails isspace a), (head_fails isspace (rev (d :: a))),
        (head_fails isspace b); reflexivity.
Qed.

Lemma single_spaced_split k s :
  single_spaced s = true ->
  single_spaced (firstn k s) = true /\ single_spaced (skipn k s) = true
  /\ (head_fails isspace (rev (firstn k s)) = true
      \/ head_fails isspace (skipn k s) = true).
Proof.
  intros H. rewrite <- (firstn_skipn k s), single_spaced_app in H.
  apply andb_true_iff in H. destruct H as [H H3].
  apply andb_true_iff in H. destruct H as [H1 H2].
  apply orb_true_iff in H3. auto.
Qed.

Lemma single_spaced_rev s : single_spaced (rev s) = single_spaced s.
Proof.
  induction s as [|c s IH]; [reflexivity|].
  change (c :: s) with ([c] ++ s) at 2. cbn [rev].
  rewrite !single_spaced_app, IH, rev_involutive. cbn.
  destruct (isspace c), (single_spaced s), (head_fails isspace s); reflexivity.
Qed.

Lemma single_spaced_lstrip s : single_spaced s = true -> single_spaced (lstrip s) = true.
Proof.
  induction s as [|c s IH]; [reflexivity|]. cbn [lstrip]. intros H.
  destruct (isspace c); [|exact H].
  cbn [single_spaced] in H. apply andb_true_iff in H. now apply IH.
Qed.

Lemma single_spaced_strip s : single_spaced s = true -> single_spaced (strip s) = true.
Proof.
  intros H. unfold strip, rstrip. rewrite single_spaced_rev.
  apply single_spaced_lstrip. rewrite single_spaced_rev. now apply single_spaced_lstrip.
Qed.

Lemma single_spaced_map (f : codepoint -> codepoint) s :
  (forall c, isspace (f c) = isspace c) ->
  single_spaced (map f s) = single_spaced s.
Proof.
  intros Hf. induction s as [|c s IH]; [reflexivity|].
  cbn [map single_spaced]. rewrite IH, Hf. f_equal. f_equal.
  destruct s; [reflexivity|]. cbn. now rewrite Hf.
Qed.

(** A text without blanks. *)
Lemma no_blank_single_spaced x :
  forallb (fun c => negb (isspace c)) x = true ->
  single_spaced x = true /\ head_fails isspace x = true
  /\ head_fails isspace (rev x) = true.
Proof.
  intros H. split; [|split].
  - induction x as [|c x IH]; [reflexivity|]. cbn [forallb single_spaced] in *.
    apply andb_true_iff in H. destruct H as [-> H]. now rewrite IH.
  - destruct x; [reflexivity|]. cbn in *. now apply andb_true_iff in H.
  - apply forallb_rev_true in H. destruct (rev x); [reflexivity|].
    cbn in *. now apply andb_true_iff in H.
Qed.

(** ** Substitutions that keep single spacing *)

Section SkipAny.
Variable m : option codepoint -> pystr -> option nat.
Variable r : pystr -> pystr.

Lemma scan_skip_any n : forall s p,
  exists q, re_sub_from m r p n s = re_sub_from m r q 0 (skipn n s).
Proof.
  induction n as [|n IH]; intros s p; [now exists p|].
  destruct s as [|c s]; [now exists p|]. cbn [re_sub_from skipn]. apply IH.
Qed.
End SkipAny.

Section KeepSpacing.
Variable m : option codepoint -> pystr -> option nat.
Variable r : pystr -> pystr.

(** The replacement of a match is not empty and single-spaced, and it
    starts and ends with a blank only where the match does. *)
Hypothesis r_fits : forall prev s n,
  m prev s = Some (S n) ->
  r (firstn (S n) s) <> []
  /\ single_spaced (r (firstn (S n) s)) = true
  /\ (head_fails isspace s = true -> head_fails isspace (r (firstn (S n) s)) = true)
  /\ (head_fails isspace (rev (firstn (S n) s)) = true ->
      head_fails isspace (rev (r (firstn (S n) s))) = true).

Lemma keep_spacing_from n : forall s prev,
  (List.length s <= n)%nat ->
  single_spaced s = true ->
  single_spaced (re_sub_from m r prev 0 s) = true
  /\ (head_fails isspace s = true ->
      head_fails isspace (re_sub_from m r prev 0 s) = true).
Proof.
  induction n as [|n IH]; intros s prev Hlen Hs.
  - destruct s; [now split | cbn in Hlen; lia].
  - destruct s as [|c s]; [now split|]. cbn [List.length] in Hlen.
    cbn [re_sub_from].
    assert (Hcopy : single_spaced (c :: re_sub_from m r (Some c) 0 s) = true
                    /\ (head_fails isspace (c :: s) = true ->
                        head_fails isspace (c :: re_sub_from m r (Some c) 0 s) = true)).
    { split; [|now intros H].
      cbn [single_spaced] in *. apply andb_true_iff in Hs. destruct Hs as [Hc Hs].
      destruct (IH s (Some c)) as [H1 H2]; [lia | exact Hs |].
      rewrite H1, andb_true_r. apply orb_true_iff in Hc.
      apply orb_true_iff. destruct Hc as [Hc|Hc]; [now left | right; now apply H2]. }
    destruct (m prev (c :: s)) as [[|k]|] eqn:Hm; try exact Hcopy.
    destruct (r_fits _ _ _ Hm) as (Hne & Hr & Hhead & Hlast).
    destruct (single_spaced_split (S k) (c :: s) Hs) as (_ & Hrest & Hjoin).
    destruct (scan_skip_any m r k s (Some c)) as (q & ->).
    change (skipn k s) with (skipn (S k) (c :: s)).
    destruct (IH (skipn (S k) (c :: s)) q) as [H1 H2].
    { rewrite length_skipn. cbn [List.length]. lia. }
    { exact Hrest. }
    split.
    + rewrite single_spaced_app, Hr, H1. cbn [andb].
      apply orb_true_iff. destruct Hjoin as [Hj|Hj]; [left; now apply Hlast | right; now apply H2].
    + intros Hh. rewrite head_fails_app. specialize (Hhead Hh).
      destruct (r (firstn (S k) (c :: s))); [congruence | exact Hhead].
Qed.

Lemma keep_spacing s :
  single_spaced s = true -> single_spaced (re_sub m r s) = true.
Proof.
  intros H. now apply (keep_spacing_from (List.length s) s None).
Qed.
End KeepSpacing.

Lemma bang_not_space c : is_bang c = true -> isspace c = false.
Proof. intros H. now apply punct_not_space, bang_is_punct. Qed.

Lemma firstn_plus (a b : nat) (s : pystr) :
  firstn (a + b) s = firstn a s ++ firstn b (skipn a s).
Proof.
  revert s. induction a as [|a IH]; intros s; [reflexivity|].
  destruct s as [|c s]; [now destruct b|]. cbn [Nat.add firstn skipn app].
  now rewrite IH.
Qed.

(** A text that ends with a run of blanks ends with a blank. *)
Lemma blank_run_at_end (a y : pystr) :
  y <> [] -> forallb isspace y = true -> head_fails isspace (rev (a ++ y)) = false.
Proof.
  intros Hne H. rewrite rev_app_distr, head_fails_app.
  apply forallb_rev_true in H.
  destruct (rev y) as [|c l] eqn:E.
  - apply (f_equal (@rev codepoint)) in E. rewrite rev_involutive in E. contradiction.
  - cbn in *. apply andb_true_iff in H. destruct H as [-> _]. reflexivity.
Qed.

Lemma span_firstn_nonempty p (s : pystr) n :
  span p s = S n -> firstn (span p s) s <> [].
Proof. intros H. destruct s; [discriminate H|]. rewrite H. discriminate. Qed.

(** *** The six patterns of steps 2 to 5 that replace by text *)

Lemma bangs_keep_spacing s :
  single_spaced s = true -> single_spaced (re_sub m_bangs last_char s) = true.
Proof.
  apply keep_spacing. intros prev t n Hm.
  pose proof (m_bangs_covers _ _ _ Hm) as Hcov.
  assert (Hne : firstn (S n) t <> []).
  { destruct t; [cbn in Hm; discriminate Hm | discriminate]. }
  destruct (last_char_one _ Hne Hcov) as (c & Hc & _).
  assert (Hnb : forallb (fun c => negb (isspace c)) (last_char (firstn (S n) t)) = true).
  { apply last_char_forallb. rewrite forallb_forall in *. intros x Hx.
    now rewrite (bang_not_space x (Hcov x Hx)). }
  destruct (no_blank_single_spaced _ Hnb) as (H1 & H2 & H3).
  rewrite Hc in *. repeat split; auto. discriminate.
Qed.

Lemma constant_keep_spacing m (new : pystr) s :
  new <> [] -> forallb (fun c => negb (isspace c)) new = true ->
  single_spaced s = true -> single_spaced (re_sub m (fun _ => new) s) = true.
Proof.
  intros Hne Hnb. apply keep_spacing. intros prev t n _.
  destruct (no_blank_single_spaced _ Hnb) as (H1 & H2 & H3). auto.
Qed.

Lemma mark_spaces_keep_spacing mark s :
  isspace mark = false ->
  single_spaced s = true ->
  single_spaced (re_sub (m_mark_spaces mark) (fun _ => [mark; chr " "]) s) = true.
Proof.
  intros Hmark. apply keep_spacing. intros prev t n Hm.
  split; [discriminate|]. split; [cbn; now rewrite Hmark|].
  split; [intros _; cbn; now rewrite Hmark|].
  intros Hend. exfalso.
  unfold m_mark_spaces in Hm. destruct t as [|c t]; [discriminate|].
  destruct (c =? mark)%N; [|discriminate].
  destruct (2 <=? span isspace t)%nat eqn:Hk; [|discriminate].
  injection Hm as <-. cbn [firstn] in Hend.
  change (c :: firstn (span isspace t) t) with ([c] ++ firstn (span isspace t) t) in Hend.
  rewrite blank_run_at_end in Hend; [discriminate | | apply firstn_span].
  apply Nat.leb_le in Hk. destruct (span isspace t) eqn:E; [lia|].
  rewrite <- E. now apply (span_firstn_nonempty isspace t n).
Qed.

Lemma orphan_keep_spacing s :
  single_spaced s = true -> single_spaced (re_sub m_orphan (fun _ => lit " ") s) = true.
Proof.
  apply keep_spacing. intros prev t n Hm.
  split; [discriminate|]. split; [reflexivity|].
  unfold m_orphan in Hm. destruct (span isspace t) as [|k1] eqn:E1; [discriminate|].
  split.
  - intros Hh. exfalso. destruct t as [|c t]; [discriminate|].
    cbn [span] in E1. cbn [head_fails] in Hh. destruct (isspace c); discriminate.
  - intros Hend. exfalso.
    unfold punct_then_spaces in Hm.
    destruct (span is_punct (skipn (S k1) t)) as [|k2] eqn:E2; [discriminate|].
    destruct (span isspace (skipn (S k2) (skipn (S k1) t))) as [|k3] eqn:E3;
      [discriminate|].
    cbn [option_map] in Hm. injection Hm as Hn.
    replace (S n) with ((S k1 + S k2) + S k3)%nat in Hend by lia.
    rewrite firstn_plus in Hend.
    replace (skipn (S k1 + S k2) t) with (skipn (S k2) (skipn (S k1) t)) in Hend
      by (rewrite skipn_skipn; f_equal; lia).
    rewrite <- E3 in Hend.
    rewrite blank_run_at_end in Hend; [discriminate | | apply firstn_span].
    now apply (span_firstn_nonempty isspace _ k3).
Qed.

Lemma break_keep_spacing s :
  single_spaced s = true -> single_spaced (re_sub m_break spaced s) = true.
Proof.
  apply keep_spacing. intros prev t n Hm.
  unfold m_break in Hm. destruct t as [|a [|b t]]; try discriminate.
  destruct (is_bang a) eqn:Ha; [|discriminate].
  destruct (in_range 97 122 b) eqn:Hb; [|discriminate].
  injection Hm as <-. cbn [firstn spaced].
  apply bang_not_space in Ha.
  assert (Hbs : isspace b = false).
  { unfold in_range in Hb. apply andb_true_iff in Hb. destruct Hb as [H1 H2].
    apply N.leb_le in H1. apply N.leb_le in H2. unfold isspace, in_range.
    repeat match goal with
           | |- context [(?x <=? ?y)%N] => destruct (N.leb_spec x y); try lia
           | |- context [(?x =? ?y)%N] => destruct (N.eqb_spec x y); try lia
           end; reflexivity. }
  split; [discriminate|]. cbn. rewrite Ha, Hbs. repeat split; reflexivity.
Qed.

(** *** The two patterns that need an argument of their own *)

(** [\s+] to one space: whatever the input, no two blanks are left side
    by side. *)
Lemma spaces_collapsed_from n : forall s prev,
  (List.length s <= n)%nat ->
  single_spaced (re_sub_from m_spaces (fun _ => lit " ") prev 0 s) = true
  /\ (head_fails isspace s = true ->
      head_fails isspace (re_sub_from m_spaces (fun _ => lit " ") prev 0 s) = true).
Proof.
  induction n as [|n IH]; intros s prev Hlen.
  - destruct s; [now split | cbn in Hlen; lia].
  - destruct s as [|c s]; [now split|]. cbn [List.length] in Hlen.
    cbn [re_sub_from].
    assert (Hm : m_spaces prev (c :: s)
                 = if isspace c then Some (S (span isspace s)) else None).
    { unfold m_spaces. cbn [span]. now destruct (isspace c). }
    rewrite Hm. clear Hm. destruct (isspace c) eqn:Hc.
    + destruct (scan_skip_any m_spaces (fun _ => lit " ") (span isspace s) s (Some c))
        as (q & ->).
      destruct (IH (skipn (span isspace s) s) q) as [H1 H2].
      { rewrite length_skipn. lia. }
      split; [|cbn [head_fails]; rewrite Hc; discriminate].
      rewrite single_spaced_app, H1. change (single_spaced (lit " ")) with true.
      cbn [andb]. apply orb_true_iff. right. apply H2.
      destruct (skipn (span isspace s) s) as [|d t] eqn:E; [reflexivity|].
      cbn [head_fails]. now rewrite (skipn_span_head isspace s d t E).
    + destruct (IH s (Some c)) as [H1 H2]; [lia|].
      split.
      * cbn [single_spaced]. now rewrite Hc, H1.
      * intros _. cbn [head_fails]. now rewrite Hc.
Qed.

Lemma leading_keep_spacing s :
  single_spaced s = true -> single_spaced (re_sub m_leading (fun _ => []) s) = true.
Proof.
  intros H. unfold re_sub. destruct s as [|c s]; [reflexivity|]. cbn [re_sub_from].
  destruct (m_leading None (c :: s)) as [[|n]|].
  - rewrite leading_after. exact H.
  - rewrite leading_after. cbn [app].
    destruct (single_spaced_split (S n) (c :: s) H) as (_ & Hr & _). exact Hr.
  - rewrite leading_after. exact H.
Qed.

(** ** The four text steps *)

Lemma sanitize_text_single_spaced rt text :
  single_spaced (sanitize_text rt text) = true.
Proof.
  unfold sanitize_text. destruct (negb (nonempty text)); [reflexivity|]. cbv zeta.
  apply single_spaced_strip, bangs_keep_spacing. unfold re_sub.
  match goal with
  | |- single_spaced (re_sub_from _ _ _ _ ?t) = true =>
      now apply (spaces_collapsed_from (List.length t) t None)
  end.
Qed.

Lemma visible_blank_is_space c :
  ascii_printable c = true -> isspace c = (c =? chr " ")%N.
Proof.
  unfold ascii_printable, in_range. intros H. apply andb_true_iff in H.
  destruct H as [H1 H2]. apply N.leb_le in H1. apply N.leb_le in H2.
  change (chr " ") with 32%N.
  unfold isspace, in_range.
  repeat match goal with
         | |- context [(?x <=? ?y)%N] => destruct (N.leb_spec x y); try lia
         | |- context [(?x =? ?y)%N] => destruct (N.eqb_spec x y); try lia
         end; reflexivity.
Qed.

Lemma ascii_lower_blank c : isspace (ascii_lower c) = isspace c.
Proof.
  unfold ascii_lower. destruct (in_range 65 90 c) eqn:E; [|reflexivity].
  unfold in_range in E. apply andb_true_iff in E. destruct E as [H1 H2].
  apply N.leb_le in H1. apply N.leb_le in H2.
  unfold isspace, in_range.
  repeat match goal with
         | |- context [(?x <=? ?y)%N] => destruct (N.leb_spec x y); try lia
         | |- context [(?x =? ?y)%N] => destruct (N.eqb_spec x y); try lia
         end; reflexivity.
Qed.

Lemma replace_char_map old c' s :
  replace_char old [c'] s = map (fun c => if (c =? old)%N then c' else c) s.
Proof.
  unfold replace_char. induction s as [|c s IH]; [reflexivity|].
  cbn [flat_map map]. rewrite IH. now destruct (c =? old)%N.
Qed.

Lemma replace_char_keep_spacing old c' s :
  isspace old = false -> isspace c' = false ->
  single_spaced (replace_char old [c'] s) = single_spaced s.
Proof.
  intros Ho Hc. rewrite replace_char_map. apply single_spaced_map.
  intros c. destruct (N.eqb_spec c old) as [->|]; [congruence | reflexivity].
Qed.

Lemma normalize_case_single_spaced rt s :
  forallb ascii_printable s = true ->
  single_spaced s = true ->
  single_spaced (normalize_unicode_and_case rt s) = true.
Proof.
  intros Hp H. unfold normalize_unicode_and_case.
  destruct (negb (nonempty s)); [reflexivity|]. cbv zeta.
  pose proof (ascii_printable_is_ascii s Hp) as Ha.
  unfold nfkc. rewrite Ha. unfold str_lower. rewrite Ha.
  change (lit "-") with [45%N].
  rewrite !replace_char_keep_spacing by reflexivity.
  unfold str_replace. apply constant_keep_spacing; [discriminate | reflexivity |].
  now rewrite (single_spaced_map ascii_lower s ascii_lower_blank).
Qed.

Lemma normalize_boundaries_single_spaced s :
  single_spaced s = true -> single_spaced (normalize_sentence_boundaries s) = true.
Proof.
  intros H. unfold normalize_sentence_boundaries.
  destruct (negb (nonempty s)); [reflexivity|]. cbv zeta.
  apply single_spaced_strip, break_keep_spacing, leading_keep_spacing,
    orphan_keep_spacing.
  change (lit "? ") with [chr "?"; chr " "]. apply mark_spaces_keep_spacing; [reflexivity|].
  change (lit "! ") with [chr "!"; chr " "]. apply mark_spaces_keep_spacing; [reflexivity|].
  change (lit ". ") with [chr "."; chr " "]. now apply mark_spaces_keep_spacing.
Qed.

Lemma normalize_numbers_single_spaced rt s flag :
  single_spaced s = true -> single_spaced (normalize_numbers rt s flag) = true.
Proof.
  intros H. unfold normalize_numbers.
  destruct (negb flag || negb (nonempty s))%bool; [exact H|].
  now apply constant_keep_spacing.
Qed.

(** *** The end of the text through step 5 *)

Section KeepEnd.
Variable m : option codepoint -> pystr -> option nat.
Variable r : pystr -> pystr.
Hypothesis r_ends : forall x,
  r x <> [] /\ head_fails isspace (rev (r x)) = true.

Lemma scan_nonempty prev c s : re_sub_from m r prev 0 (c :: s) <> [].
Proof.
  cbn [re_sub_from]. destruct (m prev (c :: s)) as [[|n]|]; try discriminate.
  destruct (r_ends (firstn (S n) (c :: s))) as [Hne _].
  destruct (r (firstn (S n) (c :: s))); [congruence | discriminate].
Qed.

Lemma scan_keeps_end s : forall prev k,
  head_fails isspace (rev s) = true ->
  head_fails isspace (rev (re_sub_from m r prev k s)) = true.
Proof.
  induction s as [|c s IH]; intros prev k H; [reflexivity|].
  rewrite head_fails_rev_cons in H.
  assert (Hrec : forall p j, head_fails isspace (rev (re_sub_from m r p j s)) = true).
  { intros p j. destruct s as [|d s]; [reflexivity | now apply IH]. }
  cbn [re_sub_from]. destruct k as [|k]; [|apply Hrec].
  destruct (m prev (c :: s)) as [[|n]|].
  - rewrite head_fails_rev_cons. destruct s as [|d s]; [exact H|].
    pose proof (scan_nonempty (Some c) d s) as Hne.
    destruct (re_sub_from m r (Some c) 0 (d :: s)) eqn:E; [congruence|].
    rewrite <- E. apply Hrec.
  - rewrite rev_app_distr, head_fails_app.
    destruct (rev (re_sub_from m r (Some c) n s)) eqn:E;
      [apply r_ends | rewrite <- E; apply Hrec].
  - rewrite head_fails_rev_cons. destruct s as [|d s]; [exact H|].
    pose proof (scan_nonempty (Some c) d s) as Hne.
    destruct (re_sub_from m r (Some c) 0 (d :: s)) eqn:E; [congruence|].
    rewrite <- E. apply Hrec.
Qed.
End KeepEnd.

Lemma normalize_numbers_end rt s flag :
  head_fails isspace (rev s) = true ->
  head_fails isspace (rev (normalize_numbers rt s flag)) = true.
Proof.
  intros H. unfold normalize_numbers.
  destruct (negb flag || negb (nonempty s))%bool; [exact H|].
  apply scan_keeps_end; [|exact H]. intros x. split; [discriminate | reflexivity].
Qed.

(** ** Tokens of a single-spaced text *)

Lemma tokens_of_single_spaced s : forall cur,
  single_spaced s = true ->
  head_fails isspace (rev s) = true ->
  (cur = [] -> head_fails isspace s = true) ->
  List.length (split_ws_from cur s)
  = (List.length (filter isspace s)
     + if nonempty cur || nonempty s then 1 else 0)%nat.
Proof.
  induction s as [|c s IH]; intros cur Hs Hend Hcur.
  - cbn. now destruct cur.
  - rewrite head_fails_rev_cons in Hend. cbn [single_spaced] in Hs.
    apply andb_true_iff in Hs. destruct Hs as [Hc Hs].
    cbn [split_ws_from filter]. destruct (isspace c) eqn:E.
    + cbn [negb orb] in Hc.
      assert (Hne : cur <> []).
      { intros ->. specialize (Hcur eq_refl). cbn in Hcur. now rewrite E in Hcur. }
      destruct s as [|d s]; [discriminate Hend|].
      specialize (IH [] Hs Hend (fun _ => Hc)).
      destruct cur as [|x cur]; [congruence|].
      cbn [List.length]. rewrite IH. cbn [nonempty orb]. lia.
    + assert (Hend' : head_fails isspace (rev s) = true).
      { destruct s; [reflexivity | exact Hend]. }
      rewrite (IH (c :: cur) Hs Hend') by discriminate.
      cbn [nonempty orb]. now rewrite orb_true_r.
Qed.

(** ** Emitted articles *)

Lemma emitted_body rt flag min_length max_length raws out a :
  process_articles rt flag min_length max_length raws = Ret out ->
  In a out ->
  exists text,
    body_text a
    = normalize_numbers rt
        (normalize_sentence_boundaries
           (normalize_unicode_and_case rt (sanitize_text rt text))) flag
    /\ body_text a <> []
    /\ token_count a = Some (List.length (split_ws (body_text a))).
Proof.
  intros Hout Hin.
  destruct (emitted_from_record _ _ _ _ _ _ _ Hout Hin) as (raw & j & _ & Hr).
  apply process_record_inv in Hr. destruct Hr as (v & checked & _ & Hg & ->).
  exists (body_text v). rewrite stats_keep_body.
  apply gate_accepts in Hg. destruct Hg as (Hb & Hne & _).
  rewrite Hb in *. split; [apply normalise_record_body|]. split; [exact Hne|].
  cbn. now rewrite Hb.
Qed.

Lemma body_is_single_spaced rt text flag :
  let body := normalize_numbers rt
                (normalize_sentence_boundaries
                   (normalize_unicode_and_case rt (sanitize_text rt text))) flag in
  single_spaced body = true /\ trimmed body.
Proof.
  cbv zeta. split; [|split].
  - apply normalize_numbers_single_spaced, normalize_boundaries_single_spaced,
      normalize_case_single_spaced;
      [apply sanitize_text_printable | apply sanitize_text_single_spaced].
  - apply normalize_numbers_head, normalize_boundaries_head.
  - apply normalize_numbers_end. unfold normalize_sentence_boundaries.
    destruct (negb (nonempty _)); [reflexivity|]. apply strip_trimmed.
Qed.

(** The text of an emitted article is in whitespace normal form: no
    blank at either end and no two blanks side by side. *)
Theorem emitted_text_is_single_spaced rt flag min_length max_length raws out a :
  process_articles rt flag min_length max_length raws = Ret out ->
  In a out ->
  single_spaced (body_text a) = true /\ trimmed (body_text a).
Proof.
  intros Hout Hin.
  destruct (emitted_body _ _ _ _ _ _ _ Hout Hin) as (text & -> & _).
  apply body_is_single_spaced.
Qed.

Lemma emitted_text_is_single_spaced_witness :
  exists a,
    process_articles sample_runtime true 10 100000
      [VDict [ (lit "title", VStr (lit "  Rates   rise ..  in 2024 ,  again!!  "));
               (lit "description", VStr (lit "More   soon.Stay tuned")) ]] = Ret [a]
    /\ body_text a = lit "rates rise in <NUM> again! more soon. stay tuned"
    /\ single_spaced (body_text a) = true /\ trimmed (body_text a).
Proof.
  eexists. split; [vm_compute; reflexivity|]. split; [reflexivity|].
  eapply (emitted_text_is_single_spaced sample_runtime true 10 100000
            [VDict [ (lit "title", VStr (lit "  Rates   rise ..  in 2024 ,  again!!  "));
                     (lit "description", VStr (lit "More   soon.Stay tuned")) ]]);
    [vm_compute; reflexivity | left; reflexivity].
Defined.

(** So [token_count] is one more than the number of spaces in
    [body_text]. *)
Theorem emitted_tokens_are_spaces_plus_one rt flag min_length max_length raws out a :
  process_articles rt flag min_length max_length raws = Ret out ->
  In a out ->
  token_count a
  = Some (S (List.length (filter (fun c => (c =? chr " ")%N) (body_text a)))).
Proof.
  intros Hout Hin.
  destruct (emitted_body _ _ _ _ _ _ _ Hout Hin) as (text & Hb & Hne & ->).
  f_equal.
  assert (Hvis : forallb ascii_printable (body_text a) = true).
  { rewrite Hb. apply normalize_numbers_printable, normalize_boundaries_printable,
      normalize_case_printable, sanitize_text_printable. }
  destruct (body_is_single_spaced rt text flag) as (Hs & Hh & He).
  rewrite <- Hb in Hs, Hh, He.
  unfold split_ws. rewrite (tokens_of_single_spaced _ [] Hs He (fun _ => Hh)).
  assert (Hn : nonempty (body_text a) = true).
  { destruct (body_text a); [congruence | reflexivity]. }
  rewrite Hn, orb_true_r, Nat.add_1_r. f_equal. f_equal.
  apply filter_ext_in. intros x Hx. apply visible_blank_is_space.
  rewrite forallb_forall in Hvis. now apply Hvis.
Qed.

Lemma emitted_tokens_are_spaces_plus_one_witness :
  exists a,
    process_articles sample_runtime false 10 100000 [scenario1_raw] = Ret [a]
    /\ token_count a
       = Some (S (List.length (filter (fun c => (c =? chr " ")%N) (body_text a)))).
Proof.
  eexists. split; [vm_compute; reflexivity|].
  eapply (emitted_tokens_are_spaces_plus_one sample_runtime false 10 100000
            [scenario1_raw]);
    [vm_compute; reflexivity | left; reflexivity].
Defined.
